(** * Chess engine orchestration: a shallow embedding of
      [src/lib/stockfish.ts] (the UCI protocol client and its pool) and of the
      analysis layer of [GeminiChessAI] that consumes it.

    Conventions of the embedding.
    - A JavaScript [number] is modelled by [number]: an exact rational or
      [NaN].  Rounding of IEEE doubles, infinities and the sign of zero are not
      modelled; [NaN] is kept because [parseInt] produces it and every
      comparison with it is false.
    - Strings are [string]; [undefined] is [None].
    - Effects are explicit: a state and error monad over the engine object,
      the log of UCI commands posted and the oracles of the environment.
    - chess.js, an external library, is an interface ([ChessJs]). *)

From Stdlib Require Import ZArith QArith Qabs Qround Qminmax Qfield Lqa Lia.
From Stdlib Require Import Ascii String.
From stdpp Require Import base option list strings pretty gmap.

Set Default Proof Using "Type".
Local Open Scope Z_scope.

(* ===================================================================== *)
(** ** JavaScript numbers *)
(* ===================================================================== *)

Inductive number : Type :=
| NaN
| Num (q : Q).

Module Js.

Definition ofZ (z : Z) : number := Num (inject_Z z).
Definition ofNat (n : nat) : number := ofZ (Z.of_nat n).

Definition lift2 (f : Q -> Q -> Q) (a b : number) : number :=
match a, b with
| Num x, Num y => Num (f x y)
| _, _ => NaN
end.

Definition sub : number -> number -> number := lift2 Qminus.
Definition mul : number -> number -> number := lift2 Qmult.
Definition add : number -> number -> number := lift2 Qplus.

(** [a / b]; the divisors of the source are literals or guarded to be
  non-zero, and a zero divisor (an infinity in JavaScript) is not modelled. *)
Definition div (a b : number) : number :=
match a, b with
| Num x, Num y => if Qeq_bool y 0 then NaN else Num (x / y)
| _, _ => NaN
end.

Definition neg (a : number) : number :=
match a with Num x => Num (- x) | NaN => NaN end.

(** [Math.abs] *)
Definition abs (a : number) : number :=
match a with Num x => Num (Qabs x) | NaN => NaN end.

(** [Math.min] of two arguments: [NaN] as soon as one of them is. *)
Definition min (a b : number) : number :=
match a, b with
| Num x, Num y => Num (if Qle_bool x y then x else y)
| _, _ => NaN
end.

(** Comparisons: false whenever an operand is [NaN]. *)
Definition cmp (f : Q -> Q -> bool) (a b : number) : bool :=
match a, b with
| Num x, Num y => f x y
| _, _ => false
end.

Definition leb : number -> number -> bool := cmp Qle_bool.
Definition geb : number -> number -> bool := cmp (fun x y => Qle_bool y x).
Definition gtb : number -> number -> bool := cmp (fun x y => negb (Qle_bool x y)).

(** [a] denotes the rational [q]. *)
Definition denotes (a : number) (q : Q) : Prop :=
match a with Num x => x == q | NaN => False end.

Definition isNaN (a : number) : bool :=
match a with NaN => true | Num _ => false end.

(** Truthiness of an optional boolean field ([undefined] is falsy). *)
Definition truthy (b : option bool) : bool :=
match b with Some true => true | _ => false end.

(** Truthiness of a string that may be [undefined]. *)
Definition truthyStr (s : option string) : bool :=
match s with
| Some EmptyString | None => false
| Some _ => true
end.

(** *** [String.prototype.split] on a one-character separator *)
Fixpoint split (sep : ascii) (s : string) : list string :=
match s with
| EmptyString => [EmptyString]
| String c s' =>
    if Ascii.eqb c sep then EmptyString :: split sep s'
    else match split sep s' with
         | w :: ws => String c w :: ws
         | [] => [String c EmptyString]
         end
end.

(** [s.startsWith(p)] *)
Definition startsWith (s p : string) : bool := String.prefix p s.

(** *** [parseInt] with no radix argument

  Leading white space is skipped, a sign is read, a [0x] or [0X] prefix
  selects radix 16, and the longest run of digits is converted; no digit
  gives [NaN]. *)
Definition isWhiteSpace (c : ascii) : bool :=
let n := nat_of_ascii c in
((9 <=? n)%nat && (n <=? 13)%nat) || (n =? 32)%nat.

Fixpoint skipWhiteSpace (s : string) : string :=
match s with
| String c s' => if isWhiteSpace c then skipWhiteSpace s' else s
| EmptyString => s
end.

Definition digitValue (radix : Z) (c : ascii) : option Z :=
let n := Z.of_nat (nat_of_ascii c) in
let v :=
  if (48 <=? n) && (n <=? 57) then Some (n - 48)
  else if (97 <=? n) && (n <=? 122) then Some (n - 87)
  else if (65 <=? n) && (n <=? 90) then Some (n - 55)
  else None in
match v with
| Some d => if d <? radix then Some d else None
| None => None
end.

Fixpoint readDigits (radix : Z) (s : string) (acc : option Z) : option Z :=
match s with
| String c s' =>
    match digitValue radix c with
    | Some d => readDigits radix s' (Some (default 0 acc * radix + d))
    | None => acc
    end
| EmptyString => acc
end.

Definition parseInt (s : string) : number :=
let s := skipWhiteSpace s in
let '(sign, s) :=
  match s with
  | String "-" r => (-1, r)
  | String "+" r => (1, r)
  | _ => (1, s)
  end in
let '(radix, s) :=
  match s with
  | String "0" (String "x" r) | String "0" (String "X" r) => (16, r)
  | _ => (10, s)
  end in
match readDigits radix s None with
| Some n => ofZ (sign * n)
| None => NaN
end.

(** [parseInt(parts[k])] where the element may be missing: [undefined] is
  converted to the string "undefined", which has no digit. *)
Definition parseIntAt (o : option string) : number :=
match o with Some s => parseInt s | None => NaN end.

End Js.

(* ===================================================================== *)
(** ** Data of [stockfish.ts] *)
(* ===================================================================== *)

Record AnalysisResult : Type := {
  bestMove : option string;   (* [None]: [undefined], from a bare "bestmove" line *)
  evaluation : number;
  depth : number;
  nodes : number;
  time : Z;
  pv : list string;
  mate : option number
}.

(** The optional flags of a [PositionAnalysis]; [{}] is [noFlag]. *)
Record Classification : Type := {
  blunder : option bool;
  mistake : option bool;
  inaccuracy : option bool;
  brilliant : option bool;
  best : option bool
}.

Definition noFlag : Classification :=
  {| blunder := None; mistake := None; inaccuracy := None;
     brilliant := None; best := None |}.

Record PositionAnalysis : Type := {
  fen : string;
  move : string;
  analysis : list AnalysisResult;
  flags : Classification
}.

(** [StockfishEngine.classifyMove] *)
Definition classifyMove (evaluation : number) (moveIndex : nat) : Classification :=
  let absEval := Js.abs evaluation in
  if Js.geb absEval (Num 3%Q) then
    {| blunder := Some true; mistake := None; inaccuracy := None;
       brilliant := None; best := None |}
  else if Js.geb absEval (Num 1.5%Q) then
    {| blunder := None; mistake := Some true; inaccuracy := None;
       brilliant := None; best := None |}
  else if Js.geb absEval (Num 0.5%Q) then
    {| blunder := None; mistake := None; inaccuracy := Some true;
       brilliant := None; best := None |}
  else if Js.leb absEval (Num 0.1%Q) then
    {| blunder := None; mistake := None; inaccuracy := None;
       brilliant := None; best := Some true |}
  else if Js.leb absEval (Num 0.2%Q) && Js.gtb (Js.ofNat moveIndex) (Num 10%Q) then
    {| blunder := None; mistake := None; inaccuracy := None;
       brilliant := Some true; best := None |}
  else noFlag.

(* ===================================================================== *)
(** ** Effects: state, exceptions, the environment *)
(* ===================================================================== *)

(** What JavaScript code of the model can throw. *)
Inductive error : Type :=
| TypeError (what : string)      (* a property of [undefined] is accessed *)
| InvalidFen (fen : string)      (* thrown by [new Chess(fen)] *)
| InvalidPgn (pgn : string)      (* thrown by [chess.loadPgn] *)
| InvalidMove (san : string).    (* thrown by [chess.move] *)

Inductive outcome (A : Type) : Type :=
| Ok (a : A)
| Throw (e : error).
Arguments Ok {A} a.
Arguments Throw {A} e.

(** A computation over a mutable state [S] that returns or throws; the state
    reached is kept in both cases, as an exception does not undo an
    assignment. *)
Definition M (S A : Type) : Type := S -> outcome A * S.

#[global] Instance M_ret {S} : MRet (M S) := fun A a s => (Ok a, s).
#[global] Instance M_bind {S} : MBind (M S) := fun A B f m s =>
  match m s with
  | (Ok a, s') => f a s'
  | (Throw e, s') => (Throw e, s')
  end.

Definition throw {S A} (e : error) : M S A := fun s => (Throw e, s).
Definition get {S} : M S S := fun s => (Ok s, s).
Definition modify {S} (f : S -> S) : M S unit := fun s => (Ok tt, f s).

(** [try { m } catch (e) { h e }] *)
Definition try_catch {S A} (m : M S A) (h : error -> M S A) : M S A := fun s =>
  match m s with
  | (Ok a, s') => (Ok a, s')
  | (Throw e, s') => h e s'
  end.

(** The lines posted to an engine; [GoDepth d] stands for the template
    [`go depth ${d}`] and [PositionFen f] for [`position fen ${f}`]. *)
Inductive command : Type :=
| Uci
| SetOption (name value : string)
| UciNewGame
| PositionFen (fen : string)
| GoDepth (depth : number)
| Stop
| Quit.

(** What the program reads from outside: whether the [k]-th run of
    [initialize] finds a Stockfish constructor (which, as the interface
    [Stockfish] of the source declares, then returns an engine object), the
    lines on which the handler installed by the [k]-th search runs before the
    caller of that search resumes, the successive readings of [Date.now()]
    and of [Math.random()].  When none of the lines of a search settles its
    promise, the timer of the search fires after the last of them. *)
Record Env : Type := {
  stockfishLoads : nat -> bool;
  engineOutput : nat -> list string;
  dateNow : nat -> Z;
  mathRandom : nat -> Q
}.

(** The counters of the oracles and the log of every [postMessage], with the
    engine instance it was posted to. *)
Record World : Type := {
  posted : list (nat * command);
  inits : nat;
  searches : nat;
  clockReads : nat;
  randomReads : nat
}.

Definition world0 : World :=
  {| posted := []; inits := 0; searches := 0; clockReads := 0; randomReads := 0 |}.

(** The fields of a [StockfishEngine] object; [engine] is the instance the
    constructor returned, [None] while it is [undefined]. *)
Record StockfishEngine : Type := {
  engine : option nat;
  version : string;
  isReady : bool
}.

(** [new StockfishEngine(version)] *)
Definition newStockfishEngine (version : string) : StockfishEngine :=
  {| engine := None; version := version; isReady := false |}.

(** An engine object together with the world its methods act on. *)
Record Client : Type := {
  this : StockfishEngine;
  world : World
}.

Definition setThis (f : StockfishEngine -> StockfishEngine) : M Client unit :=
  modify (fun c => {| this := f (this c); world := world c |}).
Definition setWorld (f : World -> World) : M Client unit :=
  modify (fun c => {| this := this c; world := f (world c) |}).

(** [h.postMessage(cmd)] *)
Definition postMessage (h : nat) (cmd : command) : M Client unit :=
  setWorld (fun w =>
    {| posted := posted w ++ [(h, cmd)]; inits := inits w; searches := searches w;
       clockReads := clockReads w; randomReads := randomReads w |}).

(** The accumulator of one search: the local variables of the promise
    executor of [analyzePosition]. *)
Record Accum : Type := {
  accBestMove : option string;
  accEvaluation : number;
  accDepthReached : number;
  accNodes : number;
  accPv : list string;
  accMate : option number
}.

Definition accum0 : Accum :=
  {| accBestMove := Some EmptyString; accEvaluation := Num 0; accDepthReached := Num 0;
     accNodes := Num 0; accPv := []; accMate := None |}.

(** The object literal passed to [resolve]. *)
Definition snapshot (a : Accum) (elapsed : Z) : AnalysisResult :=
  {| bestMove := accBestMove a; evaluation := accEvaluation a;
     depth := accDepthReached a; nodes := accNodes a; time := elapsed;
     pv := accPv a; mate := accMate a |}.

(** The [for] loop over the tokens of an "info" line.  The loop variable [i]
    is the position of the head of [parts] in the whole line, so that
    [parts[i+1]] and [parts[i+2]] are the first two elements of the tail and
    [parts.slice(i+1)] is the tail; "pv" leaves the loop. *)
Fixpoint scanInfo (parts : list string) (a : Accum) : Accum :=
  match parts with
  | [] => a
  | p :: rest =>
      if (p =? "depth")%string then
        scanInfo rest
          {| accBestMove := accBestMove a; accEvaluation := accEvaluation a;
             accDepthReached := Js.parseIntAt (rest !! 0%nat);
             accNodes := accNodes a; accPv := accPv a; accMate := accMate a |}
      else if (p =? "nodes")%string then
        scanInfo rest
          {| accBestMove := accBestMove a; accEvaluation := accEvaluation a;
             accDepthReached := accDepthReached a;
             accNodes := Js.parseIntAt (rest !! 0%nat);
             accPv := accPv a; accMate := accMate a |}
      else if (p =? "score")%string then
        if bool_decide (rest !! 0%nat = Some "mate") then
          let mate := Js.parseIntAt (rest !! 1%nat) in
          scanInfo rest
            {| accBestMove := accBestMove a;
               accEvaluation :=
                 if Js.gtb mate (Num 0) then Js.sub (Num 10000) mate
                 else Js.sub (Num (-10000)) mate;
               accDepthReached := accDepthReached a; accNodes := accNodes a;
               accPv := accPv a; accMate := Some mate |}
        else if bool_decide (rest !! 0%nat = Some "cp") then
          scanInfo rest
            {| accBestMove := accBestMove a;
               accEvaluation := Js.div (Js.parseIntAt (rest !! 1%nat)) (Num 100);
               accDepthReached := accDepthReached a; accNodes := accNodes a;
               accPv := accPv a; accMate := accMate a |}
        else scanInfo rest a
      else if (p =? "pv")%string then
        {| accBestMove := accBestMove a; accEvaluation := accEvaluation a;
           accDepthReached := accDepthReached a; accNodes := accNodes a;
           accPv := rest; accMate := accMate a |}
      else scanInfo rest a
  end.

(** The update an "info" line makes to the accumulator. *)
Definition onInfo (message : string) (a : Accum) : Accum :=
  scanInfo (Js.split " " message) a.

(** The update a "bestmove" line makes: [bestMove = message.split(' ')[1]]. *)
Definition onBestMove (message : string) (a : Accum) : Accum :=
  {| accBestMove := Js.split " " message !! 1%nat;
     accEvaluation := accEvaluation a; accDepthReached := accDepthReached a;
     accNodes := accNodes a; accPv := accPv a; accMate := accMate a |}.

(* ===================================================================== *)
(** ** chess.js, the game-notation library, as an interface *)
(* ===================================================================== *)

(** The colours 'w' and 'b' and the piece letters 'p', 'n', 'b', 'r', 'q', 'k'. *)
Inductive Color : Type := White | Black.
Inductive PieceSymbol : Type := Pawn | Knight | Bishop | Rook | Queen | King.

Record Piece : Type := {
  type : PieceSymbol;
  color : Color
}.

#[global] Instance Color_eq_dec : EqDecision Color.
Proof. solve_decision. Defined.
#[global] Instance PieceSymbol_eq_dec : EqDecision PieceSymbol.
Proof. solve_decision. Defined.
#[global] Instance Piece_eq_dec : EqDecision Piece.
Proof. solve_decision. Defined.

(** An element of [chess.history({ verbose: true })] or of
    [chess.moves({ verbose: true })]. *)
Record Move : Type := {
  san : string;
  from : string;
  to : string;
  piece : PieceSymbol
}.

(** The operations of a [Chess] object the program calls.  A call that throws
    in chess.js returns [None].  [chess_loadPgn] gives the history and the
    position reached. *)
Class ChessJs : Type := {
  position : Type;
  chess_initial : position;                                (* [new Chess()], [chess.reset()] *)
  chess_load : string -> option position;                   (* [new Chess(fen)] *)
  chess_loadPgn : string -> option (list Move * position);  (* [chess.loadPgn(pgn)] *)
  chess_fen : position -> string;                           (* [chess.fen()] *)
  chess_moves : position -> list Move;                      (* [chess.moves({ verbose: true })] *)
  chess_move : position -> string -> option position;       (* [chess.move(san)] *)
  chess_board : position -> list (list (option Piece));     (* [chess.board()] *)
  chess_turn : position -> Color                            (* [chess.turn()] *)
}.

(* ===================================================================== *)
(** ** [class StockfishEngine] *)
(* ===================================================================== *)

Definition tickInit (wd : World) : World :=
  {| posted := posted wd; inits := S (inits wd); searches := searches wd;
     clockReads := clockReads wd; randomReads := randomReads wd |}.
Definition tickSearch (wd : World) : World :=
  {| posted := posted wd; inits := inits wd; searches := S (searches wd);
     clockReads := clockReads wd; randomReads := randomReads wd |}.
Definition tickClock (wd : World) : World :=
  {| posted := posted wd; inits := inits wd; searches := searches wd;
     clockReads := S (clockReads wd); randomReads := randomReads wd |}.
Definition tickRandom (wd : World) : World :=
  {| posted := posted wd; inits := inits wd; searches := searches wd;
     clockReads := clockReads wd; randomReads := S (randomReads wd) |}.

Section Engine.
Context (env : Env) {chessjs : ChessJs}.

(** [Date.now()] *)
Definition Date_now : M Client Z := fun c =>
  (Ok (dateNow env (clockReads (world c))),
   {| this := this c; world := tickClock (world c) |}).

(** The lines the engine delivers to the handler of the search that starts
    now, up to the moment its timer fires. *)
Definition engineLines : M Client (list string) := fun c =>
  (Ok (engineOutput env (searches (world c))),
   {| this := this c; world := tickSearch (world c) |}).

(** [StockfishEngine.initialize].  The three ways of finding the
    constructor are one oracle; when it is found the instance it returns is
    numbered by the attempt.  Every failure is caught and leaves
    [isReady = false] and [engine] as it was. *)
Definition initialize : M Client unit :=
  c ← get;
  let attempt := inits (world c) in
  setWorld tickInit;;
  (if stockfishLoads env attempt then
     setThis (fun o => {| engine := Some attempt; version := version o; isReady := true |})
   else
     setThis (fun o => {| engine := engine o; version := version o; isReady := false |}));;
  c ← get;
  match isReady (this c), engine (this c) with
  | true, Some h =>
      postMessage h Uci;;
      postMessage h (SetOption "Threads" "4");;
      postMessage h (SetOption "Hash" "256");;
      postMessage h (SetOption "Ponder" "false");;
      postMessage h UciNewGame
  | _, _ => mret tt
  end.

(** The handler [onmessage] on the lines that arrive once the promise is
    settled.  The handler is never removed: it still assigns the variables,
    and a "bestmove" line or an "info" line at the depth asked for still
    builds the object passed to [resolve], which reads the clock, the latter
    after posting "stop"; [clearTimeout] and [resolve] have no effect then. *)
Fixpoint drain (h : nat) (depthLimit : number) (lines : list string) (a : Accum)
    : M Client unit :=
  match lines with
  | [] => mret tt
  | message :: lines' =>
      if Js.startsWith message "bestmove" then
        let a' := onBestMove message a in
        Date_now;;
        drain h depthLimit lines' a'
      else if Js.startsWith message "info" then
        let a' := onInfo message a in
        if Js.geb (accDepthReached a') depthLimit then
          postMessage h Stop;;
          Date_now;;
          drain h depthLimit lines' a'
        else drain h depthLimit lines' a'
      else drain h depthLimit lines' a
  end.

(** The promise of [analyzePosition] once the two commands are posted: the
    handler [onmessage] is run on each line in turn; the first "bestmove"
    line, or the first "info" line at the depth asked for, settles the promise
    with the accumulator as it is then, and the handler goes on with the lines
    that follow; when the lines are exhausted and the promise is not settled
    the timer fires, posts "stop" and resolves with the accumulator. *)
Fixpoint listen (h : nat) (depthLimit : number) (startTime : Z)
    (lines : list string) (a : Accum) : M Client AnalysisResult :=
  match lines with
  | [] =>
      postMessage h Stop;;
      now ← Date_now;
      mret (snapshot a (now - startTime))
  | message :: lines' =>
      if Js.startsWith message "bestmove" then
        let a' := onBestMove message a in
        now ← Date_now;
        drain h depthLimit lines' a';;
        mret (snapshot a' (now - startTime))
      else if Js.startsWith message "info" then
        let a' := onInfo message a in
        if Js.geb (accDepthReached a') depthLimit then
          postMessage h Stop;;
          now ← Date_now;
          drain h depthLimit lines' a';;
          mret (snapshot a' (now - startTime))
        else listen h depthLimit startTime lines' a'
      else listen h depthLimit startTime lines' a
  end.

(** [StockfishEngine.analyzePosition(fen, depth, time)].  Assigning
    [this.engine.onmessage] while [this.engine] is [undefined] throws inside
    the executor, which rejects the promise.  [time] is the delay of the
    timer, already accounted for by [engineOutput]. *)
Definition analyzePosition (fen : string) (depth time : number)
    : M Client AnalysisResult :=
  c ← get;
  (if isReady (this c) then mret tt else initialize);;
  startTime ← Date_now;
  c ← get;
  match engine (this c) with
  | None => throw (TypeError "Cannot set properties of undefined (setting 'onmessage')")
  | Some h =>
      postMessage h (PositionFen fen);;
      postMessage h (GoDepth depth);;
      lines ← engineLines;
      listen h depth startTime lines accum0
  end.

(** [StockfishEngine.terminate] *)
Definition terminate : M Client unit :=
  c ← get;
  match engine (this c) with
  | Some h =>
      postMessage h Quit;;
      setThis (fun o => {| engine := engine o; version := version o; isReady := false |})
  | None => mret tt
  end.

(** The body of the [for] loop of [getTopMoves], [numMoves - i] iterations
    from now on. *)
Fixpoint getTopMovesFrom (fen : string) (remaining : nat)
    (moves : list AnalysisResult) : M Client (list AnalysisResult) :=
  match remaining with
  | O => mret moves
  | S remaining' =>
      analysis ← analyzePosition fen (Num 15) (Num 5000);
      if Js.truthyStr (bestMove analysis) then
        let moves := moves ++ [analysis] in
        match chess_load fen with
        | None => throw (InvalidFen fen)
        | Some chess =>
            match chess_move chess (default EmptyString (bestMove analysis)) with
            | Some _ =>
                c ← get;
                match engine (this c) with
                | Some h =>
                    postMessage h (PositionFen fen);;
                    getTopMovesFrom fen remaining' moves
                | None => mret moves      (* the [TypeError] is caught: [break] *)
                end
            | None => mret moves          (* [chess.move] threw: [break] *)
            end
        end
      else getTopMovesFrom fen remaining' moves
  end.

(** [StockfishEngine.getTopMoves(fen, numMoves)] *)
Definition getTopMoves (fen : string) (numMoves : nat)
    : M Client (list AnalysisResult) :=
  getTopMovesFrom fen numMoves [].

(** The [for] loop of [analyzeGame] from index [i], with [chess] the
    position reached. *)
Fixpoint analyzeGameFrom (history : list Move) (i : nat) (chess : position)
    (analyses : list PositionAnalysis) : M Client (list PositionAnalysis) :=
  match history with
  | [] => mret analyses
  | mv :: history' =>
      let fen := chess_fen chess in
      analysis ← analyzePosition fen (Num 18) (Num 8000);
      let moveClassification := classifyMove (evaluation analysis) i in
      let analyses :=
        analyses ++ [{| fen := fen; move := san mv; analysis := [analysis];
                        flags := moveClassification |}] in
      match chess_move chess (san mv) with
      | Some chess' => analyzeGameFrom history' (S i) chess' analyses
      | None => throw (InvalidMove (san mv))
      end
  end.

(** [StockfishEngine.analyzeGame(pgn)] *)
Definition analyzeGame (pgn : string) : M Client (list PositionAnalysis) :=
  match chess_loadPgn pgn with
  | None => mret []
  | Some (history, _) => analyzeGameFrom history 0 chess_initial []
  end.

End Engine.

(* ===================================================================== *)
(** ** [class MultiVersionStockfish] and [class GeminiChessAI] *)
(* ===================================================================== *)

(** The registry [engines : Map<string, StockfishEngine>] and the world. *)
Record Pool : Type := {
  engines : gmap string StockfishEngine;
  poolWorld : World
}.

Definition pool0 : Pool := {| engines := ∅; poolWorld := world0 |}.

(** A method call on the engine object registered under [ver]: the object
    lives in the map, so what the method assigns is seen by later calls. *)
Definition onEngine {A} (ver : string) (m : M Client A) : M Pool A := fun g =>
  match engines g !! ver with
  | Some e =>
      let '(res, c) := m {| this := e; world := poolWorld g |} in
      (res, {| engines := <[ver := this c]> (engines g); poolWorld := world c |})
  | None => (Throw (TypeError "Cannot read properties of undefined"), g)
  end.

Module MultiVersionStockfish.
Section Methods.
Context (env : Env) {chessjs : ChessJs}.

(** [getEngine(version)]; the reference returned is the key itself. *)
Definition getEngine (ver : string) : M Pool unit := fun g =>
  match engines g !! ver with
  | Some _ => (Ok tt, g)
  | None =>
      let '(res, c) :=
        initialize env {| this := newStockfishEngine ver; world := poolWorld g |} in
      match res with
      | Ok _ => (Ok tt, {| engines := <[ver := this c]> (engines g);
                           poolWorld := world c |})
      | Throw e => (Throw e, {| engines := engines g; poolWorld := world c |})
      end
  end.

(** The loop of [compareVersions] over the versions left, [results] being
    the map built so far. *)
Fixpoint compareVersionsFrom (fen : string) (versions : list string)
    (results : gmap string AnalysisResult) : M Pool (gmap string AnalysisResult) :=
  match versions with
  | [] => mret results
  | ver :: versions' =>
      getEngine ver;;
      analysis ← onEngine ver (analyzePosition env fen (Num 20) (Num 10000));
      compareVersionsFrom fen versions' (<[ver := analysis]> results)
  end.

(** [compareVersions(fen, versions)] *)
Definition compareVersions (fen : string) (versions : list string)
    : M Pool (gmap string AnalysisResult) :=
  compareVersionsFrom fen versions ∅.

(** [terminateAll()].  [forEach] visits the engines in the order in which
    they were registered, which the registry of the model does not record:
    the order of the visit is the argument [order], a list of keys.  The
    objects are then dropped with the registry. *)
Definition terminateAll (order : list string) : M Pool unit := fun g =>
  let wd :=
    fold_left
      (fun wd ver =>
         match engines g !! ver with
         | Some e => world (terminate {| this := e; world := wd |}).2
         | None => wd
         end)
      order (poolWorld g) in
  (Ok tt, {| engines := ∅; poolWorld := wd |}).

End Methods.
End MultiVersionStockfish.

Module AIMoveSuggestion.
Record alternative : Type := {
  alt_move : option string;
  alt_evaluation : number
}.
(** The fields [reasoning], [opening], [endgame], [theoreticalMoves] and
    [bookMoves] are texts and tables for display; they are computed without
    effect from the arguments and are left out. *)
Record t : Type := {
  move : option string;
  confidence : number;
  evaluation : number;
  alternatives : list alternative;
  patterns : list string
}.
End AIMoveSuggestion.

Module GameAnalysis.
Record summary_t : Type := {
  whiteAccuracy : number;
  blackAccuracy : number;
  averageRating : number;
  gameResult : string;
  timeControl : string;
  opening : string;
  criticalMoments : nat
}.
(** [insights] and [recommendations], texts chosen from counts of flags, are
    left out. *)
Record t : Type := {
  summary : summary_t;
  moves : list PositionAnalysis
}.
End GameAnalysis.

(** [array.filter((_, i) => keep i)], with [i] counted from [start]. *)
Fixpoint filterIndex {A} (keep : nat -> bool) (start : nat) (l : list A) : list A :=
  match l with
  | [] => []
  | x :: l' =>
      if keep start then x :: filterIndex keep (S start) l'
      else filterIndex keep (S start) l'
  end.

Module Insights.
(** [GameAnalysis['insights']] *)
Record t : Type := {
  patterns : list string;
  improvements : list string;
  strengths : list string;
  weaknesses : list string
}.
End Insights.

Module PlayerStats.
(** The value of [calculatePlayerStats]. *)
Record t : Type := {
  averageAccuracy : number;
  commonPatterns : list string;
  improvementAreas : list string;
  ratingProgress : list number
}.
End PlayerStats.

Module BookMove.
(** An element of [AIMoveSuggestion['bookMoves']]. *)
Record t : Type := {
  move : string;
  source : string;
  confidence : number
}.
End BookMove.

Module GeminiChessAI.
Section Methods.
Context (env : Env) {chessjs : ChessJs}.

Definition materialValues (t : PieceSymbol) : Z :=
  match t with
  | Pawn => 1 | Knight => 3 | Bishop => 3 | Rook => 5 | Queen => 9 | King => 0
  end.

(** [calculateMaterial(chess)]: the pair [(white, black)]. *)
Definition calculateMaterial (chess : position) : Z * Z :=
  fold_left
    (fun acc row =>
       fold_left
         (fun '(white, black) square =>
            match square with
            | Some pc =>
                let value := materialValues (type pc) in
                match color pc with
                | White => (white + value, black)
                | Black => (white, black + value)
                end
            | None => (white, black)
            end)
         row acc)
    (chess_board chess) (0, 0).

(** [Math.random()] *)
Definition Math_random : M Pool Q := fun g =>
  (Ok (mathRandom env (randomReads (poolWorld g))),
   {| engines := engines g; poolWorld := tickRandom (poolWorld g) |}).

(** [moves[i]] for a number [i]: [undefined] outside the array. *)
Definition at_index {A} (l : list A) (i : Z) : option A :=
  if i <? 0 then None else l !! Z.to_nat i.

(** [generateFallbackAnalysis(fen)] *)
Definition generateFallbackAnalysis (fen : string) : M Pool AIMoveSuggestion.t :=
  match chess_load fen with
  | None => throw (InvalidFen fen)
  | Some chess =>
      let moves := chess_moves chess in
      let material := calculateMaterial chess in
      let evaluation := material.1 - material.2 in
      rnd ← Math_random;
      let randomMove :=
        at_index moves
          (Qfloor (rnd * inject_Z (Z.min (Z.of_nat (length moves)) 5))) in
      mret {| AIMoveSuggestion.move :=
                Some (match randomMove with Some mv => san mv | None => "e2e4" end);
              AIMoveSuggestion.confidence := Num 0.3;
              AIMoveSuggestion.evaluation := Js.ofZ evaluation;
              AIMoveSuggestion.alternatives :=
                map (fun mv => {| AIMoveSuggestion.alt_move := Some (san mv);
                                  AIMoveSuggestion.alt_evaluation := Num 0 |})
                    (take 3 (drop 1 moves));
              AIMoveSuggestion.patterns := [] |}
  end.

(** [countAttackedPieces(chess, square)] *)
Definition countAttackedPieces (chess : position) (square : string) : nat :=
  length (List.filter (fun mv => (to mv =? square)%string) (chess_moves chess)).

(** [isPinOrSkewer] *)
Definition isPinOrSkewer (chess : position) (from to : string) : bool := false.

(** [detectPatterns(fen)], on the position built from [fen]; the patterns
    are kept by name. *)
Definition detectPatterns (chess : position) : list string :=
  flat_map
    (fun mv =>
       (match piece mv with
        | Knight => if (2 <=? countAttackedPieces chess (to mv))%nat then ["Fork"] else []
        | _ => []
        end) ++
       (match piece mv with
        | Rook | Bishop | Queen =>
            if isPinOrSkewer chess (from mv) (to mv) then ["Pin"] else []
        | _ => []
        end))
    (chess_moves chess).

(** [calculateConfidence(bestMove, topMoves)] *)
Definition calculateConfidence (bestMove : AnalysisResult)
    (topMoves : list AnalysisResult) : number :=
  if (length topMoves <? 2)%nat then Num 1
  else
    let evalDiff :=
      Js.abs (Js.sub (evaluation bestMove)
                     (from_option evaluation NaN (topMoves !! 1%nat))) in
    Js.min (Num 1) (Js.div evalDiff (Num 2)).

(** [analyzePosition(fen, depth, stockfishVersion)] *)
Definition analyzePosition (fen : string) (depth : number)
    (stockfishVersion : string) : M Pool AIMoveSuggestion.t :=
  try_catch
    (MultiVersionStockfish.getEngine env stockfishVersion;;
     analysis ← onEngine stockfishVersion
                  (analyzePosition env fen depth (Num 10000));
     topMoves ← onEngine stockfishVersion (getTopMoves env fen 3);
     match chess_load fen with
     | None => throw (InvalidFen fen)
     | Some chess =>
         mret {| AIMoveSuggestion.move := bestMove analysis;
                 AIMoveSuggestion.confidence := calculateConfidence analysis topMoves;
                 AIMoveSuggestion.evaluation := evaluation analysis;
                 AIMoveSuggestion.alternatives :=
                   map (fun alt => {| AIMoveSuggestion.alt_move := bestMove alt;
                                      AIMoveSuggestion.alt_evaluation := evaluation alt |})
                       (drop 1 topMoves);
                 AIMoveSuggestion.patterns := detectPatterns chess |}
     end)
    (fun _ => generateFallbackAnalysis fen).

(** [calculateAccuracy(moves)] *)
Definition calculateAccuracy (moves : list PositionAnalysis) : number :=
  if (length moves =? 0)%nat then Num 0
  else
    let accurateMoves :=
      length (List.filter
                (fun m => negb (Js.truthy (blunder (flags m)))
                          && negb (Js.truthy (mistake (flags m)))) moves) in
    Js.mul (Js.div (Js.ofNat accurateMoves) (Js.ofNat (length moves))) (Num 100).

(** [generateGameSummary(analyses, chess)] *)
Definition generateGameSummary (analyses : list PositionAnalysis)
    (chess : position) : GameAnalysis.summary_t :=
  let whiteMoves := filterIndex (fun i => (i mod 2 =? 0)%nat) 0 analyses in
  let blackMoves := filterIndex (fun i => (i mod 2 =? 1)%nat) 0 analyses in
  let whiteAccuracy := calculateAccuracy whiteMoves in
  let blackAccuracy := calculateAccuracy blackMoves in
  let criticalMoments :=
    length (List.filter
              (fun a => Js.truthy (blunder (flags a)) || Js.truthy (brilliant (flags a)))
              analyses) in
  {| GameAnalysis.whiteAccuracy := whiteAccuracy;
     GameAnalysis.blackAccuracy := blackAccuracy;
     GameAnalysis.averageRating := Num 1500;
     GameAnalysis.gameResult :=
       match chess_turn chess with White => "0-1" | Black => "1-0" end;
     GameAnalysis.timeControl := "Unknown";
     GameAnalysis.opening := "Unknown";
     GameAnalysis.criticalMoments := criticalMoments |}.

(** [generateEmptyGameAnalysis()] *)
Definition generateEmptyGameAnalysis : GameAnalysis.t :=
  {| GameAnalysis.summary :=
       {| GameAnalysis.whiteAccuracy := Num 50;
          GameAnalysis.blackAccuracy := Num 50;
          GameAnalysis.averageRating := Num 1200;
          GameAnalysis.gameResult := "*";
          GameAnalysis.timeControl := "Unknown";
          GameAnalysis.opening := "Unknown";
          GameAnalysis.criticalMoments := 0 |};
     GameAnalysis.moves := [] |}.

(** The [for] loop of [generateFallbackGameAnalysis]. *)
Fixpoint fallbackMovesFrom (history : list Move) (chess : position)
    (moves : list PositionAnalysis) : outcome (list PositionAnalysis) :=
  match history with
  | [] => Ok moves
  | mv :: history' =>
      let fen := chess_fen chess in
      let moves :=
        moves ++ [{| fen := fen; move := san mv;
                     analysis := [{| bestMove := Some (san mv); evaluation := Num 0;
                                     depth := Num 1; nodes := Num 1; time := 0;
                                     pv := [san mv]; mate := None |}];
                     flags := noFlag |}] in
      match chess_move chess (san mv) with
      | Some chess' => fallbackMovesFrom history' chess' moves
      | None => Throw (InvalidMove (san mv))
      end
  end.

(** [generateFallbackGameAnalysis(pgn)] *)
Definition generateFallbackGameAnalysis (pgn : string) : M Pool GameAnalysis.t :=
  match chess_loadPgn pgn with
  | None => mret generateEmptyGameAnalysis
  | Some (history, _) =>
      match fallbackMovesFrom history chess_initial [] with
      | Throw e => throw e
      | Ok moves =>
          mret {| GameAnalysis.summary :=
                    {| GameAnalysis.whiteAccuracy := Num 50;
                       GameAnalysis.blackAccuracy := Num 50;
                       GameAnalysis.averageRating := Num 1200;
                       GameAnalysis.gameResult :=
                         if (length history mod 2 =? 0)%nat then "1-0" else "0-1";
                       GameAnalysis.timeControl := "Unknown";
                       GameAnalysis.opening := "Unknown";
                       GameAnalysis.criticalMoments := 0 |};
                  GameAnalysis.moves := moves |}
      end
  end.

(** [analyzeGame(pgn, platform, stockfishVersion)]; [platform] is not used. *)
Definition analyzeGame (pgn : string) (stockfishVersion : string)
    : M Pool GameAnalysis.t :=
  try_catch
    (MultiVersionStockfish.getEngine env stockfishVersion;;
     positionAnalyses ← onEngine stockfishVersion (analyzeGame env pgn);
     match chess_loadPgn pgn with
     | None => throw (InvalidPgn pgn)
     | Some (_, chess) =>
         mret {| GameAnalysis.summary := generateGameSummary positionAnalyses chess;
                 GameAnalysis.moves := positionAnalyses |}
     end)
    (fun _ => generateFallbackGameAnalysis pgn).

(** The table [openingBook] of [getBookMoves]: source and confidence of a
    move written as its two squares. *)
Definition openingBook : gmap string (string * Q) :=
  list_to_map
    [ ("e2e4", ("MCO-15", 0.95%Q)); ("d2d4", ("MCO-15", 0.93%Q));
      ("g1f3", ("NCO", 0.88%Q)); ("b1c3", ("NCO", 0.85%Q));
      ("f1c4", ("MCO-15", 0.82%Q)); ("f1b5", ("MCO-15", 0.90%Q));
      ("e2e3", ("NCO", 0.75%Q)); ("d2d3", ("NCO", 0.72%Q)) ].

(** [getBookMoves(fen)] *)
Definition getBookMoves (fen : string) : outcome (list BookMove.t) :=
  match chess_load fen with
  | None => Throw (InvalidFen fen)
  | Some chess =>
      let bookMoves :=
        omap (fun mv =>
                let moveStr := from mv +:+ to mv in
                match openingBook !! moveStr with
                | Some bookInfo =>
                    Some {| BookMove.move := moveStr;
                            BookMove.source := bookInfo.1;
                            BookMove.confidence := Num bookInfo.2 |}
                | None => None
                end)
             (chess_moves chess) in
      Ok (take 3 bookMoves)
  end.

(** [generateInsights(analyses)] *)
Definition generateInsights (analyses : list PositionAnalysis) : Insights.t :=
  let blunders :=
    length (List.filter (fun a => Js.truthy (blunder (flags a))) analyses) in
  let brilliantMoves :=
    length (List.filter (fun a => Js.truthy (brilliant (flags a))) analyses) in
  {| Insights.patterns := ["Tactical awareness"; "Positional understanding"];
     Insights.improvements :=
       if (0 <? blunders)%nat then ["Reduce blunders"; "Better time management"] else [];
     Insights.strengths :=
       if (0 <? brilliantMoves)%nat then ["Tactical vision"; "Calculation accuracy"]
       else [];
     Insights.weaknesses :=
       if (2 <? blunders)%nat then ["Tactical oversight"; "Time pressure"] else [] |}.


(** [terminate()], with the order of the visit of [terminateAll]. *)
Definition terminate (order : list string) : M Pool unit :=
  MultiVersionStockfish.terminateAll order.

End Methods.
End GeminiChessAI.

(* ===================================================================== *)
(** ** An instance of the interface, for the examples

    FEN records are read and written in full; the move generator knows the
    advances of pawns only, and a game record is a list of such moves with
    optional move numbers.  Every theorem below is stated for an arbitrary
    instance; this one provides concrete games. *)
(* ===================================================================== *)

Module PawnChess.

Record pos : Type := {
  placement : list (list (option Piece));   (* rank 8 first *)
  sideToMove : Color;
  castling : string;
  enPassant : string;
  halfmoves : Z;
  fullmoves : Z
}.

Definition pieceOfChar (c : ascii) : option Piece :=
  match c with
  | "P"%char => Some {| type := Pawn; color := White |}
  | "N"%char => Some {| type := Knight; color := White |}
  | "B"%char => Some {| type := Bishop; color := White |}
  | "R"%char => Some {| type := Rook; color := White |}
  | "Q"%char => Some {| type := Queen; color := White |}
  | "K"%char => Some {| type := King; color := White |}
  | "p"%char => Some {| type := Pawn; color := Black |}
  | "n"%char => Some {| type := Knight; color := Black |}
  | "b"%char => Some {| type := Bishop; color := Black |}
  | "r"%char => Some {| type := Rook; color := Black |}
  | "q"%char => Some {| type := Queen; color := Black |}
  | "k"%char => Some {| type := King; color := Black |}
  | _ => None
  end.

Definition charOfPiece (pc : Piece) : ascii :=
  match color pc, type pc with
  | White, Pawn => "P" | White, Knight => "N" | White, Bishop => "B"
  | White, Rook => "R" | White, Queen => "Q" | White, King => "K"
  | Black, Pawn => "p" | Black, Knight => "n" | Black, Bishop => "b"
  | Black, Rook => "r" | Black, Queen => "q" | Black, King => "k"
  end%char.

Fixpoint parseRank (s : string) : option (list (option Piece)) :=
  match s with
  | EmptyString => Some []
  | String c s' =>
      rest ← parseRank s';
      let d := nat_of_ascii c in
      if ((49 <=? d) && (d <=? 56))%nat then Some (replicate (d - 48) None ++ rest)
      else pc ← pieceOfChar c; Some (Some pc :: rest)
  end.

Definition parsePlacement (s : string) : option (list (list (option Piece))) :=
  rows ← mapM parseRank (Js.split "/" s);
  if ((length rows =? 8) && forallb (fun row => length row =? 8) rows)%nat
  then Some rows else None.

Definition parseCount (s : string) : option Z := Js.readDigits 10 s None.

Definition load (fen : string) : option pos :=
  match Js.split " " fen with
  | [pl; side; ca; ep; hm; fm] =>
      rows ← parsePlacement pl;
      sd ← (if (side =? "w")%string then Some White
            else if (side =? "b")%string then Some Black else None);
      h ← parseCount hm;
      f ← parseCount fm;
      Some {| placement := rows; sideToMove := sd; castling := ca;
              enPassant := ep; halfmoves := h; fullmoves := f |}
  | _ => None
  end.

Fixpoint showRank (row : list (option Piece)) (empties : nat) : string :=
  let gap := if (empties =? 0)%nat then EmptyString else pretty empties in
  match row with
  | [] => gap
  | None :: row' => showRank row' (S empties)
  | Some pc :: row' => gap +:+ String (charOfPiece pc) (showRank row' 0)
  end.

Fixpoint join (sep : string) (l : list string) : string :=
  match l with
  | [] => EmptyString
  | [x] => x
  | x :: l' => x +:+ sep +:+ join sep l'
  end.

Definition toFen (c : pos) : string :=
  join " " [ join "/" (map (fun row => showRank row 0) (placement c));
             match sideToMove c with White => "w" | Black => "b" end;
             castling c; enPassant c; pretty (halfmoves c); pretty (fullmoves c) ].

Definition square (c : pos) (rank file : nat) : option Piece :=
  row ← placement c !! rank; sq ← row !! file; sq.

Definition squareName (rank file : nat) : string :=
  String (ascii_of_nat (97 + file)) (pretty (8 - rank)%nat).

(** The advance of the pawn on [(rank, file)] by [steps] squares, when the
    squares crossed are empty and the pawn does not reach the last rank. *)
Definition advance (c : pos) (rank file steps : nat) : option (Move * (nat * nat * nat)) :=
  let target :=
    match sideToMove c with
    | White => if (steps <=? rank)%nat then Some (rank - steps)%nat else None
    | Black => Some (rank + steps)%nat
    end in
  let home := match sideToMove c with White => 6%nat | Black => 1%nat end in
  let mid := match sideToMove c with White => (rank - 1)%nat | Black => S rank end in
  match target with
  | Some t =>
      if ((1 <=? t) && (t <=? 6) && ((steps =? 1) || (rank =? home))
          && bool_decide (square c mid file = None)
          && bool_decide (square c t file = None))%nat
      then Some ({| san := squareName t file; from := squareName rank file;
                    to := squareName t file; piece := Pawn |}, (rank, file, t))
      else None
  | None => None
  end.

Definition pushes (c : pos) : list (Move * (nat * nat * nat)) :=
  flat_map
    (fun rank =>
       flat_map
         (fun file =>
            if bool_decide (square c rank file
                            = Some {| type := Pawn; color := sideToMove c |})
            then omap (advance c rank file) [1%nat; 2%nat]
            else [])
         (seq 0 8))
    (seq 0 8).

Definition legalMoves (c : pos) : list Move := map fst (pushes c).

Definition play (c : pos) (s : string) : option pos :=
  match List.find (fun m => (san (fst m) =? s)%string) (pushes c) with
  | Some (_, (rank, file, t)) =>
      let pawn := Some {| type := Pawn; color := sideToMove c |} in
      Some {| placement :=
                alter (fun row => <[file := pawn]> row) t
                  (alter (fun row => <[file := None]> row) rank (placement c));
              sideToMove := match sideToMove c with White => Black | Black => White end;
              castling := castling c;
              enPassant := "-";
              halfmoves := 0;
              fullmoves := match sideToMove c with
                           | White => fullmoves c
                           | Black => fullmoves c + 1
                           end |}
  | None => None
  end.

Definition initial : pos :=
  let back col := map (fun t => Some {| type := t; color := col |})
                      [Rook; Knight; Bishop; Queen; King; Bishop; Knight; Rook] in
  let pawns col := replicate 8 (Some {| type := Pawn; color := col |}) in
  {| placement := [back Black; pawns Black] ++ replicate 4 (replicate 8 None)
                  ++ [pawns White; back White];
     sideToMove := White; castling := "KQkq"; enPassant := "-";
     halfmoves := 0; fullmoves := 1 |}.

(** The moves of a record: the tokens that are neither empty nor a move
    number such as [12.]. *)
Definition isMoveNumber (s : string) : bool :=
  match Js.split "." s with
  | [num; EmptyString] => bool_decide (is_Some (parseCount num))
  | _ => false
  end.

Fixpoint replay (c : pos) (sans : list string) : option (list Move * pos) :=
  match sans with
  | [] => Some ([], c)
  | s :: sans' =>
      mv ← List.find (fun m => (san m =? s)%string) (legalMoves c);
      c' ← play c s;
      '(hist, final) ← replay c' sans';
      Some (mv :: hist, final)
  end.

Definition loadPgn (pgn : string) : option (list Move * pos) :=
  replay initial
    (List.filter (fun s => negb (s =? EmptyString)%string && negb (isMoveNumber s))
                 (Js.split " " pgn)).

#[export] Instance chess : ChessJs := {|
  position := pos;
  chess_initial := initial;
  chess_load := load;
  chess_loadPgn := loadPgn;
  chess_fen := toFen;
  chess_moves := legalMoves;
  chess_move := play;
  chess_board := placement;
  chess_turn := sideToMove
|}.

Definition startFen : string :=
  "rnbqkbnr/pppppppp/8/8/8/8/PPPPPPPP/RNBQKBNR w KQkq - 0 1".

End PawnChess.

(** The same library for game records that start from a set-up position
    (the headers [SetUp] and [FEN] of a record): [loadPgn] replays the moves
    from the position after 1. e4, Black to move. *)
Module SetUpChess.

Definition setUp : PawnChess.pos :=
  default PawnChess.initial (PawnChess.play PawnChess.initial "e4").

Definition loadPgn (pgn : string) : option (list Move * PawnChess.pos) :=
  PawnChess.replay setUp
    (List.filter (fun s => negb (s =? EmptyString)%string
                           && negb (PawnChess.isMoveNumber s))
                 (Js.split " " pgn)).

Definition chess : ChessJs := {|
  position := PawnChess.pos;
  chess_initial := PawnChess.initial;
  chess_load := PawnChess.load;
  chess_loadPgn := loadPgn;
  chess_fen := PawnChess.toFen;
  chess_moves := PawnChess.legalMoves;
  chess_move := PawnChess.play;
  chess_board := PawnChess.placement;
  chess_turn := PawnChess.sideToMove
|}.

End SetUpChess.

(* ===================================================================== *)
(** ** Vocabulary of the statements *)
(* ===================================================================== *)

Inductive Flag : Type := Blunder | Mistake | Inaccuracy | Brilliant | Best.

(** The flags of a classification that are set, in the order of the record. *)
Definition flagsSet (c : Classification) : list Flag :=
  (if Js.truthy (blunder c) then [Blunder] else []) ++
  (if Js.truthy (mistake c) then [Mistake] else []) ++
  (if Js.truthy (inaccuracy c) then [Inaccuracy] else []) ++
  (if Js.truthy (brilliant c) then [Brilliant] else []) ++
  (if Js.truthy (best c) then [Best] else []).

(** The keywords of an "info" line. *)
Definition infoKeywords : list string := ["depth"; "nodes"; "score"; "pv"].

(** The update of the accumulator by a line that is not terminal. *)
Definition progress (a : Accum) (line : string) : Accum :=
  if Js.startsWith line "info" then onInfo line a else a.

(** The accumulator after a run of progress lines. *)
Definition accumulate (lines : list string) : Accum :=
  fold_left progress lines accum0.

(** The positions before each ply of a game replayed from [chess]; [None]
    when a move of the record cannot be played. *)
Fixpoint positionsBefore {chessjs : ChessJs} (chess : position) (history : list Move)
    : option (list position) :=
  match history with
  | [] => Some []
  | mv :: history' =>
      chess' ← chess_move chess (san mv);
      rest ← positionsBefore chess' history';
      Some (chess :: rest)
  end.

(** What a list of analyses records: for each ply the position text and the
    move. *)
Definition pliesOf (analyses : list PositionAnalysis) : list (string * string) :=
  map (fun pa => (fen pa, move pa)) analyses.

(** What a game is: for each ply the position before it and the move played. *)
Definition pliesOfGame {chessjs : ChessJs} (positions : list position) (history : list Move)
    : list (string * string) :=
  zip (map chess_fen positions) (map san history).

(** The value of a piece in pawns. *)
Definition pieceValue (t : PieceSymbol) : Z :=
  match t with
  | Pawn => 1 | Knight => 3 | Bishop => 3 | Rook => 5 | Queen => 9 | King => 0
  end.

(** What a square adds to the material of [side]. *)
Definition squareValue (side : Color) (sq : option Piece) : Z :=
  match sq with
  | Some pc => if bool_decide (color pc = side) then pieceValue (type pc) else 0
  | None => 0
  end.

(** The material of one side: the sum of the values of its pieces. *)
Definition materialOf (side : Color) (board : list (list (option Piece))) : Z :=
  foldr Z.add 0 (map (squareValue side) (concat board)).

(** The line [message] carries the field [score kind n]: it is the last
    "score" token of the line and no "pv" token comes before it. *)
Definition hasScoreField (message kind : string) (n : Z) : Prop :=
  exists pre t post,
    Js.split " " message = pre ++ "score" :: kind :: t :: post /\
    ("pv" ∉ pre) /\ ("score" ∉ post) /\ Js.parseInt t = Js.ofZ n.

(** The commands a call posted, between the states [c] and [c']. *)
Definition posts (c c' : Client) (new : list (nat * command)) : Prop :=
  posted (world c') = posted (world c) ++ new.

(** Every line that a search of [fen] to depth [d] may post, the start-up
    lines of [initialize] included. *)
Definition searchCommands (fen : string) (d : number) : list command :=
  [Uci; SetOption "Threads" "4"; SetOption "Hash" "256"; SetOption "Ponder" "false";
   UciNewGame; PositionFen fen; GoDepth d; Stop].

(** A move that is flagged neither blunder nor mistake. *)
Definition accurate (m : PositionAnalysis) : bool :=
  negb (Js.truthy (blunder (flags m))) && negb (Js.truthy (mistake (flags m))).

(** The accuracy [acc] is the one of the moves [ms] of a side: 0 for no move
    at all, else the percentage of accurate moves. *)
Definition scoresAccuracy (acc : number) (ms : list PositionAnalysis) : Prop :=
  (ms = [] -> acc = Num 0) /\
  (ms <> [] ->
   exists x : Q,
     acc = Num x /\
     (x == 100 * inject_Z (Z.of_nat (length (List.filter accurate ms)))
               / inject_Z (Z.of_nat (length ms)))%Q /\
     (0 <= x <= 100)%Q /\
     (Forall (fun m => accurate m = true) ms -> (x == 100)%Q)).

(** The array of the standard starting position. *)
Definition standardBoard : list (list (option Piece)) :=
  PawnChess.placement PawnChess.initial.


(** An engine object that is marked ready holds an instance. *)
Definition coherent (o : StockfishEngine) : Prop :=
  isReady o = true -> is_Some (engine o).

(** No line of [lines] is a "bestmove" line. *)
Definition silent (lines : list string) : Prop :=
  Forall (fun line => Js.startsWith line "bestmove" = false) lines.

(** No "info" line of [lines] reports the depth [d] or more, the accumulator
    being [a] before the first of them. *)
Definition shallow (d : number) (a : Accum) (lines : list string) : Prop :=
  forall (k : nat) (line : string),
    lines !! k = Some line -> Js.startsWith line "info" = true ->
    Js.geb (accDepthReached (fold_left progress (take (S k) lines) a)) d = false.

(** The record [pa] holds one search result and the flags that
    [classifyMove] gives its evaluation at index [i]. *)
Definition classifiedAt (i : nat) (pa : PositionAnalysis) : Prop :=
  exists r : AnalysisResult,
    analysis pa = [r] /\ flags pa = classifyMove (evaluation r) i.


(** The start-up lines of [initialize], posted to the instance [h]. *)
Definition handshake (h : nat) : list (nat * command) :=
  [(h, Uci); (h, SetOption "Threads" "4"); (h, SetOption "Hash" "256");
   (h, SetOption "Ponder" "false"); (h, UciNewGame)].

(** The list [order] names each key of the registry once. *)
Definition enumerates (order : list string) (pool : Pool) : Prop :=
  NoDup order /\ forall ver : string, ver ∈ order <-> is_Some (engines pool !! ver).

(** The "quit" lines of a visit of the registry in the order [order]: one
    for each engine that holds an instance. *)
Definition quitLines (pool : Pool) (order : list string) : list (nat * command) :=
  omap (fun ver => e ← engines pool !! ver; h ← engine e; Some (h, Quit)) order.

(** A search over [lines] to depth [d] ends without a best move: either the
    timer fires after lines none of which is a "bestmove" line or reports the
    depth [d], or such lines are followed by an "info" line that does report
    it. *)
Definition unanswered (d : number) (lines : list string) : Prop :=
  exists pre rest,
    lines = pre ++ rest /\ silent pre /\ shallow d accum0 pre /\
    (rest = [] \/
     exists deep post,
       rest = deep :: post /\ Js.startsWith deep "info" = true /\
       Js.geb (accDepthReached (accumulate (pre ++ [deep]))) d = true).

(** The number of "stop" lines that the handler posts on the lines that
    follow the one that settled a search to depth [d], the accumulator being
    [a] then: one for each "info" line at which the depth reached is at least
    [d]. *)
Fixpoint lateStops (d : number) (a : Accum) (lines : list string) : nat :=
  match lines with
  | [] => 0
  | line :: lines' =>
      if Js.startsWith line "bestmove" then lateStops d (onBestMove line a) lines'
      else if Js.startsWith line "info" then
        if Js.geb (accDepthReached (onInfo line a)) d
        then S (lateStops d (onInfo line a) lines')
        else lateStops d (onInfo line a) lines'
      else lateStops d a lines'
  end.

(** The log of a search of [fen] to depth [d] on the instance [h] that was
    followed by [stops] "stop" lines. *)
Definition searchLog (h : nat) (fen : string) (d : number) (stops : nat)
    : list (nat * command) :=
  [(h, PositionFen fen); (h, GoDepth d)] ++ replicate stops (h, Stop).

(** The "go" lines and the "position" lines of a log. *)
Definition goLines (new : list (nat * command)) : list (nat * command) :=
  List.filter (fun e => match e.2 with GoDepth _ => true | _ => false end) new.

Definition positionLines (new : list (nat * command)) : list (nat * command) :=
  List.filter (fun e => match e.2 with PositionFen _ => true | _ => false end) new.

(** The accumulator [a] with [rest] as principal variation. *)
Definition withPv (rest : list string) (a : Accum) : Accum :=
  {| accBestMove := accBestMove a; accEvaluation := accEvaluation a;
     accDepthReached := accDepthReached a; accNodes := accNodes a;
     accPv := rest; accMate := accMate a |}.

(** Every engine object of the registry is coherent. *)
Definition poolCoherent (pool : Pool) : Prop :=
  map_Forall (fun _ e => coherent e) (engines pool).

(** The record that the fallback report writes for the move [m]: no flag,
    and one result that names the move itself with evaluation 0. *)
Definition placeholder (pa : PositionAnalysis) : Prop :=
  flags pa = noFlag /\
  analysis pa = [{| bestMove := Some (move pa); evaluation := Num 0; depth := Num 1;
                    nodes := Num 1; time := 0; pv := [move pa]; mate := None |}].


(** Environments and clients for the examples. *)
Module Example.

(** Stockfish can be loaded and answers every search with [lines]. *)
Definition engineUp (lines : list string) : Env :=
  {| stockfishLoads := fun _ => true;
     engineOutput := fun _ => lines;
     dateNow := fun k => 1000 * Z.of_nat k;
     mathRandom := fun _ => 0.5%Q |}.

(** No Stockfish constructor can be found. *)
Definition engineDown : Env :=
  {| stockfishLoads := fun _ => false;
     engineOutput := fun _ => [];
     dateNow := fun k => 1000 * Z.of_nat k;
     mathRandom := fun _ => 0.5%Q |}.

(** The constructor is found from the second attempt on. *)
Definition engineLate (lines : list string) : Env :=
  {| stockfishLoads := fun k => negb (k =? 0)%nat;
     engineOutput := fun _ => lines;
     dateNow := fun k => 1000 * Z.of_nat k;
     mathRandom := fun _ => 0.5%Q |}.

(** Stockfish can be loaded and answers the searches with the best moves
    "e4", "d4", "c4" in turn, and with "a3" from the fourth on. *)
Definition engineVarying : Env :=
  {| stockfishLoads := fun _ => true;
     engineOutput := fun k => ["bestmove " +:+ nth k ["e4"; "d4"; "c4"] "a3"];
     dateNow := fun k => 1000 * Z.of_nat k;
     mathRandom := fun _ => 0.5%Q |}.

(** An engine that reports the depth 15 before its best move. *)
Definition deepSearch : list string :=
  ["info depth 14 score cp 20 nodes 900 pv d2d4";
   "info depth 15 score cp 31 nodes 1200 pv e2e4 e7e5";
   "bestmove e2e4 ponder e7e5"].

(** A registry that holds the ready engine of version 17 and an engine of
    version 16 that has no instance. *)
Definition twoEngines : Pool :=
  {| engines :=
       <["17" := {| engine := Some 0%nat; version := "17"; isReady := true |}]>
         (<["16" := newStockfishEngine "16"]> ∅);
     poolWorld := {| posted := []; inits := 2; searches := 0; clockReads := 0;
                     randomReads := 0 |} |}.

(** The position with which the page of the board starts: seven ranks. *)
Definition pageFen : string :=
  "rnbqkbnr/pppppppp/8/8/8/PPPPPPPP/RNBQKBNR w KQkq - 0 1".

(** A client just constructed, and one that is initialized. *)
Definition fresh : Client :=
  {| this := newStockfishEngine "17"; world := world0 |}.

Definition ready : Client :=
  {| this := {| engine := Some 0%nat; version := "17"; isReady := true |};
     world := {| posted := []; inits := 1; searches := 0; clockReads := 0;
                 randomReads := 0 |} |}.

(** Records of plies, without flag and flagged as a blunder. *)
Definition plain (fen move : string) : PositionAnalysis :=
  {| fen := fen; move := move; analysis := []; flags := noFlag |}.

Definition blundered (fen move : string) : PositionAnalysis :=
  {| fen := fen; move := move; analysis := [];
     flags := {| blunder := Some true; mistake := None; inaccuracy := None;
                 brilliant := None; best := None |} |}.

(** A game of three plies in which White blunders once. *)
Definition threePlies : list PositionAnalysis :=
  [ blundered "rnbqkbnr/pppppppp/8/8/8/8/PPPPPPPP/RNBQKBNR w KQkq - 0 1" "e4";
    plain "rnbqkbnr/pppppppp/8/8/4P3/8/PPPP1PPP/RNBQKBNR b KQkq - 0 1" "e5";
    plain "rnbqkbnr/pppp1ppp/8/4p3/4P3/8/PPPP1PPP/RNBQKBNR w KQkq - 0 2" "d4" ].

(** Progress lines of a search that is cut by its timer. *)
Definition slowSearch : list string :=
  ["info depth 5 score cp 20 nodes 100 pv e2e4";
   "info depth 6 score cp 31 nodes 300 pv d2d4 d7d5"].

(** A search that ends with a best move. *)
Definition quickSearch : list string :=
  ["info depth 10 score cp 35 nodes 1000 pv e2e4 e7e5"; "bestmove e4 ponder e5"].

End Example.

(* ===================================================================== *)
(** ** Properties *)
(* ===================================================================== *)

Section NumberFacts.
Local Open Scope Q_scope.

Lemma Qle_bool_true (x y : Q) : Qle_bool x y = true <-> x <= y.
Proof. apply Qle_bool_iff. Qed.

Lemma Qle_bool_false (x y : Q) : Qle_bool x y = false <-> y < x.
Proof.
  split; intros Hxy.
  - apply Qnot_le_lt. intros Hle. apply Qle_bool_iff in Hle. congruence.
  - destruct (Qle_bool x y) eqn:E; [|reflexivity].
    apply Qle_bool_iff in E. exfalso. exact (Qlt_not_le _ _ Hxy E).
Qed.

Lemma geb_Num (x y : Q) : Js.geb (Num x) (Num y) = true <-> y <= x.
Proof. apply Qle_bool_true. Qed.

Lemma geb_Num_false (x y : Q) : Js.geb (Num x) (Num y) = false <-> x < y.
Proof. apply Qle_bool_false. Qed.

Lemma leb_Num (x y : Q) : Js.leb (Num x) (Num y) = true <-> x <= y.
Proof. apply Qle_bool_true. Qed.

Lemma leb_Num_false (x y : Q) : Js.leb (Num x) (Num y) = false <-> y < x.
Proof. apply Qle_bool_false. Qed.

Lemma gtb_ofNat (i k : nat) :
  Js.gtb (Js.ofNat i) (Num (inject_Z (Z.of_nat k))) = true <-> (k < i)%nat.
Proof.
  unfold Js.gtb, Js.ofNat, Js.ofZ, Js.cmp. rewrite negb_true_iff, Qle_bool_false.
  rewrite <- Zlt_Qlt. lia.
Qed.

Lemma gtb_index_10 (i : nat) :
  Js.gtb (Js.ofNat i) (Num 10) = true <-> (10 < i)%nat.
Proof. exact (gtb_ofNat i 10). Qed.

End NumberFacts.

(** Case analysis on the comparisons of a cascade of thresholds. *)
Ltac thresholds :=
  repeat match goal with
    | |- context [Js.geb (Num ?x) (Num ?y)] =>
        let E := fresh "E" in
        destruct (Js.geb (Num x) (Num y)) eqn:E;
        [apply geb_Num in E | apply geb_Num_false in E]
    | |- context [Js.leb (Num ?x) (Num ?y)] =>
        let E := fresh "E" in
        destruct (Js.leb (Num x) (Num y)) eqn:E;
        [apply leb_Num in E | apply leb_Num_false in E]
    end.

(** C1.  Move classification sets at most one flag, the first whose
    threshold matches in the order blunder ([|e| >= 3]), mistake
    ([|e| >= 1.5]), inaccuracy ([|e| >= 0.5]), best ([|e| <= 0.1]),
    brilliant ([|e| <= 0.2] after move index 10), and none otherwise; an
    evaluation of exactly 3 is a blunder. *)
Theorem classifyMove_first_match (e : number) (i : nat) :
  (length (flagsSet (classifyMove e i)) <= 1)%nat /\
  (e = NaN -> flagsSet (classifyMove e i) = []) /\
  (forall x : Q, e = Num x ->
     (3 <= Qabs x -> flagsSet (classifyMove e i) = [Blunder])%Q /\
     (1.5 <= Qabs x < 3 -> flagsSet (classifyMove e i) = [Mistake])%Q /\
     (0.5 <= Qabs x < 1.5 -> flagsSet (classifyMove e i) = [Inaccuracy])%Q /\
     (Qabs x <= 0.1 -> flagsSet (classifyMove e i) = [Best])%Q /\
     ((0.1 < Qabs x <= 0.2)%Q -> (10 < i)%nat ->
        flagsSet (classifyMove e i) = [Brilliant]) /\
     ((0.1 < Qabs x <= 0.2)%Q -> (i <= 10)%nat ->
        flagsSet (classifyMove e i) = []) /\
     (0.2 < Qabs x < 0.5 -> flagsSet (classifyMove e i) = [])%Q) /\
  flagsSet (classifyMove (Num 3) i) = [Blunder] /\
  mistake (classifyMove (Num 3) i) = None.
Proof.
  split; [|split; [|split; [|split]]].
  - destruct e as [|x]; [cbn; lia|].
    unfold classifyMove; cbn [Js.abs].
    destruct (Js.gtb (Js.ofNat i) (Num 10)); thresholds; cbn; lia.
  - intros ->. reflexivity.
  - intros x ->. unfold classifyMove; cbn [Js.abs].
    destruct (Js.gtb (Js.ofNat i) (Num 10)) eqn:Egt.
    + apply gtb_index_10 in Egt.
      repeat split; intros; thresholds; cbn; try reflexivity; try lra; try lia.
    + assert (~ (10 < i)%nat) by (rewrite <- gtb_index_10; congruence).
      repeat split; intros; thresholds; cbn; try reflexivity; try lra; try lia.
  - reflexivity.
  - reflexivity.
Qed.

Lemma classifyMove_first_match_witness :
  flagsSet (classifyMove (Num 1.5) 0) = [Mistake] /\
  flagsSet (classifyMove (Num (-0.15)) 11) = [Brilliant].
Proof.
  split.
  - destruct (classifyMove_first_match (Num 1.5) 0) as (_ & _ & Hx & _).
    destruct (Hx 1.5%Q eq_refl) as (_ & Hmistake & _).
    apply Hmistake. split; [discriminate | reflexivity].
  - destruct (classifyMove_first_match (Num (-0.15)) 11) as (_ & _ & Hx & _).
    destruct (Hx (-0.15)%Q eq_refl) as (_ & _ & _ & _ & Hbrilliant & _).
    apply Hbrilliant; [split; [reflexivity | discriminate] | lia].
Defined.

(* --------------------------------------------------------------------- *)
(** *** The parser of progress events *)
(* --------------------------------------------------------------------- *)

Section InfoLines.

Implicit Types (parts pre post rest : list string) (a : Accum).

Lemma keyword_not_number (t : string) (n : Z) :
  Js.parseInt t = Js.ofZ n -> (t ∉ infoKeywords) /\ t <> "mate" /\ t <> "cp".
Proof.
  intros Hn. unfold infoKeywords.
  repeat rewrite not_elem_of_cons.
  repeat split; try apply not_elem_of_nil; intros ->; vm_compute in Hn; discriminate.
Qed.

Lemma scanInfo_skip (tok : string) rest a :
  tok ∉ infoKeywords -> scanInfo (tok :: rest) a = scanInfo rest a.
Proof.
  unfold infoKeywords. repeat rewrite not_elem_of_cons.
  intros (Hd & Hn & Hs & Hp & _). cbn [scanInfo].
  repeat match goal with
    | |- context [(tok =? ?kw)%string] =>
        destruct (String.eqb_spec tok kw); [congruence|]
    end.
  reflexivity.
Qed.

(** A scan passes over tokens that hold no "pv". *)
Lemma scanInfo_reaches pre rest a :
  "pv" ∉ pre -> exists a', scanInfo (pre ++ rest) a = scanInfo rest a'.
Proof.
  revert a. induction pre as [|tok pre IH]; intros a Hpv; [by exists a|].
  apply not_elem_of_cons in Hpv as [Hne Hpv].
  cbn [app scanInfo].
  repeat match goal with
    | |- context [(tok =? ?kw)%string] => destruct (String.eqb_spec tok kw)
    | |- context [bool_decide ?P] => destruct (bool_decide P)
    end; try congruence; apply IH, Hpv.
Qed.

(** Tokens that hold no "score" leave the evaluation and the mate distance. *)
Lemma scanInfo_keeps_score parts a :
  "score" ∉ parts ->
  accEvaluation (scanInfo parts a) = accEvaluation a /\
  accMate (scanInfo parts a) = accMate a.
Proof.
  revert a. induction parts as [|tok parts IH]; intros a Hs; [done|].
  apply not_elem_of_cons in Hs as [Hne Hs].
  cbn [scanInfo].
  repeat match goal with
    | |- context [(tok =? ?kw)%string] => destruct (String.eqb_spec tok kw)
    end; try congruence; try done; by rewrite !(proj1 (IH _ Hs)), !(proj2 (IH _ Hs)).
Qed.

Lemma kind_not_keyword (kind : string) :
  kind = "cp" \/ kind = "mate" -> kind ∉ infoKeywords.
Proof.
  unfold infoKeywords. repeat rewrite not_elem_of_cons.
  intros [-> | ->]; repeat split; try discriminate; apply not_elem_of_nil.
Qed.

(** The step of the loop at a "score" token. *)
Lemma scanInfo_at_cp (t : string) rest a :
  scanInfo ("score" :: "cp" :: t :: rest) a
  = scanInfo ("cp" :: t :: rest)
      {| accBestMove := accBestMove a;
         accEvaluation := Js.div (Js.parseInt t) (Num 100);
         accDepthReached := accDepthReached a; accNodes := accNodes a;
         accPv := accPv a; accMate := accMate a |}.
Proof. reflexivity. Qed.

Lemma scanInfo_at_mate (t : string) rest a :
  scanInfo ("score" :: "mate" :: t :: rest) a
  = scanInfo ("mate" :: t :: rest)
      {| accBestMove := accBestMove a;
         accEvaluation :=
           if Js.gtb (Js.parseInt t) (Num 0) then Js.sub (Num 10000) (Js.parseInt t)
           else Js.sub (Num (-10000)) (Js.parseInt t);
         accDepthReached := accDepthReached a; accNodes := accNodes a;
         accPv := accPv a; accMate := Some (Js.parseInt t) |}.
Proof. reflexivity. Qed.

Lemma gtb_ofZ_0 (z : Z) : Js.gtb (Js.ofZ z) (Num 0) = (0 <? z)%Z.
Proof.
  unfold Js.gtb, Js.ofZ, Js.cmp.
  destruct (0 <? z)%Z eqn:E.
  - apply Z.ltb_lt in E. apply negb_true_iff, Qle_bool_false.
    rewrite (Zlt_Qlt 0 z) in E. exact E.
  - apply Z.ltb_ge in E. apply negb_false_iff, Qle_bool_true.
    rewrite (Zle_Qle z 0) in E. exact E.
Qed.

(** What a scan computes from its last score field. *)
Lemma scanInfo_score pre kind t post a (n : Z) :
  "pv" ∉ pre -> "score" ∉ post -> Js.parseInt t = Js.ofZ n ->
  (kind = "cp" ->
     accEvaluation (scanInfo (pre ++ "score" :: kind :: t :: post) a)
     = Num (inject_Z n / 100)) /\
  (kind = "mate" ->
     accEvaluation (scanInfo (pre ++ "score" :: kind :: t :: post) a)
     = Num (if (0 <? n)%Z then 10000 - inject_Z n else -10000 - inject_Z n) /\
     accMate (scanInfo (pre ++ "score" :: kind :: t :: post) a) = Some (Js.ofZ n)).
Proof.
  intros Hpv Hs Ht.
  destruct (keyword_not_number t n Ht) as (Hkw & Hmate & Hcp).
  destruct (scanInfo_reaches pre ("score" :: kind :: t :: post) a Hpv) as [a' ->].
  split; intros ->.
  - rewrite scanInfo_at_cp.
    rewrite (scanInfo_skip "cp") by (apply kind_not_keyword; by left).
    rewrite scanInfo_skip by done.
    rewrite (proj1 (scanInfo_keeps_score _ _ Hs)).
    cbn [accEvaluation]. rewrite Ht. reflexivity.
  - rewrite scanInfo_at_mate.
    rewrite (scanInfo_skip "mate") by (apply kind_not_keyword; by right).
    rewrite scanInfo_skip by done.
    rewrite (proj1 (scanInfo_keeps_score _ _ Hs)), (proj2 (scanInfo_keeps_score _ _ Hs)).
    cbn [accEvaluation accMate]. rewrite Ht, gtb_ofZ_0.
    split; [|reflexivity]. by destruct (0 <? n)%Z.
Qed.

End InfoLines.

Section MateScores.
Local Open Scope Q_scope.

(** The evaluation a mate distance is converted to. *)
Lemma mate_evaluation (n : Z) (v : Q) :
  v = (if (0 <? n)%Z then 10000 - inject_Z n else -10000 - inject_Z n) ->
  (-10000 < n < 10000)%Z ->
  Qabs v == 10000 - inject_Z (Z.abs n) /\
  ((0 < n)%Z -> 0 < v) /\ ((n <= 0)%Z -> v < 0).
Proof.
  intros -> [Hlo Hhi].
  rewrite Zlt_Qlt in Hlo, Hhi.
  change (inject_Z (-10000)) with (-10000) in Hlo.
  change (inject_Z 10000) with 10000 in Hhi.
  destruct (0 <? n)%Z eqn:E.
  - apply Z.ltb_lt in E. rewrite (Z.abs_eq n) by lia.
    pose proof E as E'. rewrite Zlt_Qlt in E'. change (inject_Z 0) with 0 in E'.
    repeat split; [rewrite Qabs_pos; lra | lra | lia].
  - apply Z.ltb_ge in E. rewrite (Z.abs_neq n) by lia. rewrite inject_Z_opp.
    pose proof E as E'. rewrite Zle_Qle in E'. change (inject_Z 0) with 0 in E'.
    repeat split; [rewrite Qabs_neg; lra | lia | lra].
Qed.

End MateScores.

(** C7.  A progress line with the field [score cp n] sets the evaluation to
    [n / 100].  With [score mate n] it records the mate distance and sets an
    evaluation of magnitude [10000 - |n|], positive when [n > 0] (the side to
    move mates) and negative otherwise, so that of two mates of the same sign
    the shorter one has the larger magnitude.  A token that is no keyword is
    passed over, and a line of such tokens changes nothing. *)
Theorem progress_event_scores :
  (forall message a n,
     hasScoreField message "cp" n ->
     accEvaluation (onInfo message a) = Num (inject_Z n / 100)) /\
  (forall message a n,
     hasScoreField message "mate" n -> (-10000 < n < 10000)%Z ->
     accMate (onInfo message a) = Some (Js.ofZ n) /\
     exists v, accEvaluation (onInfo message a) = Num v /\
       (Qabs v == 10000 - inject_Z (Z.abs n))%Q /\
       ((0 < n)%Z -> (0 < v)%Q) /\ ((n <= 0)%Z -> (v < 0)%Q)) /\
  (forall m1 m2 a1 a2 n1 n2,
     hasScoreField m1 "mate" n1 -> hasScoreField m2 "mate" n2 ->
     ((0 < n1 /\ 0 < n2) \/ (n1 < 0 /\ n2 < 0))%Z ->
     (Z.abs n1 < Z.abs n2 < 10000)%Z ->
     exists v1 v2,
       accEvaluation (onInfo m1 a1) = Num v1 /\
       accEvaluation (onInfo m2 a2) = Num v2 /\
       (Qabs v2 < Qabs v1)%Q) /\
  (forall tok rest a,
     tok ∉ infoKeywords -> scanInfo (tok :: rest) a = scanInfo rest a) /\
  (forall message a,
     Forall (fun tok => tok ∉ infoKeywords) (Js.split " " message) ->
     onInfo message a = a).
Proof.
  assert (Hmate : forall message a n,
     hasScoreField message "mate" n -> (-10000 < n < 10000)%Z ->
     accMate (onInfo message a) = Some (Js.ofZ n) /\
     exists v, accEvaluation (onInfo message a) = Num v /\
       (Qabs v == 10000 - inject_Z (Z.abs n))%Q /\
       ((0 < n)%Z -> (0 < v)%Q) /\ ((n <= 0)%Z -> (v < 0)%Q)).
  { intros message a n (pre & t & post & Hsplit & Hpv & Hs & Ht) Hn.
    unfold onInfo. rewrite Hsplit.
    destruct (scanInfo_score pre "mate" t post a n Hpv Hs Ht) as [_ Hm].
    destruct (Hm eq_refl) as [Hev Hmt]. split; [exact Hmt|].
    eexists. split; [exact Hev|]. by apply mate_evaluation. }
  split; [|split; [exact Hmate|split; [|split]]].
  - intros message a n (pre & t & post & Hsplit & Hpv & Hs & Ht).
    unfold onInfo. rewrite Hsplit.
    by apply (scanInfo_score pre "cp" t post a n).
  - intros m1 m2 a1 a2 n1 n2 H1 H2 Hsign Hlt.
    destruct (Hmate m1 a1 n1 H1) as (_ & v1 & Hv1 & Habs1 & _); [lia|].
    destruct (Hmate m2 a2 n2 H2) as (_ & v2 & Hv2 & Habs2 & _); [lia|].
    exists v1, v2. repeat split; [done..|].
    rewrite Habs1, Habs2.
    assert (inject_Z (Z.abs n1) < inject_Z (Z.abs n2))%Q by (rewrite <- Zlt_Qlt; lia).
    lra.
  - intros tok rest a. apply scanInfo_skip.
  - intros message a. unfold onInfo.
    induction 1 as [|tok rest Htok _ IH]; [done|].
    by rewrite scanInfo_skip.
Qed.

Lemma progress_event_scores_witness :
  accEvaluation
    (onInfo "info depth 12 score cp 35 nodes 1000 pv e2e4 e7e5" accum0)
  = Num (inject_Z 35 / 100) /\
  accMate (onInfo "info depth 30 score mate -3 pv h7h8" accum0)
  = Some (Js.ofZ (-3)).
Proof.
  split.
  - apply (proj1 progress_event_scores).
    exists ["info"; "depth"; "12"], "35", ["nodes"; "1000"; "pv"; "e2e4"; "e7e5"].
    repeat split; try reflexivity;
      apply (bool_decide_unpack _); vm_compute; exact I.
  - apply (proj1 (proj2 progress_event_scores)); [|lia].
    exists ["info"; "depth"; "30"], "-3", ["pv"; "h7h8"].
    repeat split; try reflexivity;
      apply (bool_decide_unpack _); vm_compute; exact I.
Defined.

(* --------------------------------------------------------------------- *)
(** *** One search *)
(* --------------------------------------------------------------------- *)

(** Unfolding of the monad on a goal. *)
Ltac run :=
  cbv beta iota delta
    [mbind M_bind mret M_ret get modify setThis setWorld postMessage throw
     try_catch Date_now engineLines];
  cbn [this world posted inits searches clockReads randomReads
       engine version isReady fst snd tickInit tickSearch tickClock tickRandom].

Section SearchFacts.
Context (env : Env) {chessjs : ChessJs}.

Implicit Types (c : Client) (a : Accum) (lines : list string).

Lemma posts_refl c : posts c c [].
Proof. unfold posts. by rewrite app_nil_r. Qed.

Lemma posts_trans c1 c2 c3 new1 new2 :
  posts c1 c2 new1 -> posts c2 c3 new2 -> posts c1 c3 (new1 ++ new2).
Proof. unfold posts. intros H1 H2. by rewrite H2, H1, app_assoc. Qed.

(** The handler on the lines that follow the settling one: it returns,
    leaves the engine object alone and posts the "stop" lines that
    [lateStops] counts. *)
Lemma drain_state h d lines a c :
  exists c',
    drain env h d lines a c = (Ok tt, c') /\
    this c' = this c /\
    searches (world c') = searches (world c) /\
    inits (world c') = inits (world c) /\
    randomReads (world c') = randomReads (world c) /\
    posts c c' (replicate (lateStops d a lines) (h, Stop)).
Proof.
  revert a c. induction lines as [|line lines IH]; intros a c;
    cbn [drain lateStops].
  - exists c. split_and!; try done. apply posts_refl.
  - destruct (Js.startsWith line "bestmove").
    { run.
      match goal with
      | |- context [drain env h d lines ?a' ?c1] =>
          destruct (IH a' c1) as (c' & -> & Hthis & Hs & Hi & Hr & Hp)
      end.
      exists c'. unfold posts in *. cbn in *. by split_and!. }
    destruct (Js.startsWith line "info"); [|apply IH].
    destruct (Js.geb _ d); [|apply IH].
    run.
    match goal with
    | |- context [drain env h d lines ?a' ?c1] =>
        destruct (IH a' c1) as (c' & -> & Hthis & Hs & Hi & Hr & Hp)
    end.
    exists c'. unfold posts in *. cbn in *. split_and!; try done.
    by rewrite Hp, <- app_assoc.
Qed.

(** [listen] always resolves; it leaves the engine object alone and posts
    nothing but "stop". *)
Lemma listen_resolves h d t0 lines a c :
  exists r c' new,
    listen env h d t0 lines a c = (Ok r, c') /\
    this c' = this c /\
    searches (world c') = searches (world c) /\
    inits (world c') = inits (world c) /\
    posts c c' new /\ Forall (fun e => e = (h, Stop)) new.
Proof.
  revert a. induction lines as [|line lines IH]; intros a; cbn [listen].
  - run. eexists _, _, [(h, Stop)]. split; [reflexivity|]. unfold posts. cbn.
    split_and!; try done. by repeat constructor.
  - destruct (Js.startsWith line "bestmove").
    { run.
      match goal with
      | |- context [drain env h d lines ?a' ?c1] =>
          destruct (drain_state h d lines a' c1)
            as (c' & -> & Hthis & Hs & Hi & _ & Hp)
      end.
      eexists _, c', _. split; [reflexivity|]. unfold posts in *. cbn in *.
      split_and!; try done. apply Forall_replicate. reflexivity. }
    destruct (Js.startsWith line "info"); [|apply IH].
    destruct (Js.geb _ d); [|apply IH].
    run.
    match goal with
    | |- context [drain env h d lines ?a' ?c1] =>
        destruct (drain_state h d lines a' c1)
          as (c' & -> & Hthis & Hs & Hi & _ & Hp)
    end.
    eexists _, c', ((h, Stop) :: replicate _ (h, Stop)).
    split; [reflexivity|]. unfold posts in *. cbn in *.
    split_and!; try done.
    + by rewrite Hp, <- app_assoc.
    + constructor; [done|]. apply Forall_replicate. reflexivity.
Qed.

(** Without a "bestmove" line, [listen] resolves with the accumulator of the
    lines up to the one that settles it and reads the clock then; these are
    all the lines unless the last of them reported the depth asked for. *)
Lemma listen_snapshot h d t0 lines a c :
  Forall (fun line => Js.startsWith line "bestmove" = false) lines ->
  exists consumed rest,
    lines = consumed ++ rest /\
    (listen env h d t0 lines a c).1
    = Ok (snapshot (fold_left progress consumed a)
                   (dateNow env (clockReads (world c)) - t0)) /\
    (rest = [] \/
     Js.geb (accDepthReached (fold_left progress consumed a)) d = true).
Proof.
  intros Hno. revert a. induction Hno as [|line lines Hline _ IH]; intros a.
  - exists [], []. cbn [listen]. run. auto.
  - cbn [listen]. rewrite Hline.
    destruct (Js.startsWith line "info") eqn:Einfo.
    + destruct (Js.geb (accDepthReached (onInfo line a)) d) eqn:Edeep.
      * exists [line], lines. run.
        match goal with
        | |- context [drain env h d lines ?a' ?c1] =>
            destruct (drain_state h d lines a' c1) as (c' & -> & _)
        end.
        cbn [fold_left fst]. unfold progress. rewrite Einfo. auto.
      * destruct (IH (onInfo line a)) as (consumed & rest & -> & Hres & Hrest).
        exists (line :: consumed), rest. cbn [fold_left]. unfold progress at 2 4.
        rewrite Einfo. auto.
    + destruct (IH a) as (consumed & rest & -> & Hres & Hrest).
      exists (line :: consumed), rest. cbn [fold_left]. unfold progress at 2 4.
      rewrite Einfo. auto.
Qed.

(** When moreover no "info" line reports the depth asked for, the timer
    fires: every line is consumed. *)
Lemma listen_timeout h d t0 lines a c :
  Forall (fun line => Js.startsWith line "bestmove" = false) lines ->
  (forall k line, lines !! k = Some line -> Js.startsWith line "info" = true ->
     Js.geb (accDepthReached (fold_left progress (take (S k) lines) a)) d = false) ->
  (listen env h d t0 lines a c).1
  = Ok (snapshot (fold_left progress lines a)
                 (dateNow env (clockReads (world c)) - t0)).
Proof.
  intros Hno. revert a. induction Hno as [|line lines Hline _ IH]; intros a Hdeep.
  - cbn [listen]. run. reflexivity.
  - cbn [listen fold_left]. rewrite Hline.
    assert (Htail : forall k line', lines !! k = Some line' ->
              Js.startsWith line' "info" = true ->
              Js.geb (accDepthReached
                        (fold_left progress (take (S k) lines) (progress a line))) d
              = false).
    { intros k line' Hk Hi. exact (Hdeep (S k) line' Hk Hi). }
    destruct (Js.startsWith line "info") eqn:Einfo.
    + specialize (Hdeep 0%nat line eq_refl Einfo).
      rewrite firstn_cons, take_0 in Hdeep. cbn [fold_left] in Hdeep.
      unfold progress in Hdeep. rewrite Einfo in Hdeep. rewrite Hdeep.
      rewrite <- (IH (progress a line) Htail). unfold progress. by rewrite Einfo.
    + rewrite <- (IH (progress a line) Htail). unfold progress. by rewrite Einfo.
Qed.

End SearchFacts.

(** The entries of a log are lines of a search. *)
Ltac search_commands :=
  repeat (apply List.Forall_cons; [apply list_elem_of_In; cbn; tauto|]);
  apply List.Forall_nil.

Lemma stops_are_search_commands (h : nat) (fen : string) (d : number)
    (new : list (nat * command)) :
  Forall (fun e => e = (h, Stop)) new ->
  Forall (fun e => e.2 ∈ searchCommands fen d) new.
Proof.
  intros Hnew. eapply Forall_impl; [exact Hnew|]. intros e ->.
  apply list_elem_of_In. cbn. tauto.
Qed.

Section AnalyzePositionFacts.
Context (env : Env) {chessjs : ChessJs}.

Implicit Types (c : Client) (a : Accum) (lines : list string).

(** With an engine instance at hand, [analyzePosition] reaches [listen]: it
    has read the clock once, taken the lines of the next search and posted
    lines of that search only.  A client that is ready posts the position and
    the depth, and keeps its fields. *)
Lemma analyzePosition_listens fen d t c h :
  engine (this c) = Some h ->
  exists h' c1 new,
    analyzePosition env fen d t c
    = listen env h' d (dateNow env (clockReads (world c)))
        (engineOutput env (searches (world c))) accum0 c1 /\
    engine (this c1) = Some h' /\
    clockReads (world c1) = S (clockReads (world c)) /\
    searches (world c1) = S (searches (world c)) /\
    posts c c1 new /\
    Forall (fun e => e.2 ∈ searchCommands fen d) new /\
    (isReady (this c) = true ->
       this c1 = this c /\ new = [(h, PositionFen fen); (h, GoDepth d)]) /\
    (isReady (this c) = false -> inits (world c1) = S (inits (world c))).
Proof.
  intros Hh. unfold analyzePosition. run.
  destruct (isReady (this c)) eqn:Er.
  - run. rewrite Hh. run.
    eexists h, _, [(h, PositionFen fen); (h, GoDepth d)].
    split; [reflexivity|]. unfold posts. cbn. rewrite <- !app_assoc.
    split_and!; try done. search_commands.
  - unfold initialize. run.
    destruct (stockfishLoads env (inits (world c))) eqn:El; run.
    + set (k := inits (world c)).
      eexists k, _,
        [(k, Uci); (k, SetOption "Threads" "4"); (k, SetOption "Hash" "256");
         (k, SetOption "Ponder" "false"); (k, UciNewGame);
         (k, PositionFen fen); (k, GoDepth d)].
      split; [reflexivity|]. unfold posts. cbn. rewrite <- !app_assoc.
      split_and!; try done. search_commands.
    + rewrite Hh. run.
      eexists h, _, [(h, PositionFen fen); (h, GoDepth d)].
      split; [reflexivity|]. unfold posts. cbn. rewrite <- !app_assoc.
      split_and!; try done. search_commands.
Qed.

(** A client that holds an engine instance gets a result from every search,
    and still holds an instance afterwards. *)
Lemma analyzePosition_returns fen d t c h :
  engine (this c) = Some h ->
  exists r c' h' new,
    analyzePosition env fen d t c = (Ok r, c') /\
    engine (this c') = Some h' /\
    searches (world c') = S (searches (world c)) /\
    posts c c' new /\
    Forall (fun e => e.2 ∈ searchCommands fen d) new /\
    (isReady (this c) = true -> this c' = this c).
Proof.
  intros Hh.
  destruct (analyzePosition_listens fen d t c h Hh)
    as (h' & c1 & new1 & -> & Hh' & _ & Hs & Hp1 & Hall & Hready & _).
  destruct (listen_resolves env h' d (dateNow env (clockReads (world c)))
              (engineOutput env (searches (world c))) accum0 c1)
    as (r & c' & new2 & -> & Hthis & Hs' & _ & Hp2 & Hnew2).
  exists r, c', h', (new1 ++ new2). repeat split.
  - by rewrite Hthis.
  - by rewrite Hs'.
  - by eapply posts_trans.
  - apply Forall_app. split; [done|].
    by eapply stops_are_search_commands.
  - intros Er. rewrite Hthis. by apply Hready.
Qed.

(** Without an instance and without a constructor to build one, the search
    is rejected, and nothing is posted. *)
Lemma analyzePosition_rejects fen d t c :
  engine (this c) = None ->
  (isReady (this c) = false -> stockfishLoads env (inits (world c)) = false) ->
  exists e c',
    analyzePosition env fen d t c = (Throw e, c') /\
    engine (this c') = None /\
    searches (world c') = searches (world c) /\
    posts c c' [].
Proof.
  intros Hh Hl. unfold analyzePosition. run.
  destruct (isReady (this c)) eqn:Er.
  - run. rewrite Hh. run. eexists _, _. split; [reflexivity|].
    cbn. unfold posts. cbn. by rewrite app_nil_r.
  - unfold initialize. run. rewrite (Hl eq_refl). run. rewrite Hh. run.
    eexists _, _. split; [reflexivity|].
    cbn. unfold posts. cbn. by rewrite app_nil_r.
Qed.

End AnalyzePositionFacts.

(** C6.  A search on a client that holds an engine instance, during which no
    "bestmove" line arrives, returns normally: its result is the accumulator
    of the progress lines consumed (best move still empty, evaluation, depth,
    nodes, principal variation as last updated).  The lines consumed are all
    the lines delivered before the timer fires, unless an "info" line
    reported the depth asked for, which ends the search at that line. *)
Theorem search_without_bestmove (env : Env) (fen : string) (d t : number)
    (c : Client) (h : nat) :
  engine (this c) = Some h ->
  Forall (fun line => Js.startsWith line "bestmove" = false)
         (engineOutput env (searches (world c))) ->
  let lines := engineOutput env (searches (world c)) in
  let elapsed :=
    (dateNow env (S (clockReads (world c))) - dateNow env (clockReads (world c)))%Z in
  (exists consumed rest,
     lines = consumed ++ rest /\
     (analyzePosition env fen d t c).1 = Ok (snapshot (accumulate consumed) elapsed) /\
     (rest = [] \/ Js.geb (accDepthReached (accumulate consumed)) d = true)) /\
  ((forall k line, lines !! k = Some line -> Js.startsWith line "info" = true ->
      Js.geb (accDepthReached (accumulate (take (S k) lines))) d = false) ->
   (analyzePosition env fen d t c).1 = Ok (snapshot (accumulate lines) elapsed)).
Proof.
  intros Hh Hno lines elapsed.
  destruct (analyzePosition_listens env fen d t c h Hh)
    as (h' & c1 & new & -> & _ & Hclock & _).
  subst elapsed. rewrite <- Hclock. split.
  - exact (listen_snapshot env h' d _ lines accum0 c1 Hno).
  - intros Hdeep. exact (listen_timeout env h' d _ lines accum0 c1 Hno Hdeep).
Qed.

Lemma search_without_bestmove_witness :
  (analyzePosition (Example.engineUp Example.slowSearch)
     PawnChess.startFen (Num 20) (Num 1000) Example.ready).1
  = Ok {| bestMove := Some EmptyString; evaluation := Num (inject_Z 31 / 100);
          depth := Num 6; nodes := Num 300; time := 1000;
          pv := ["d2d4"; "d7d5"]; mate := None |}.
Proof.
  refine (proj2 (search_without_bestmove (Example.engineUp Example.slowSearch)
                   PawnChess.startFen (Num 20) (Num 1000) Example.ready 0 _ _) _).
  - reflexivity.
  - repeat constructor.
  - intros [|[|k]] line Hk Hinfo; vm_compute in Hk; [| |discriminate];
      injection Hk as <-; reflexivity.
Defined.

(* --------------------------------------------------------------------- *)
(** *** The analysis of a game *)
(* --------------------------------------------------------------------- *)

Section AnalyzeGameFacts.
Context (env : Env) {chessjs : ChessJs}.

Implicit Types (c : Client) (history : list Move) (chess : position).

Lemma positionsBefore_cons chess mv history ps :
  positionsBefore chess (mv :: history) = Some ps ->
  exists chess' ps',
    chess_move chess (san mv) = Some chess' /\
    positionsBefore chess' history = Some ps' /\ ps = chess :: ps'.
Proof.
  cbn [positionsBefore]. intros Hps.
  destruct (chess_move chess (san mv)) as [chess'|] eqn:Em; [|discriminate].
  cbn in Hps.
  destruct (positionsBefore chess' history) as [ps'|] eqn:Ep; [|discriminate].
  cbn in Hps. injection Hps as <-. by exists chess', ps'.
Qed.

Lemma positionsBefore_length chess history ps :
  positionsBefore chess history = Some ps -> length ps = length history.
Proof.
  revert chess ps. induction history as [|mv history IH]; intros chess ps Hps.
  - by injection Hps as <-.
  - apply positionsBefore_cons in Hps as (chess' & ps' & _ & Hps' & ->).
    cbn. f_equal. by eapply IH.
Qed.

Lemma pliesOfGame_length ps history :
  length ps = length history -> length (pliesOfGame ps history) = length history.
Proof.
  intros Hlen. unfold pliesOfGame.
  rewrite length_zip_with, !length_map. lia.
Qed.

Lemma pliesOf_snoc (l : list PositionAnalysis) (pa : PositionAnalysis) :
  pliesOf (l ++ [pa]) = pliesOf l ++ [(fen pa, move pa)].
Proof. unfold pliesOf. by rewrite map_app. Qed.

(** Read pointwise: the record of index [i] holds the position before ply
    [i] and the move played at ply [i]. *)
Lemma plies_pointwise (analyses : list PositionAnalysis) ps history :
  pliesOf analyses = pliesOfGame ps history ->
  forall (i : nat) (pa : PositionAnalysis),
    analyses !! i = Some pa ->
    exists pos mv,
      ps !! i = Some pos /\ history !! i = Some mv /\
      fen pa = chess_fen pos /\ move pa = san mv.
Proof.
  unfold pliesOf, pliesOfGame.
  revert ps history. induction analyses as [|pa0 analyses IH];
    intros ps history Heq i pa Hi; [by rewrite lookup_nil in Hi|].
  destruct ps as [|pos ps]; [discriminate|].
  destruct history as [|mv history]; [discriminate|].
  cbn in Heq. injection Heq as Hfen Hmove Hrest.
  destruct i as [|i].
  - cbn in Hi. injection Hi as <-. by exists pos, mv.
  - cbn in Hi. cbn [lookup list_lookup]. by eapply IH.
Qed.

(** Whenever the loop of [analyzeGame] returns, it has added one record for
    each remaining ply, in order: the position before the ply and the move. *)
Lemma analyzeGameFrom_records history i chess acc c ps out c' :
  positionsBefore chess history = Some ps ->
  analyzeGameFrom env history i chess acc c = (Ok out, c') ->
  pliesOf out = pliesOf acc ++ pliesOfGame ps history.
Proof.
  revert i chess acc c ps. induction history as [|mv history IH];
    intros i chess acc c ps Hps Hrun.
  - injection Hps as <-. cbn in Hrun. injection Hrun as <- _.
    unfold pliesOfGame. cbn. by rewrite app_nil_r.
  - apply positionsBefore_cons in Hps as (chess' & ps' & Hmove & Hps' & ->).
    cbn [analyzeGameFrom] in Hrun. unfold mbind, M_bind in Hrun.
    destruct (analyzePosition env (chess_fen chess) (Num 18) (Num 8000) c)
      as [[r|e] c1]; [|discriminate].
    rewrite Hmove in Hrun.
    rewrite (IH _ _ _ _ _ Hps' Hrun), pliesOf_snoc, <- app_assoc.
    reflexivity.
Qed.

(** With an engine instance at hand the loop does return. *)
Lemma analyzeGameFrom_returns history i chess acc c ps h :
  positionsBefore chess history = Some ps ->
  engine (this c) = Some h ->
  exists out c', analyzeGameFrom env history i chess acc c = (Ok out, c').
Proof.
  revert i chess acc c ps h. induction history as [|mv history IH];
    intros i chess acc c ps h Hps Hh.
  - cbn. eauto.
  - apply positionsBefore_cons in Hps as (chess' & ps' & Hmove & Hps' & ->).
    cbn [analyzeGameFrom]. unfold mbind, M_bind.
    destruct (analyzePosition_returns env (chess_fen chess) (Num 18) (Num 8000) c h Hh)
      as (r & c1 & h1 & new & -> & Hh1 & _).
    rewrite Hmove. by eapply IH.
Qed.

(** The loop of the fallback report writes the same records. *)
Lemma fallbackMovesFrom_records history chess acc ps :
  positionsBefore chess history = Some ps ->
  exists out,
    GeminiChessAI.fallbackMovesFrom history chess acc = Ok out /\
    pliesOf out = pliesOf acc ++ pliesOfGame ps history.
Proof.
  revert chess acc ps. induction history as [|mv history IH]; intros chess acc ps Hps.
  - injection Hps as <-. exists acc. unfold pliesOfGame. cbn. by rewrite app_nil_r.
  - apply positionsBefore_cons in Hps as (chess' & ps' & Hmove & Hps' & ->).
    cbn [GeminiChessAI.fallbackMovesFrom]. rewrite Hmove.
    destruct (IH chess' (acc ++ [{| fen := chess_fen chess; move := san mv;
                analysis := [{| bestMove := Some (san mv); evaluation := Num 0;
                                depth := Num 1; nodes := Num 1; time := 0;
                                pv := [san mv]; mate := None |}];
                flags := noFlag |}]) ps' Hps') as (out & -> & Hout).
    exists out. split; [reflexivity|].
    by rewrite Hout, pliesOf_snoc, <- app_assoc.
Qed.

(** A record that does not replay makes the loop of [analyzeGame] throw. *)
Lemma analyzeGameFrom_unreplayable history (i : nat) chess acc c :
  positionsBefore chess history = None ->
  exists e c', analyzeGameFrom env history i chess acc c = (Throw e, c').
Proof.
  revert i chess acc c. induction history as [|mv history IH];
    intros i chess acc c Hps; [discriminate|].
  cbn [analyzeGameFrom]. unfold mbind, M_bind.
  destruct (analyzePosition env (chess_fen chess) (Num 18) (Num 8000) c)
    as [[r|e] c1]; [|by eexists _, _].
  cbn [positionsBefore] in Hps.
  destruct (chess_move chess (san mv)) as [chess'|]; [|by eexists _, _].
  apply IH. cbn in Hps. by destruct (positionsBefore chess' history).
Qed.

(** It makes the loop of the fallback report throw at the first move that
    cannot be played. *)
Lemma fallbackMovesFrom_unreplayable history chess acc :
  positionsBefore chess history = None ->
  exists mv,
    mv ∈ history /\
    GeminiChessAI.fallbackMovesFrom history chess acc = Throw (InvalidMove (san mv)).
Proof.
  revert chess acc. induction history as [|mv history IH];
    intros chess acc Hps; [discriminate|].
  cbn [GeminiChessAI.fallbackMovesFrom]. cbn [positionsBefore] in Hps.
  destruct (chess_move chess (san mv)) as [chess'|].
  - destruct (IH chess' (acc ++ [{| fen := chess_fen chess; move := san mv;
                analysis := [{| bestMove := Some (san mv); evaluation := Num 0;
                                depth := Num 1; nodes := Num 1; time := 0;
                                pv := [san mv]; mate := None |}];
                flags := noFlag |}])) as (mv' & Hin & Hrun).
    { cbn in Hps. by destruct (positionsBefore chess' history). }
    exists mv'. split; [by apply list_elem_of_further | exact Hrun].
  - exists mv. split; [apply list_elem_of_here | done].
Qed.

End AnalyzeGameFacts.

(* --------------------------------------------------------------------- *)
(** *** The registry of engines *)
(* --------------------------------------------------------------------- *)

Section PoolFacts.
Context (env : Env) {chessjs : ChessJs}.

(** [initialize] does not throw. *)
Lemma initialize_returns (c : Client) :
  exists c', initialize env c = (Ok tt, c').
Proof.
  unfold initialize. run.
  destruct (stockfishLoads env (inits (world c))); run; [by eexists|].
  destruct (engine (this c)); by eexists.
Qed.

(** Without a constructor, [initialize] only marks the object not ready. *)
Lemma initialize_fails (c : Client) :
  stockfishLoads env (inits (world c)) = false ->
  exists c',
    initialize env c = (Ok tt, c') /\
    engine (this c') = engine (this c) /\ isReady (this c') = false /\
    inits (world c') = S (inits (world c)).
Proof.
  intros Hl. unfold initialize. run. rewrite Hl. run.
  destruct (engine (this c)); by eexists.
Qed.

(** After [getEngine] an object is registered under the version. *)
Lemma getEngine_registers (ver : string) (pool : Pool) :
  exists pool' e,
    MultiVersionStockfish.getEngine env ver pool = (Ok tt, pool') /\
    engines pool' !! ver = Some e.
Proof.
  unfold MultiVersionStockfish.getEngine.
  destruct (engines pool !! ver) as [e|] eqn:E; [by exists pool, e|].
  destruct (initialize_returns {| this := newStockfishEngine ver; world := poolWorld pool |})
    as [c' ->].
  eexists _, (this c'). split; [reflexivity|]. cbn. apply lookup_insert_eq.
Qed.

End PoolFacts.

(** C2, as the code has it.  [analyzeGame] replays every record from the
    standard initial position.  For a game whose record parses and whose
    moves replay from that position, [analyzeGame] on a client that holds an
    engine instance returns one record per ply, in order: the position before
    the ply and the move played; so does the report of
    [GeminiChessAI.analyzeGame], whether it comes from the engine or from the
    fallback.  For a record that parses but does not replay from the initial
    position, both calls throw.  For a record that has a move, on a client
    without instance and without a constructor to build one, [analyzeGame]
    throws at the first search, before anything is posted. *)
Theorem analyzeGame_one_per_ply (env : Env) {chessjs : ChessJs} (pgn : string)
    (history : list Move) (final : position) :
  chess_loadPgn pgn = Some (history, final) ->
  (forall positions : list position,
     positionsBefore chess_initial history = Some positions ->
     (forall (c : Client) (h : nat), engine (this c) = Some h ->
        exists analyses c',
          analyzeGame env pgn c = (Ok analyses, c') /\
          length analyses = length history /\
          pliesOf analyses = pliesOfGame positions history /\
          (forall (i : nat) (pa : PositionAnalysis),
             analyses !! i = Some pa ->
             exists pos mv,
               positions !! i = Some pos /\ history !! i = Some mv /\
               fen pa = chess_fen pos /\ move pa = san mv)) /\
     (forall (ver : string) (pool : Pool),
        exists report pool',
          GeminiChessAI.analyzeGame env pgn ver pool = (Ok report, pool') /\
          length (GameAnalysis.moves report) = length history /\
          pliesOf (GameAnalysis.moves report) = pliesOfGame positions history)) /\
  (positionsBefore chess_initial history = None ->
   (forall c : Client, exists e c', analyzeGame env pgn c = (Throw e, c')) /\
   (forall (ver : string) (pool : Pool),
      exists mv pool',
        mv ∈ history /\
        GeminiChessAI.analyzeGame env pgn ver pool
        = (Throw (InvalidMove (san mv)), pool'))) /\
  (history <> [] ->
   forall c : Client,
     engine (this c) = None ->
     (isReady (this c) = false -> stockfishLoads env (inits (world c)) = false) ->
     exists e c', analyzeGame env pgn c = (Throw e, c') /\ posts c c' []).
Proof.
  intros Hpgn. split_and!.
  - intros positions Hps.
    assert (Hlen : forall l : list PositionAnalysis,
              pliesOf l = pliesOfGame positions history -> length l = length history).
    { intros l Hl. apply (f_equal length) in Hl.
      rewrite pliesOfGame_length in Hl by (by eapply positionsBefore_length).
      unfold pliesOf in Hl. by rewrite length_map in Hl. }
    split.
    + intros c h Hh. unfold analyzeGame. rewrite Hpgn.
      destruct (analyzeGameFrom_returns env history 0 chess_initial [] c positions h
                  Hps Hh) as (out & c' & Hrun).
      pose proof (analyzeGameFrom_records env _ _ _ _ _ _ _ _ Hps Hrun) as Hout.
      exists out, c'. split_and!; [done | by apply Hlen | done |].
      by apply plies_pointwise.
    + intros ver pool.
      unfold GeminiChessAI.analyzeGame, try_catch, mbind, M_bind.
      destruct (getEngine_registers env ver pool) as (pool1 & e & -> & He).
      unfold onEngine. rewrite He.
      destruct (analyzeGame env pgn {| this := e; world := poolWorld pool1 |})
        as [[out|err] c'] eqn:Hrun.
      * rewrite Hpgn. unfold mret, M_ret. eexists _, _. split; [reflexivity|].
        cbn [GameAnalysis.moves]. unfold analyzeGame in Hrun. rewrite Hpgn in Hrun.
        pose proof (analyzeGameFrom_records env _ _ _ _ _ _ _ _ Hps Hrun) as Hout.
        split; [by apply Hlen | done].
      * unfold GeminiChessAI.generateFallbackGameAnalysis. rewrite Hpgn.
        destruct (fallbackMovesFrom_records history chess_initial []
                    positions Hps) as (out & -> & Hout).
        unfold mret, M_ret. eexists _, _. split; [reflexivity|].
        cbn [GameAnalysis.moves]. split; [by apply Hlen | done].
  - intros Hps. split.
    + intros c. unfold analyzeGame. rewrite Hpgn.
      by apply analyzeGameFrom_unreplayable.
    + intros ver pool.
      unfold GeminiChessAI.analyzeGame, try_catch, mbind, M_bind.
      destruct (getEngine_registers env ver pool) as (pool1 & e & -> & He).
      unfold onEngine. rewrite He. unfold analyzeGame. rewrite Hpgn.
      destruct (analyzeGameFrom_unreplayable env history 0 chess_initial []
                  {| this := e; world := poolWorld pool1 |} Hps) as (err & c' & ->).
      unfold GeminiChessAI.generateFallbackGameAnalysis. rewrite Hpgn.
      destruct (fallbackMovesFrom_unreplayable history chess_initial [] Hps)
        as (mv & Hin & ->).
      by eexists mv, _.
  - intros Hne c Hh Hl. unfold analyzeGame. rewrite Hpgn.
    destruct history as [|mv history]; [done|].
    cbn [analyzeGameFrom]. unfold mbind, M_bind.
    destruct (analyzePosition_rejects env (chess_fen chess_initial) (Num 18) (Num 8000)
                c Hh Hl) as (err & c' & -> & _ & _ & Hp).
    by exists err, c'.
Qed.

Lemma analyzeGame_one_per_ply_witness :
  exists analyses c',
    analyzeGame (chessjs := PawnChess.chess)
      (Example.engineUp Example.quickSearch) "1. e4 e5 2. d4" Example.ready
    = (Ok analyses, c') /\
    length analyses = 3%nat /\
    pliesOf analyses
    = [("rnbqkbnr/pppppppp/8/8/8/8/PPPPPPPP/RNBQKBNR w KQkq - 0 1", "e4");
       ("rnbqkbnr/pppppppp/8/8/4P3/8/PPPP1PPP/RNBQKBNR b KQkq - 0 1", "e5");
       ("rnbqkbnr/pppp1ppp/8/4p3/4P3/8/PPPP1PPP/RNBQKBNR w KQkq - 0 2", "d4")].
Proof.
  destruct (PawnChess.loadPgn "1. e4 e5 2. d4") as [[history final]|] eqn:Hpgn;
    [|vm_compute in Hpgn; discriminate].
  destruct (positionsBefore (chessjs := PawnChess.chess) PawnChess.initial history)
    as [positions|] eqn:Hps;
    [|vm_compute in Hpgn; injection Hpgn as <- <-; vm_compute in Hps; discriminate].
  destruct (analyzeGame_one_per_ply (chessjs := PawnChess.chess)
              (Example.engineUp Example.quickSearch)
              "1. e4 e5 2. d4" history final Hpgn) as [Hreplays _].
  destruct (Hreplays positions Hps) as [Hengine _].
  destruct (Hengine Example.ready 0%nat eq_refl)
    as (analyses & c' & Hrun & Hlen & Hplies & _).
  exists analyses, c'. split; [exact Hrun|].
  vm_compute in Hpgn. injection Hpgn as <- <-.
  vm_compute in Hps. injection Hps as <-.
  split; [exact Hlen | exact Hplies].
Defined.

(** C2, as the claim states it, fails.  The record "e5" of a game that
    starts from the position after 1. e4 parses and has one ply, and
    [analyzeGame], which replays it from the standard initial position,
    throws at that move instead of returning one record.  And the record
    "1. e4 e5" parses and has two plies, and [analyzeGame] on a client for
    which no engine can be had throws instead of returning two records. *)
Lemma parsed_record_without_analyses :
  length <$> (fst <$> chess_loadPgn (ChessJs := SetUpChess.chess) "e5") = Some 1%nat /\
  (analyzeGame (chessjs := SetUpChess.chess) (Example.engineUp Example.quickSearch)
     "e5" Example.ready).1
  = Throw (InvalidMove "e5") /\
  length <$> (fst <$> chess_loadPgn (ChessJs := PawnChess.chess) "1. e4 e5")
  = Some 2%nat /\
  (analyzeGame (chessjs := PawnChess.chess) Example.engineDown "1. e4 e5"
     Example.fresh).1
  = Throw (TypeError "Cannot set properties of undefined (setting 'onmessage')").
Proof. split_and!; vm_compute; reflexivity. Qed.

(** C3, as the code has it.  When the record does not parse,
    [StockfishEngine.analyzeGame] catches the failure and returns the empty
    list, leaving the client as it was: no error reaches its caller.  The
    caller, [GeminiChessAI.analyzeGame], parses the record again, fails, and
    returns the empty report from its own fallback. *)
Theorem analyzeGame_malformed_record (env : Env) {chessjs : ChessJs} (pgn : string) :
  chess_loadPgn pgn = None ->
  (forall c : Client, analyzeGame env pgn c = (Ok [], c)) /\
  (forall (ver : string) (pool : Pool),
     exists pool',
       GeminiChessAI.analyzeGame env pgn ver pool
       = (Ok GeminiChessAI.generateEmptyGameAnalysis, pool')).
Proof.
  intros Hpgn. split.
  - intros c. unfold analyzeGame. by rewrite Hpgn.
  - intros ver pool.
    unfold GeminiChessAI.analyzeGame, try_catch, mbind, M_bind.
    destruct (getEngine_registers env ver pool) as (pool1 & e & -> & He).
    unfold onEngine. rewrite He. unfold analyzeGame. rewrite Hpgn.
    cbn. unfold GeminiChessAI.generateFallbackGameAnalysis. rewrite Hpgn.
    by eexists.
Qed.

Lemma analyzeGame_malformed_record_witness :
  analyzeGame (chessjs := PawnChess.chess)
    (Example.engineUp Example.quickSearch) "1. e5" Example.ready
  = (Ok [], Example.ready).
Proof.
  apply (@analyzeGame_malformed_record (Example.engineUp Example.quickSearch)
           PawnChess.chess "1. e5").
  vm_compute. reflexivity.
Defined.

(** C3, as the claim states it, fails: the record "1. e5" does not parse
    (no pawn can reach e5 on the first move), and [analyzeGame] returns
    normally instead of throwing. *)
Lemma malformed_record_is_swallowed :
  chess_loadPgn (ChessJs := PawnChess.chess) "1. e5" = None /\
  ~ (exists e c',
       analyzeGame (chessjs := PawnChess.chess)
         (Example.engineUp Example.quickSearch) "1. e5" Example.ready
       = (Throw e, c')).
Proof.
  split; [vm_compute; reflexivity|].
  intros (e & c' & Hrun). vm_compute in Hrun. discriminate.
Qed.

(* --------------------------------------------------------------------- *)
(** *** Termination of a client *)
(* --------------------------------------------------------------------- *)

(** C5, as the code has it.  [terminate] never throws, and called again it
    changes no field; without an engine instance it does nothing.  On a client
    that holds an instance it posts "quit" and marks the client not ready.  A
    search after that does not fail: the client being not ready,
    [analyzePosition] runs [initialize] again and returns a result. *)
Theorem terminate_then_search (env : Env) (c : Client) :
  (terminate c).1 = Ok tt /\
  this (terminate (terminate c).2).2 = this (terminate c).2 /\
  (engine (this c) = None -> terminate c = (Ok tt, c)) /\
  (forall h : nat, engine (this c) = Some h ->
     let c1 := (terminate c).2 in
     isReady (this c1) = false /\
     posts c c1 [(h, Quit)] /\
     (forall (fen : string) (d t : number),
        exists r c2,
          analyzePosition env fen d t c1 = (Ok r, c2) /\
          inits (world c2) = S (inits (world c1)))).
Proof.
  destruct (engine (this c)) as [h|] eqn:Hh.
  - assert (Hc1 : (terminate c).2
             = {| this := {| engine := Some h; version := version (this c);
                             isReady := false |};
                  world := {| posted := posted (world c) ++ [(h, Quit)];
                              inits := inits (world c);
                              searches := searches (world c);
                              clockReads := clockReads (world c);
                              randomReads := randomReads (world c) |} |}).
    { unfold terminate. run. rewrite Hh. run. by rewrite Hh. }
    split_and!.
    + unfold terminate. run. by rewrite Hh.
    + by rewrite Hc1.
    + discriminate.
    + intros h' [= <-] c1. subst c1. rewrite Hc1. split_and!; [done..|].
      intros fen d t. rewrite <- Hc1.
      assert (Hh1 : engine (this (terminate c).2) = Some h) by (by rewrite Hc1).
      assert (Hr1 : isReady (this (terminate c).2) = false) by (by rewrite Hc1).
      destruct (analyzePosition_listens env fen d t _ h Hh1)
        as (h' & c2 & new & -> & _ & _ & _ & _ & _ & _ & Hinits).
      destruct (listen_resolves env h' d
                  (dateNow env (clockReads (world (terminate c).2)))
                  (engineOutput env (searches (world (terminate c).2))) accum0 c2)
        as (r & c3 & new' & -> & _ & _ & Hinits' & _).
      exists r, c3. split; [reflexivity|]. rewrite Hinits'. by apply Hinits.
  - assert (Hc : terminate c = (Ok tt, c)).
    { unfold terminate. run. rewrite Hh. by destruct c. }
    rewrite Hc. cbn [fst snd]. rewrite Hc. split_and!; [done..|].
    intros h' Hh'. discriminate.
Qed.

Lemma terminate_then_search_witness :
  exists r c2,
    analyzePosition (Example.engineUp Example.quickSearch) PawnChess.startFen
      (Num 20) (Num 1000) (terminate Example.ready).2
    = (Ok r, c2).
Proof.
  destruct (terminate_then_search (Example.engineUp Example.quickSearch) Example.ready)
    as (_ & _ & _ & Hheld).
  destruct (Hheld 0%nat eq_refl) as (_ & _ & Hsearch).
  destruct (Hsearch PawnChess.startFen (Num 20) (Num 1000)) as (r & c2 & Hrun & _).
  by exists r, c2.
Defined.

(** C5, as the claim states it, fails: a client is initialized and
    terminated, so that it is not ready; the next search returns the best
    move of the engine instead of failing. *)
Lemma search_after_terminate_returns :
  let env := Example.engineUp Example.quickSearch in
  let c1 := (terminate (initialize env Example.fresh).2).2 in
  isReady (this c1) = false /\
  exists r c2,
    analyzePosition env PawnChess.startFen (Num 20) (Num 1000) c1 = (Ok r, c2) /\
    bestMove r = Some "e4".
Proof.
  split; [reflexivity|]. eexists _, _. split; vm_compute; reflexivity.
Qed.

(* --------------------------------------------------------------------- *)
(** *** The analysis of a position without an engine *)
(* --------------------------------------------------------------------- *)

Section FallbackFacts.
Context (env : Env) {chessjs : ChessJs}.

(** [calculateMaterial] sums the values of the pieces of each side. *)
Lemma calculateMaterial_sums (chess : position) :
  GeminiChessAI.calculateMaterial chess
  = (materialOf White (chess_board chess), materialOf Black (chess_board chess)).
Proof.
  unfold GeminiChessAI.calculateMaterial, materialOf.
  set (step := fun '(white, black) (square : option Piece) => _).
  assert (Hrow : forall row wh bl,
            fold_left step row (wh, bl)
            = (wh + foldr Z.add 0 (map (squareValue White) row),
               bl + foldr Z.add 0 (map (squareValue Black) row))).
  { induction row as [|sq row IH]; intros wh bl; cbn [fold_left map foldr].
    - f_equal; lia.
    - destruct sq as [[ty []]|]; cbn; rewrite IH;
        repeat case_bool_decide; try congruence; f_equal;
        unfold GeminiChessAI.materialValues, pieceValue; try destruct ty; lia. }
  assert (Hboard : forall board wh bl,
            fold_left (fun acc row => fold_left step row acc) board (wh, bl)
            = (wh + foldr Z.add 0 (map (squareValue White) (concat board)),
               bl + foldr Z.add 0 (map (squareValue Black) (concat board)))).
  { induction board as [|row board IH]; intros wh bl; cbn [fold_left concat].
    - cbn. f_equal; lia.
    - rewrite Hrow, IH, !map_app, !foldr_app.
      assert (Hsum : forall (l1 l2 : list Z),
                foldr Z.add (foldr Z.add 0 l2) l1
                = foldr Z.add 0 l1 + foldr Z.add 0 l2).
      { induction l1 as [|x l1 IH1]; intros l2; cbn; [lia|]. rewrite IH1. lia. }
      rewrite !Hsum. f_equal; lia. }
  by rewrite Hboard.
Qed.

(** Where no constructor is ever found and no instance is held, [getEngine]
    registers or finds an object without instance. *)
Lemma getEngine_without_engine (ver : string) (pool : Pool) :
  (forall k, stockfishLoads env k = false) ->
  (forall e, engines pool !! ver = Some e -> engine e = None) ->
  exists pool' e,
    MultiVersionStockfish.getEngine env ver pool = (Ok tt, pool') /\
    engines pool' !! ver = Some e /\ engine e = None.
Proof.
  intros Hdown Hnone. unfold MultiVersionStockfish.getEngine.
  destruct (engines pool !! ver) as [e|] eqn:E.
  - exists pool, e. split_and!; [done..|]. by apply Hnone.
  - destruct (initialize_fails env
                {| this := newStockfishEngine ver; world := poolWorld pool |}
                (Hdown _)) as (c' & -> & Hengine & _).
    eexists _, (this c'). split_and!; [reflexivity| |done].
    cbn. apply lookup_insert_eq.
Qed.

(** [generateFallbackAnalysis] on a position. *)
Lemma generateFallbackAnalysis_returns (fen : string) (chess : position) (pool : Pool) :
  chess_load fen = Some chess ->
  exists r pool',
    GeminiChessAI.generateFallbackAnalysis env fen pool = (Ok r, pool') /\
    AIMoveSuggestion.confidence r = Num 0.3 /\
    AIMoveSuggestion.evaluation r
    = Js.ofZ (materialOf White (chess_board chess) - materialOf Black (chess_board chess)).
Proof.
  intros Hload. unfold GeminiChessAI.generateFallbackAnalysis. rewrite Hload.
  rewrite calculateMaterial_sums.
  unfold mbind, M_bind, mret, M_ret, GeminiChessAI.Math_random. cbn.
  eexists _, _. split; [reflexivity|]. by cbn.
Qed.

End FallbackFacts.

(** C4, as the code has it.  Where no Stockfish constructor can be found
    and the registry holds no engine instance for the version,
    [GeminiChessAI.analyzePosition] on a FEN that chess.js accepts returns
    normally, with the result of the fallback: confidence [0.3] and, as
    evaluation, the material of White minus the material of Black (pawn 1,
    knight 3, bishop 3, rook 5, queen 9, king 0); on the board of the
    starting position the evaluation is 0.  On a text that chess.js rejects
    the fallback, which builds the position first, throws the error of
    [new Chess(fen)] to the caller. *)
Theorem analyzePosition_engine_unavailable (env : Env) {chessjs : ChessJs}
    (fen : string) (d : number) (ver : string) (pool : Pool) :
  (forall k, stockfishLoads env k = false) ->
  (forall e, engines pool !! ver = Some e -> engine e = None) ->
  (forall chess : position, chess_load fen = Some chess ->
     exists r pool',
       GeminiChessAI.analyzePosition env fen d ver pool = (Ok r, pool') /\
       AIMoveSuggestion.confidence r = Num 0.3 /\
       AIMoveSuggestion.evaluation r
       = Js.ofZ (materialOf White (chess_board chess)
                 - materialOf Black (chess_board chess)) /\
       (chess_board chess = standardBoard -> AIMoveSuggestion.evaluation r = Num 0)) /\
  (chess_load fen = None ->
   exists pool',
     GeminiChessAI.analyzePosition env fen d ver pool = (Throw (InvalidFen fen), pool')).
Proof.
  intros Hdown Hnone.
  assert (Hfallback : exists pool1,
            GeminiChessAI.analyzePosition env fen d ver pool
            = GeminiChessAI.generateFallbackAnalysis env fen pool1).
  { unfold GeminiChessAI.analyzePosition, try_catch, mbind, M_bind.
    destruct (getEngine_without_engine env ver pool Hdown Hnone)
      as (pool1 & e & -> & He & Hengine).
    unfold onEngine at 1. rewrite He.
    destruct (analyzePosition_rejects env fen d (Num 10000)
                {| this := e; world := poolWorld pool1 |} Hengine (fun _ => Hdown _))
      as (err & c' & -> & _).
    by eexists. }
  destruct Hfallback as [pool1 ->]. split.
  - intros chess Hload.
    destruct (generateFallbackAnalysis_returns env fen chess pool1 Hload)
      as (r & pool' & Hrun & Hconf & Heval).
    exists r, pool'. split_and!; [done..|].
    intros Hboard. rewrite Heval, Hboard. reflexivity.
  - intros Hload. unfold GeminiChessAI.generateFallbackAnalysis. rewrite Hload.
    by eexists.
Qed.

Lemma analyzePosition_engine_unavailable_witness :
  exists r pool',
    GeminiChessAI.analyzePosition (chessjs := PawnChess.chess) Example.engineDown
      PawnChess.startFen (Num 1) "17" pool0 = (Ok r, pool') /\
    AIMoveSuggestion.confidence r = Num 0.3 /\
    AIMoveSuggestion.evaluation r = Num 0.
Proof.
  destruct (PawnChess.load PawnChess.startFen) as [chess|] eqn:Hload;
    [|vm_compute in Hload; discriminate].
  destruct (@analyzePosition_engine_unavailable Example.engineDown PawnChess.chess
              PawnChess.startFen (Num 1) "17" pool0) as [Hvalid _].
  - reflexivity.
  - intros e He. vm_compute in He. discriminate.
  - destruct (Hvalid chess Hload) as (r & pool' & Hrun & Hconf & _ & Hstart).
    exists r, pool'. split; [exact Hrun|]. split; [exact Hconf|].
    apply Hstart. vm_compute in Hload. injection Hload as <-. reflexivity.
Defined.

(** C4, as the claim states it, fails: with no engine to be had, the
    request for the position with which the page of the board starts, a text
    of seven ranks that chess.js rejects, raises the error of
    [new Chess(fen)] to the caller instead of returning a fallback result. *)
Lemma fallback_raises_on_rejected_fen :
  (forall k, stockfishLoads Example.engineDown k = false) /\
  chess_load (ChessJs := PawnChess.chess) Example.pageFen = None /\
  (GeminiChessAI.analyzePosition (chessjs := PawnChess.chess) Example.engineDown
     Example.pageFen (Num 20) "17" pool0).1
  = Throw (InvalidFen Example.pageFen).
Proof. split_and!; [done | vm_compute; reflexivity..]. Qed.

(** A text that is not a FEN is reported by the constructor of [Chess], and
    the fallback, which builds the position first, lets the error through. *)
Lemma analyzePosition_invalid_fen (env : Env) {chessjs : ChessJs}
    (fen : string) (d : number) (ver : string) (pool : Pool) :
  (forall k, stockfishLoads env k = false) ->
  (forall e, engines pool !! ver = Some e -> engine e = None) ->
  chess_load fen = None ->
  exists pool',
    GeminiChessAI.analyzePosition env fen d ver pool = (Throw (InvalidFen fen), pool').
Proof.
  intros Hdown Hnone Hload.
  unfold GeminiChessAI.analyzePosition, try_catch, mbind, M_bind.
  destruct (getEngine_without_engine env ver pool Hdown Hnone)
    as (pool1 & e & -> & He & Hengine).
  unfold onEngine at 1. rewrite He.
  destruct (analyzePosition_rejects env fen d (Num 10000)
              {| this := e; world := poolWorld pool1 |} Hengine (fun _ => Hdown _))
    as (err & c' & -> & _).
  unfold GeminiChessAI.generateFallbackAnalysis. rewrite Hload. by eexists.
Qed.

(* --------------------------------------------------------------------- *)
(** *** Confidence and accuracy *)
(* --------------------------------------------------------------------- *)

(** C8.  With fewer than two candidate results the confidence is exactly 1.
    With two or more, and evaluations that are numbers, it is
    [min(1, |evaluation(best) - evaluation(second)| / 2)], which lies between
    0 and 1. *)
Theorem calculateConfidence_range (best : AnalysisResult)
    (topMoves : list AnalysisResult) :
  ((length topMoves < 2)%nat ->
     GeminiChessAI.calculateConfidence best topMoves = Num 1) /\
  (forall (second : AnalysisResult) (x y : Q),
     topMoves !! 1%nat = Some second ->
     evaluation best = Num x -> evaluation second = Num y ->
     exists cq : Q,
       GeminiChessAI.calculateConfidence best topMoves = Num cq /\
       (cq == Qmin 1 (Qabs (x - y) / 2))%Q /\ (0 <= cq <= 1)%Q).
Proof.
  unfold GeminiChessAI.calculateConfidence. split.
  - intros Hlen. apply Nat.ltb_lt in Hlen. by rewrite Hlen.
  - intros second x y Hsecond Hx Hy.
    assert (Hlen : (length topMoves <? 2)%nat = false).
    { apply Nat.ltb_ge. apply lookup_lt_Some in Hsecond. lia. }
    rewrite Hlen, Hsecond, Hx. cbn [from_option]. rewrite Hy.
    unfold Js.abs, Js.sub, Js.lift2, Js.div, Js.min.
    change (Qeq_bool 2 0) with false. cbv iota.
    pose proof (Qabs_nonneg (x - y)) as Hab.
    set (gap := Qabs (x - y)) in *.
    destruct (Qle_bool 1 (gap / 2)) eqn:E.
    + apply Qle_bool_true in E. exists 1%Q. split; [reflexivity|].
      split; [by rewrite Q.min_l | lra].
    + apply Qle_bool_false in E. exists (gap / 2)%Q. split; [reflexivity|].
      split; [rewrite Q.min_r; [reflexivity | lra] |].
      split; [|lra]. apply Qle_shift_div_l; lra.
Qed.

Lemma calculateConfidence_range_witness :
  exists cq : Q,
    GeminiChessAI.calculateConfidence
      {| bestMove := Some "e2e4"; evaluation := Num 0.35; depth := Num 20;
         nodes := Num 1000; time := 12; pv := ["e2e4"]; mate := None |}
      [ {| bestMove := Some "e2e4"; evaluation := Num 0.35; depth := Num 15;
           nodes := Num 900; time := 10; pv := ["e2e4"]; mate := None |};
        {| bestMove := Some "d2d4"; evaluation := Num 0.10; depth := Num 15;
           nodes := Num 800; time := 9; pv := ["d2d4"]; mate := None |} ]
    = Num cq /\ (cq == 0.125)%Q.
Proof.
  edestruct (proj2 (calculateConfidence_range
               {| bestMove := Some "e2e4"; evaluation := Num 0.35; depth := Num 20;
                  nodes := Num 1000; time := 12; pv := ["e2e4"]; mate := None |}
               [ {| bestMove := Some "e2e4"; evaluation := Num 0.35; depth := Num 15;
                    nodes := Num 900; time := 10; pv := ["e2e4"]; mate := None |};
                 {| bestMove := Some "d2d4"; evaluation := Num 0.10; depth := Num 15;
                    nodes := Num 800; time := 9; pv := ["d2d4"]; mate := None |} ]))
    as (cq & Hcq & Hmin & _); [reflexivity..|].
  exists cq. split; [exact Hcq|]. rewrite Hmin. reflexivity.
Defined.

Section AccuracyFacts.

(** The elements kept by a filter on the parity of the index. *)
Lemma filterIndex_parity {A} (r : nat) (l : list A) (start j : nat) :
  (r < 2)%nat ->
  filterIndex (fun i => (i mod 2 =? r)%nat) start l !! j
  = l !! (2 * j + (if (start mod 2 =? r)%nat then 0 else 1))%nat.
Proof.
  intros Hr. revert start j. induction l as [|x l IH]; intros start j.
  - cbn. by rewrite !lookup_nil.
  - cbn [filterIndex].
    assert (Hs : (start mod 2 < 2)%nat) by (apply Nat.mod_upper_bound; lia).
    assert (Hflip : ((S start) mod 2 = 1 - start mod 2)%nat).
    { replace (S start) with (start + 1)%nat by lia.
      rewrite Nat.Div0.add_mod.
      destruct (start mod 2)%nat as [|[|k]]; [reflexivity | reflexivity | lia]. }
    destruct (start mod 2 =? r)%nat eqn:E.
    + apply Nat.eqb_eq in E. destruct j as [|j]; [reflexivity|].
      cbn [lookup list_lookup]. rewrite IH.
      replace ((S start) mod 2 =? r)%nat with false
        by (symmetry; apply Nat.eqb_neq; lia).
      replace (2 * S j + 0)%nat with (S (2 * j + 1)) by lia. reflexivity.
    + apply Nat.eqb_neq in E. rewrite IH.
      replace ((S start) mod 2 =? r)%nat with true
        by (symmetry; apply Nat.eqb_eq; lia).
      replace (2 * j + 1)%nat with (S (2 * j + 0)) by lia. reflexivity.
Qed.

Local Open Scope Q_scope.

Lemma inject_nat_pos (k : nat) : (0 < k)%nat -> 0 < inject_Z (Z.of_nat k).
Proof. intros Hk. change 0 with (inject_Z 0). rewrite <- Zlt_Qlt. lia. Qed.

(** [calculateAccuracy] gives the accuracy of the moves it is applied to. *)
Lemma calculateAccuracy_scores (ms : list PositionAnalysis) :
  scoresAccuracy (GeminiChessAI.calculateAccuracy ms) ms.
Proof.
  unfold scoresAccuracy, GeminiChessAI.calculateAccuracy. split.
  - by intros ->.
  - intros Hne.
    assert (Hlen : (0 < length ms)%nat) by (destruct ms; [done | cbn; lia]).
    replace (length ms =? 0)%nat with false by (symmetry; apply Nat.eqb_neq; lia).
    change (fun m : PositionAnalysis =>
              negb (Js.truthy (blunder (flags m))) && negb (Js.truthy (mistake (flags m))))
      with accurate.
    set (k := length (List.filter accurate ms)).
    assert (Hk : (k <= length ms)%nat) by apply filter_length_le.
    pose proof (inject_nat_pos (length ms) Hlen) as Hpos.
    assert (Hkq : 0 <= inject_Z (Z.of_nat k) <= inject_Z (Z.of_nat (length ms))).
    { change 0 with (inject_Z 0). rewrite <- !Zle_Qle. lia. }
    unfold Js.mul, Js.div, Js.lift2, Js.ofNat, Js.ofZ.
    replace (Qeq_bool (inject_Z (Z.of_nat (length ms))) 0) with false.
    2:{ symmetry. apply not_true_is_false. intros Heq.
        apply Qeq_bool_iff in Heq. lra. }
    set (kq := inject_Z (Z.of_nat k)) in *.
    set (nq := inject_Z (Z.of_nat (length ms))) in *.
    exists (kq / nq * 100). split; [reflexivity|].
    assert (Hn0 : ~ nq == 0) by lra.
    assert (Hratio : 0 <= kq / nq <= 1).
    { split; [apply Qle_shift_div_l; lra | apply Qle_shift_div_r; lra]. }
    split_and!.
    + field. exact Hn0.
    + lra.
    + lra.
    + intros Hall.
      assert (Heq : k = length ms).
      { subst k. clear -Hall. induction Hall as [|m l Hm _ IH]; [reflexivity|].
        cbn. rewrite Hm. cbn. by rewrite IH. }
      assert (kq == nq) as -> by (subst kq nq; by rewrite Heq).
      field. exact Hn0.
Qed.

End AccuracyFacts.

(** C9, as the code has it.  The summary splits the plies by parity, the even
    ones to White and the odd ones to Black.  For a side with at least one
    move the accuracy is [100 * accurate / total], where a move is accurate
    when it is flagged neither blunder nor mistake; it lies between 0 and 100
    and is 100 when every move of the side is accurate.  For a side with no
    move the accuracy is 0. *)
Theorem accuracy_by_parity {chessjs : ChessJs} (analyses : list PositionAnalysis)
    (chess : position) :
  exists whiteMoves blackMoves : list PositionAnalysis,
    (forall j : nat, whiteMoves !! j = analyses !! (2 * j)%nat) /\
    (forall j : nat, blackMoves !! j = analyses !! (2 * j + 1)%nat) /\
    scoresAccuracy
      (GameAnalysis.whiteAccuracy (GeminiChessAI.generateGameSummary analyses chess))
      whiteMoves /\
    scoresAccuracy
      (GameAnalysis.blackAccuracy (GeminiChessAI.generateGameSummary analyses chess))
      blackMoves.
Proof.
  exists (filterIndex (fun i => (i mod 2 =? 0)%nat) 0 analyses),
         (filterIndex (fun i => (i mod 2 =? 1)%nat) 0 analyses).
  split_and!.
  - intros j. rewrite (filterIndex_parity 0) by lia. cbn. f_equal. lia.
  - intros j. by rewrite (filterIndex_parity 1) by lia.
  - apply calculateAccuracy_scores.
  - apply calculateAccuracy_scores.
Qed.

Lemma accuracy_by_parity_witness :
  exists x : Q,
    GameAnalysis.blackAccuracy
      (GeminiChessAI.generateGameSummary (chessjs := PawnChess.chess)
         Example.threePlies PawnChess.initial) = Num x /\
    (x == 100)%Q.
Proof.
  destruct (accuracy_by_parity (chessjs := PawnChess.chess)
              Example.threePlies PawnChess.initial)
    as (whiteMoves & blackMoves & _ & Hblack & _ & Hscore).
  assert (Hmoves : blackMoves
            = [Example.plain
                 "rnbqkbnr/pppppppp/8/8/4P3/8/PPPP1PPP/RNBQKBNR b KQkq - 0 1" "e5"]).
  { apply list_eq. intros [|j]; rewrite Hblack; [reflexivity|].
    replace (2 * S j + 1)%nat with (S (S (S (2 * j)))) by lia. reflexivity. }
  destruct Hscore as [_ Hscore].
  destruct Hscore as (x & Hx & _ & _ & Hall); [by rewrite Hmoves|].
  exists x. split; [exact Hx|].
  apply Hall. rewrite Hmoves. repeat constructor.
Defined.

(** C9, as the claim states it, fails: the game "1. e4" is analysed with an
    engine that judges the position at +0.35.  The report has one record,
    without flag; Black has no move, hence no blunder and no mistake, and the
    accuracy reported for Black is 0, not 100. *)
Lemma accuracy_of_side_without_moves :
  match (GeminiChessAI.analyzeGame (chessjs := PawnChess.chess)
           (Example.engineUp Example.quickSearch) "1. e4" "17" pool0).1 with
  | Ok report =>
      map (fun pa => (move pa, flagsSet (flags pa))) (GameAnalysis.moves report)
      = [("e4", [])] /\
      GameAnalysis.blackAccuracy (GameAnalysis.summary report) = Num 0 /\
      ~ Js.denotes (GameAnalysis.blackAccuracy (GameAnalysis.summary report)) 100
  | Throw _ => False
  end.
Proof.
  vm_compute. split_and!; [reflexivity | reflexivity |]. intros Heq. discriminate Heq.
Qed.

(* --------------------------------------------------------------------- *)
(** *** The sweep for alternative moves *)
(* --------------------------------------------------------------------- *)

Section TopMovesFacts.
Context (env : Env) {chessjs : ChessJs}.

Implicit Types (c : Client) (moves : list AnalysisResult).

(** What a search does to the world, whatever its outcome: at most one
    search is counted and the lines posted are lines of that search; a
    result comes with an engine instance. *)
Lemma analyzePosition_effects fen d t c out c' :
  analyzePosition env fen d t c = (out, c') ->
  (searches (world c') <= S (searches (world c)))%nat /\
  (exists new, posts c c' new /\ Forall (fun e => e.2 ∈ searchCommands fen d) new) /\
  (forall r, out = Ok r -> exists h', engine (this c') = Some h').
Proof.
  intros Hrun.
  destruct (engine (this c)) as [h|] eqn:Hh.
  - destruct (analyzePosition_returns env fen d t c h Hh)
      as (r & c1 & h' & new & Hrun' & Hh' & Hs & Hp & Hall & _).
    rewrite Hrun' in Hrun. injection Hrun as <- <-.
    split_and!; [lia | by exists new | by exists h'].
  - destruct (isReady (this c)) eqn:Er.
    + destruct (analyzePosition_rejects env fen d t c Hh)
        as (e & c1 & Hrun' & _ & Hs & Hp); [congruence|].
      rewrite Hrun' in Hrun. injection Hrun as <- <-.
      split_and!; [lia | exists []; split; [done | constructor] | discriminate].
    + destruct (stockfishLoads env (inits (world c))) eqn:El.
      * revert Hrun. unfold analyzePosition, initialize. run. rewrite Er. run.
        rewrite El. run.
        set (k := inits (world c)). set (c1 := {| this := _; world := _ |}).
        destruct (listen_resolves env k d (dateNow env (clockReads (world c)))
                    (engineOutput env (searches (world c))) accum0 c1)
          as (r & c2 & new & -> & Hthis & Hs & _ & Hp & Hnew).
        intros [= <- <-]. split_and!.
        -- rewrite Hs. subst c1. cbn. lia.
        -- exists ([(k, Uci); (k, SetOption "Threads" "4"); (k, SetOption "Hash" "256");
                    (k, SetOption "Ponder" "false"); (k, UciNewGame);
                    (k, PositionFen fen); (k, GoDepth d)] ++ new).
           split.
           ++ unfold posts in *. rewrite Hp. subst c1. cbn.
              by rewrite <- !app_assoc.
           ++ apply Forall_app. split; [search_commands|].
              by eapply stops_are_search_commands.
        -- intros _ _. exists k. by rewrite Hthis.
      * destruct (analyzePosition_rejects env fen d t c Hh)
          as (e & c1 & Hrun' & _ & Hs & Hp); [done|].
        rewrite Hrun' in Hrun. injection Hrun as <- <-.
        split_and!; [lia | exists []; split; [done | constructor] | discriminate].
Qed.

(** The loop of [getTopMoves]: it makes at most as many searches as it has
    iterations left, posts lines of searches of [fen] only, and what it
    returns extends the list by at most one result per iteration, each with
    a best move. *)
Lemma getTopMovesFrom_bounded fen (remaining : nat) moves c out c' :
  getTopMovesFrom env fen remaining moves c = (out, c') ->
  (searches (world c') <= searches (world c) + remaining)%nat /\
  (exists new,
     posts c c' new /\ Forall (fun e => e.2 ∈ searchCommands fen (Num 15)) new) /\
  (forall result, out = Ok result ->
     exists more,
       result = moves ++ more /\ (length more <= remaining)%nat /\
       Forall (fun m => Js.truthyStr (bestMove m) = true) more).
Proof.
  revert moves c. induction remaining as [|remaining IH]; intros moves c Hrun.
  - cbn in Hrun. injection Hrun as <- <-. split_and!.
    + lia.
    + exists []. split; [apply posts_refl | constructor].
    + intros result [= <-]. exists []. by rewrite app_nil_r.
  - cbn [getTopMovesFrom] in Hrun. unfold mbind, M_bind in Hrun.
    destruct (analyzePosition env fen (Num 15) (Num 5000) c) as [[r|e] c1] eqn:Hsearch.
    2:{ injection Hrun as <- <-.
        destruct (analyzePosition_effects _ _ _ _ _ _ Hsearch) as (Hs & Hp & _).
        split_and!; [lia | done | discriminate]. }
    destruct (analyzePosition_effects _ _ _ _ _ _ Hsearch) as (Hs & (new1 & Hp1 & Hall1) & Hh).
    destruct (Hh r eq_refl) as [h1 Hh1].
    destruct (Js.truthyStr (bestMove r)) eqn:Etruthy.
    2:{ destruct (IH _ _ Hrun) as (Hs' & (new2 & Hp2 & Hall2) & Hres).
        split_and!.
        - lia.
        - exists (new1 ++ new2). split; [by eapply posts_trans | by apply Forall_app].
        - intros result Hout. destruct (Hres result Hout) as (more & -> & Hlen & Hall).
          exists more. split_and!; [done | lia | done]. }
    destruct (chess_load fen) as [chess|].
    2:{ injection Hrun as <- <-.
        split_and!; [lia | by exists new1 | discriminate]. }
    destruct (chess_move chess (default EmptyString (bestMove r))).
    2:{ injection Hrun as <- <-. split_and!; [lia | by exists new1 |].
        intros result [= <-]. exists [r]. split_and!; [done | cbn; lia |].
        by repeat constructor. }
    revert Hrun. run. rewrite Hh1. run.
    set (c2 := {| this := _; world := _ |}). intros Hrun.
    destruct (IH _ _ Hrun) as (Hs' & (new2 & Hp2 & Hall2) & Hres).
    assert (Hp12 : posts c1 c2 [(h1, PositionFen fen)]) by done.
    split_and!.
    + subst c2. cbn in Hs'. lia.
    + exists (new1 ++ [(h1, PositionFen fen)] ++ new2). split.
      * eapply posts_trans; [exact Hp1|]. by eapply posts_trans.
      * apply Forall_app. split; [done|]. apply Forall_app. split; [|done].
        search_commands.
    + intros result Hout. destruct (Hres result Hout) as (more & -> & Hlen & Hall).
      exists (r :: more). split_and!.
      * by rewrite <- app_assoc.
      * cbn. lia.
      * by constructor.
Qed.

(** With an engine instance and a FEN that chess.js accepts, the loop
    returns. *)
Lemma getTopMovesFrom_returns fen (remaining : nat) moves c h chess :
  engine (this c) = Some h ->
  chess_load fen = Some chess ->
  exists result c', getTopMovesFrom env fen remaining moves c = (Ok result, c').
Proof.
  intros Hh Hload. revert moves c h Hh.
  induction remaining as [|remaining IH]; intros moves c h Hh.
  - cbn. by eexists _, _.
  - cbn [getTopMovesFrom]. unfold mbind, M_bind.
    destruct (analyzePosition_returns env fen (Num 15) (Num 5000) c h Hh)
      as (r & c1 & h1 & new & -> & Hh1 & _).
    destruct (Js.truthyStr (bestMove r)); [|by eapply IH].
    rewrite Hload.
    destruct (chess_move chess (default EmptyString (bestMove r)));
      [|by eexists _, _].
    run. rewrite Hh1. run. by eapply IH.
Qed.

End TopMovesFacts.

Lemma truthyStr_nonempty (o : option string) :
  Js.truthyStr o = true <-> exists s, o = Some s /\ s <> EmptyString.
Proof.
  split.
  - destruct o as [[|ch s]|]; try discriminate. intros _. by eexists.
  - intros (s & -> & Hs). by destruct s.
Qed.

(** An engine that answers every search alike: the sweep returns the same
    result three times. *)
Lemma getTopMoves_repeats :
  (getTopMoves (chessjs := PawnChess.chess) (Example.engineUp Example.quickSearch)
     PawnChess.startFen 3 Example.ready).1
  = Ok (replicate 3
          {| bestMove := Some "e4"; evaluation := Num 0.35; depth := Num 10;
             nodes := Num 1000; time := 1000; pv := ["e2e4"; "e7e5"];
             mate := None |}).
Proof. vm_compute. reflexivity. Qed.

(* ===================================================================== *)
(** ** Further properties of the protocol client *)
(* ===================================================================== *)

Section ResolutionFacts.
Context (env : Env).

Implicit Types (c : Client) (a : Accum) (lines pre post : list string).

Lemma scanInfo_keeps_bestMove (parts : list string) a :
  accBestMove (scanInfo parts a) = accBestMove a.
Proof.
  revert a. induction parts as [|tok parts IH]; intros a; [done|].
  cbn [scanInfo].
  repeat match goal with
    | |- context [(tok =? ?kw)%string] => destruct (String.eqb_spec tok kw)
    | |- context [bool_decide ?P] => destruct (bool_decide P)
    end; try done; by rewrite IH.
Qed.

Lemma progress_keeps_bestMove lines a :
  accBestMove (fold_left progress lines a) = accBestMove a.
Proof.
  revert a. induction lines as [|line lines IH]; intros a; [done|].
  cbn [fold_left]. rewrite IH. unfold progress, onInfo.
  destruct (Js.startsWith line "info"); [apply scanInfo_keeps_bestMove | done].
Qed.

Lemma info_not_bestmove (line : string) :
  Js.startsWith line "info" = true -> Js.startsWith line "bestmove" = false.
Proof.
  unfold Js.startsWith. destruct line as [|ch line]; [discriminate|].
  cbn [String.prefix]. destruct (Ascii.ascii_dec "i" ch) as [<-|]; [|discriminate].
  intros _. reflexivity.
Qed.

Lemma shallow_tail d a (line : string) lines :
  shallow d a (line :: lines) -> shallow d (progress a line) lines.
Proof. intros Hdeep k line' Hk Hi. exact (Hdeep (S k) line' Hk Hi). Qed.

Lemma shallow_head d a (line : string) lines :
  shallow d a (line :: lines) -> Js.startsWith line "info" = true ->
  Js.geb (accDepthReached (onInfo line a)) d = false.
Proof.
  intros Hdeep Hi. specialize (Hdeep 0%nat line eq_refl Hi).
  rewrite firstn_cons, take_0 in Hdeep. cbn [fold_left] in Hdeep.
  unfold progress in Hdeep. by rewrite Hi in Hdeep.
Qed.

(** [listen] passes over lines that neither are terminal nor report the
    depth asked for, and accumulates them. *)
Lemma listen_prefix h d t0 pre lines a c :
  silent pre -> shallow d a pre ->
  listen env h d t0 (pre ++ lines) a c
  = listen env h d t0 lines (fold_left progress pre a) c.
Proof.
  intros Hsilent. revert a.
  induction Hsilent as [|line pre Hline _ IH]; intros a Hdeep; [done|].
  cbn [app listen fold_left]. rewrite Hline.
  pose proof (shallow_tail d a line pre Hdeep) as Htail.
  destruct (Js.startsWith line "info") eqn:Einfo.
  - rewrite (shallow_head d a line pre Hdeep Einfo).
    assert (Hp : progress a line = onInfo line a)
      by (unfold progress; by rewrite Einfo).
    rewrite <- Hp. by apply IH.
  - assert (Hp : progress a line = a) by (unfold progress; by rewrite Einfo).
    rewrite Hp in Htail |- *. by apply IH.
Qed.

(** Lines that are not "info" lines post nothing once the search is
    settled. *)
Lemma lateStops_quiet d a lines :
  Forall (fun line => Js.startsWith line "info" = false) lines ->
  lateStops d a lines = 0%nat.
Proof.
  intros Hquiet. revert a.
  induction Hquiet as [|line lines Hline _ IH]; intros a; cbn [lateStops]; [done|].
  destruct (Js.startsWith line "bestmove"); [apply IH|]. rewrite Hline. apply IH.
Qed.

(** A search on a ready client answered by a "bestmove" line. *)
Lemma analyzePosition_answered fen d t c h pre post (terminal : string) :
  isReady (this c) = true -> engine (this c) = Some h ->
  engineOutput env (searches (world c)) = pre ++ terminal :: post ->
  silent pre -> shallow d accum0 pre ->
  Js.startsWith terminal "bestmove" = true ->
  exists c',
    analyzePosition env fen d t c
    = (Ok (snapshot (onBestMove terminal (accumulate pre))
             (dateNow env (S (clockReads (world c)))
              - dateNow env (clockReads (world c)))), c') /\
    this c' = this c /\
    inits (world c') = inits (world c) /\
    searches (world c') = S (searches (world c)) /\
    posts c c'
      (searchLog h fen d (lateStops d (onBestMove terminal (accumulate pre)) post)).
Proof.
  intros Er Hh Hlines Hsilent Hdeep Hterm.
  unfold analyzePosition. run. rewrite Er. run. rewrite Hh. run.
  rewrite Hlines, (listen_prefix h d _ pre _ accum0 _ Hsilent Hdeep).
  cbn [listen]. rewrite Hterm. run.
  match goal with
  | |- context [drain env h d post ?a' ?c1] =>
      destruct (drain_state env h d post a' c1)
        as (c' & -> & Hthis & Hs & Hi & _ & Hp)
  end.
  exists c'. split; [reflexivity|]. unfold posts, searchLog in *. cbn in *.
  split_and!; try done. by rewrite Hp, <- !app_assoc.
Qed.

(** A search on a ready client ended by an "info" line at the depth asked
    for. *)
Lemma analyzePosition_deep fen d t c h pre post (deep : string) :
  isReady (this c) = true -> engine (this c) = Some h ->
  engineOutput env (searches (world c)) = pre ++ deep :: post ->
  silent pre -> shallow d accum0 pre ->
  Js.startsWith deep "info" = true ->
  Js.geb (accDepthReached (accumulate (pre ++ [deep]))) d = true ->
  exists c',
    analyzePosition env fen d t c
    = (Ok (snapshot (accumulate (pre ++ [deep]))
             (dateNow env (S (clockReads (world c)))
              - dateNow env (clockReads (world c)))), c') /\
    accBestMove (accumulate (pre ++ [deep])) = Some EmptyString /\
    this c' = this c /\
    inits (world c') = inits (world c) /\
    searches (world c') = S (searches (world c)) /\
    posts c c'
      (searchLog h fen d (S (lateStops d (accumulate (pre ++ [deep])) post))).
Proof.
  intros Er Hh Hlines Hsilent Hdeep Hinfo Hreach.
  assert (Hacc : accumulate (pre ++ [deep]) = onInfo deep (accumulate pre)).
  { unfold accumulate. rewrite fold_left_app. cbn. unfold progress.
    by rewrite Hinfo. }
  rewrite Hacc in Hreach |- *.
  unfold analyzePosition. run. rewrite Er. run. rewrite Hh. run.
  rewrite Hlines, (listen_prefix h d _ pre _ accum0 _ Hsilent Hdeep).
  cbn [listen]. rewrite (info_not_bestmove deep Hinfo), Hinfo.
  fold (accumulate pre). rewrite Hreach. run.
  match goal with
  | |- context [drain env h d post ?a' ?c1] =>
      destruct (drain_state env h d post a' c1)
        as (c' & -> & Hthis & Hs & Hi & _ & Hp)
  end.
  exists c'. split; [reflexivity|]. unfold posts, searchLog in *. cbn in *.
  split_and!; try done.
  - unfold onInfo. rewrite scanInfo_keeps_bestMove.
    unfold accumulate. by rewrite progress_keeps_bestMove.
  - by rewrite Hp, <- !app_assoc.
Qed.

End ResolutionFacts.

(** X1.  A search on a ready client whose first settling line is a
    "bestmove" line, the lines before it reporting less than the depth asked
    for: the result names the second token of that line as best move and
    carries the evaluation, depth, nodes and principal variation of the
    progress lines before it, whatever the lines after it are.  The handler
    stays installed: after the position and the depth, one "stop" is posted
    for each later "info" line at which the depth reached is at least the
    depth asked for, and nothing else; without "info" line after the
    "bestmove" line no "stop" is posted. *)
Theorem search_ends_at_bestmove (env : Env) (fen : string) (d t : number)
    (c : Client) (h : nat) (pre post : list string) (terminal : string) :
  isReady (this c) = true -> engine (this c) = Some h ->
  engineOutput env (searches (world c)) = pre ++ terminal :: post ->
  silent pre -> shallow d accum0 pre ->
  Js.startsWith terminal "bestmove" = true ->
  let elapsed :=
    (dateNow env (S (clockReads (world c))) - dateNow env (clockReads (world c)))%Z in
  let a := onBestMove terminal (accumulate pre) in
  (analyzePosition env fen d t c).1 = Ok (snapshot a elapsed) /\
  bestMove (snapshot a elapsed) = Js.split " " terminal !! 1%nat /\
  posts c (analyzePosition env fen d t c).2 (searchLog h fen d (lateStops d a post)) /\
  (Forall (fun line => Js.startsWith line "info" = false) post ->
   posts c (analyzePosition env fen d t c).2 [(h, PositionFen fen); (h, GoDepth d)]) /\
  this (analyzePosition env fen d t c).2 = this c.
Proof.
  intros Er Hh Hlines Hsilent Hdeep Hterm elapsed a.
  destruct (analyzePosition_answered env fen d t c h pre post terminal
              Er Hh Hlines Hsilent Hdeep Hterm)
    as (c' & Hrun & Hthis & _ & _ & Hp).
  rewrite Hrun. cbn [fst snd]. split_and!; try done.
  intros Hquiet. fold a in Hp. rewrite (lateStops_quiet d a post Hquiet) in Hp.
  unfold searchLog in Hp. cbn in Hp. exact Hp.
Qed.

Lemma search_ends_at_bestmove_witness :
  let env :=
    Example.engineUp ["info depth 10 score cp 35 nodes 1000 pv e2e4 e7e5";
                      "bestmove e4 ponder e5";
                      "info depth 20 score cp 10 nodes 9000 pv d2d4"] in
  (analyzePosition env PawnChess.startFen (Num 20) (Num 1000) Example.ready).1
  = Ok {| bestMove := Some "e4"; evaluation := Num (inject_Z 35 / 100);
          depth := Num 10; nodes := Num 1000; time := 1000;
          pv := ["e2e4"; "e7e5"]; mate := None |} /\
  posted (world (analyzePosition env PawnChess.startFen (Num 20) (Num 1000)
                   Example.ready).2)
  = [(0%nat, PositionFen PawnChess.startFen); (0%nat, GoDepth (Num 20)); (0%nat, Stop)].
Proof.
  intros env.
  destruct (search_ends_at_bestmove env PawnChess.startFen (Num 20) (Num 1000)
              Example.ready 0
              ["info depth 10 score cp 35 nodes 1000 pv e2e4 e7e5"]
              ["info depth 20 score cp 10 nodes 9000 pv d2d4"]
              "bestmove e4 ponder e5")
    as (Hvalue & _ & Hposts & _).
  - reflexivity.
  - reflexivity.
  - reflexivity.
  - repeat constructor.
  - intros [|k] line Hk Hinfo; vm_compute in Hk; [|discriminate].
    injection Hk as <-. reflexivity.
  - reflexivity.
  - split; [exact Hvalue|]. rewrite Hposts. reflexivity.
Defined.

(** X2.  A search on a ready client in which an "info" line reports the
    depth asked for before any "bestmove" line: the promise settles at that
    line with the accumulator of the lines up to it, and the best move of the
    result is the empty string, whatever the engine sends afterwards.  After
    the position and the depth, "stop" is posted at that line and once more
    for each later "info" line at which the depth reached is still at least
    the depth asked for. *)
Theorem search_ends_at_depth (env : Env) (fen : string) (d t : number)
    (c : Client) (h : nat) (pre post : list string) (deep : string) :
  isReady (this c) = true -> engine (this c) = Some h ->
  engineOutput env (searches (world c)) = pre ++ deep :: post ->
  silent pre -> shallow d accum0 pre ->
  Js.startsWith deep "info" = true ->
  Js.geb (accDepthReached (accumulate (pre ++ [deep]))) d = true ->
  let elapsed :=
    (dateNow env (S (clockReads (world c))) - dateNow env (clockReads (world c)))%Z in
  let a := accumulate (pre ++ [deep]) in
  (analyzePosition env fen d t c).1 = Ok (snapshot a elapsed) /\
  bestMove (snapshot a elapsed) = Some EmptyString /\
  posts c (analyzePosition env fen d t c).2
    (searchLog h fen d (S (lateStops d a post))) /\
  this (analyzePosition env fen d t c).2 = this c.
Proof.
  intros Er Hh Hlines Hsilent Hdeep Hinfo Hreach elapsed a.
  destruct (analyzePosition_deep env fen d t c h pre post deep
              Er Hh Hlines Hsilent Hdeep Hinfo Hreach)
    as (c' & Hrun & Hbest & Hthis & _ & _ & Hp).
  rewrite Hrun. cbn [fst snd]. by split_and!.
Qed.

Lemma search_ends_at_depth_witness :
  let env :=
    Example.engineUp ["info depth 14 score cp 20 nodes 900 pv d2d4";
                      "info depth 15 score cp 31 nodes 1200 pv e2e4 e7e5";
                      "info depth 16 score cp 28 nodes 2000 pv e2e4 c7c5";
                      "bestmove e2e4 ponder e7e5"] in
  (analyzePosition env PawnChess.startFen (Num 15) (Num 5000) Example.ready).1
  = Ok {| bestMove := Some EmptyString; evaluation := Num (inject_Z 31 / 100);
          depth := Num 15; nodes := Num 1200; time := 1000;
          pv := ["e2e4"; "e7e5"]; mate := None |} /\
  posted (world (analyzePosition env PawnChess.startFen (Num 15) (Num 5000)
                   Example.ready).2)
  = [(0%nat, PositionFen PawnChess.startFen); (0%nat, GoDepth (Num 15));
     (0%nat, Stop); (0%nat, Stop)].
Proof.
  intros env.
  destruct (search_ends_at_depth env PawnChess.startFen (Num 15) (Num 5000)
              Example.ready 0
              ["info depth 14 score cp 20 nodes 900 pv d2d4"]
              ["info depth 16 score cp 28 nodes 2000 pv e2e4 c7c5";
               "bestmove e2e4 ponder e7e5"]
              "info depth 15 score cp 31 nodes 1200 pv e2e4 e7e5")
    as (Hvalue & _ & Hposts & _).
  - reflexivity.
  - reflexivity.
  - reflexivity.
  - repeat constructor.
  - intros [|k] line Hk Hinfo; vm_compute in Hk; [|discriminate].
    injection Hk as <-. reflexivity.
  - reflexivity.
  - reflexivity.
  - split; [exact Hvalue|]. rewrite Hposts. reflexivity.
Defined.

(* --------------------------------------------------------------------- *)
(** *** The states of a client *)
(* --------------------------------------------------------------------- *)

Section ClientFacts.
Context (env : Env) {chessjs : ChessJs}.

Implicit Types (c : Client) (a : Accum) (lines pre post : list string).

(** A search on a ready client that holds the instance [h]. *)
Lemma analyzePosition_ready fen d t c h :
  isReady (this c) = true -> engine (this c) = Some h ->
  exists r c' new,
    analyzePosition env fen d t c = (Ok r, c') /\
    this c' = this c /\
    inits (world c') = inits (world c) /\
    searches (world c') = S (searches (world c)) /\
    posts c c' ([(h, PositionFen fen); (h, GoDepth d)] ++ new) /\
    Forall (fun e => e = (h, Stop)) new.
Proof.
  intros Er Hh. unfold analyzePosition. run. rewrite Er. run. rewrite Hh. run.
  match goal with
  | |- context [listen env h d ?t0 ?l accum0 ?c1] =>
      destruct (listen_resolves env h d t0 l accum0 c1)
        as (r & c' & new & -> & Hthis & Hs & Hi & Hp & Hnew)
  end.
  exists r, c', new. split; [reflexivity|]. unfold posts in *. cbn in *.
  split_and!; try done. by rewrite Hp, <- !app_assoc.
Qed.

(** The first search of a client that is not ready, when the constructor is
    found: the instance is numbered by the attempt. *)
Lemma analyzePosition_initializes fen d t c :
  isReady (this c) = false ->
  stockfishLoads env (inits (world c)) = true ->
  exists r c' new,
    analyzePosition env fen d t c = (Ok r, c') /\
    this c' = {| engine := Some (inits (world c)); version := version (this c);
                 isReady := true |} /\
    inits (world c') = S (inits (world c)) /\
    searches (world c') = S (searches (world c)) /\
    posts c c' (handshake (inits (world c))
                ++ [(inits (world c), PositionFen fen); (inits (world c), GoDepth d)]
                ++ new) /\
    Forall (fun e => e = (inits (world c), Stop)) new.
Proof.
  intros Er El. unfold analyzePosition, initialize. run. rewrite Er. run.
  rewrite El. run.
  match goal with
  | |- context [listen env ?k d ?t0 ?l accum0 ?c1] =>
      destruct (listen_resolves env k d t0 l accum0 c1)
        as (r & c' & new & -> & Hthis & Hs & Hi & Hp & Hnew)
  end.
  exists r, c', new. split; [reflexivity|]. unfold posts, handshake in *. cbn in *.
  split_and!; try done. by rewrite Hp, <- !app_assoc.
Qed.

(** The result of [listen] over lines that leave the search unanswered has
    the empty best move. *)
Lemma listen_unanswered h d t0 lines c :
  unanswered d lines ->
  exists r c',
    listen env h d t0 lines accum0 c = (Ok r, c') /\
    bestMove r = Some EmptyString.
Proof.
  intros (pre & rest & -> & Hsilent & Hdeep & Hrest).
  rewrite (listen_prefix env h d t0 pre rest accum0 c Hsilent Hdeep).
  destruct Hrest as [-> | (deep & post & -> & Hinfo & Hreach)].
  - cbn [listen]. run. eexists _, _. split; [reflexivity|]. cbn.
    apply progress_keeps_bestMove.
  - cbn [listen]. rewrite (info_not_bestmove deep Hinfo), Hinfo.
    unfold accumulate in Hreach. rewrite fold_left_app in Hreach.
    cbn [fold_left] in Hreach. unfold progress at 1 in Hreach.
    rewrite Hinfo in Hreach. rewrite Hreach. run.
    match goal with
    | |- context [drain env h d post ?a' ?c1] =>
        destruct (drain_state env h d post a' c1) as (c' & -> & _)
    end.
    eexists _, _. split; [reflexivity|]. cbn.
    unfold onInfo. rewrite scanInfo_keeps_bestMove.
    apply progress_keeps_bestMove.
Qed.

(** So has the result of a search on a client that holds an instance. *)
Lemma analyzePosition_unanswered fen d t c h :
  engine (this c) = Some h ->
  unanswered d (engineOutput env (searches (world c))) ->
  exists r c' h',
    analyzePosition env fen d t c = (Ok r, c') /\
    bestMove r = Some EmptyString /\
    engine (this c') = Some h' /\
    searches (world c') = S (searches (world c)) /\
    (isReady (this c) = true -> this c' = this c).
Proof.
  intros Hh Hun.
  destruct (analyzePosition_returns env fen d t c h Hh)
    as (r & c' & h' & new & Hrun & Hh' & Hs & _ & _ & Hthis).
  exists r, c', h'. split_and!; try done.
  destruct (analyzePosition_listens env fen d t c h Hh)
    as (h1 & c1 & new1 & Hrun1 & _).
  destruct (listen_unanswered h1 d (dateNow env (clockReads (world c)))
              (engineOutput env (searches (world c))) c1 Hun)
    as (r2 & c2 & Hrun2 & Hbest).
  rewrite Hrun1, Hrun2 in Hrun. by injection Hrun as <- _.
Qed.

(** Every method leaves a coherent object coherent. *)
Lemma initialize_coherent c : coherent (this (initialize env c).2).
Proof.
  unfold initialize, coherent. run.
  destruct (stockfishLoads env (inits (world c))); run; [by eexists|].
  destruct (engine (this c)); cbn; discriminate.
Qed.

Lemma analyzePosition_coherent fen d t c :
  coherent (this c) -> coherent (this (analyzePosition env fen d t c).2).
Proof.
  intros Hc. destruct (isReady (this c)) eqn:Er.
  - destruct (Hc Er) as [h Hh].
    destruct (analyzePosition_ready fen d t c h Er Hh)
      as (r & c' & new & -> & Hthis & _).
    cbn [snd]. rewrite Hthis. exact Hc.
  - destruct (stockfishLoads env (inits (world c))) eqn:El.
    + destruct (analyzePosition_initializes fen d t c Er El)
        as (r & c' & new & -> & Hthis & _).
      cbn [snd]. rewrite Hthis. intros _. by eexists.
    + unfold analyzePosition, initialize. run. rewrite Er. run. rewrite El. run.
      destruct (engine (this c)) as [h|] eqn:Hh; run.
      * match goal with
        | |- context [listen env h d ?t0 ?l accum0 ?c1] =>
            destruct (listen_resolves env h d t0 l accum0 c1)
              as (r & c' & new & -> & Hthis & _)
        end.
        cbn [snd]. rewrite Hthis. cbn. discriminate.
      * cbn. discriminate.
Qed.

Lemma terminate_coherent c :
  coherent (this c) -> coherent (this (terminate c).2).
Proof.
  intros Hc. unfold terminate. run. destruct (engine (this c)) eqn:Hh; run.
  - discriminate.
  - exact Hc.
Qed.

Lemma getTopMovesFrom_coherent fen (remaining : nat) moves c :
  coherent (this c) ->
  coherent (this (getTopMovesFrom env fen remaining moves c).2).
Proof.
  revert moves c. induction remaining as [|remaining IH]; intros moves c Hc; [done|].
  cbn [getTopMovesFrom]. unfold mbind, M_bind.
  pose proof (analyzePosition_coherent fen (Num 15) (Num 5000) c Hc) as Hc1.
  destruct (analyzePosition env fen (Num 15) (Num 5000) c) as [[r|e] c1]; [|done].
  cbn [snd] in Hc1.
  destruct (Js.truthyStr (bestMove r)); [|by apply IH].
  destruct (chess_load fen) as [chess|]; [|done].
  destruct (chess_move chess (default EmptyString (bestMove r))); [|done].
  run. destruct (engine (this c1)); [|done]. run. by apply IH.
Qed.

Lemma analyzeGameFrom_coherent history (i : nat) chess acc c :
  coherent (this c) ->
  coherent (this (analyzeGameFrom env history i chess acc c).2).
Proof.
  revert i chess acc c. induction history as [|mv history IH];
    intros i chess acc c Hc; [done|].
  cbn [analyzeGameFrom]. unfold mbind, M_bind.
  pose proof (analyzePosition_coherent (chess_fen chess) (Num 18) (Num 8000) c Hc)
    as Hc1.
  destruct (analyzePosition env (chess_fen chess) (Num 18) (Num 8000) c)
    as [[r|e] c1]; [|done].
  cbn [snd] in Hc1.
  destruct (chess_move chess (san mv)); [by apply IH | done].
Qed.

End ClientFacts.

Section LoopFacts.
Context (env : Env) {chessjs : ChessJs}.

Implicit Types (c : Client) (history : list Move) (chess : position).

(** The loop of [getTopMoves] over searches that stay unanswered: nothing is
    added, and every iteration makes its search. *)
Lemma getTopMovesFrom_unanswered fen (remaining : nat) moves c h :
  engine (this c) = Some h ->
  (forall k, (searches (world c) <= k < searches (world c) + remaining)%nat ->
     unanswered (Num 15) (engineOutput env k)) ->
  exists c',
    getTopMovesFrom env fen remaining moves c = (Ok moves, c') /\
    searches (world c') = (searches (world c) + remaining)%nat.
Proof.
  revert c h. induction remaining as [|remaining IH]; intros c h Hh Hun.
  - exists c. split; [done | lia].
  - cbn [getTopMovesFrom]. unfold mbind, M_bind.
    destruct (analyzePosition_unanswered env fen (Num 15) (Num 5000) c h Hh)
      as (r & c1 & h1 & -> & Hbest & Hh1 & Hs & _); [apply Hun; lia|].
    rewrite Hbest. cbn [Js.truthyStr].
    destruct (IH c1 h1 Hh1) as (c' & -> & Hs'); [intros k Hk; apply Hun; lia|].
    exists c'. split; [done | lia].
Qed.

(** The record of index [j] of the list built by the loop of [analyzeGame]
    is classified at [j]. *)
Lemma analyzeGameFrom_classified history chess (acc : list PositionAnalysis) c out c' :
  (forall j pa, acc !! j = Some pa -> classifiedAt j pa) ->
  analyzeGameFrom env history (length acc) chess acc c = (Ok out, c') ->
  forall j pa, out !! j = Some pa -> classifiedAt j pa.
Proof.
  revert chess acc c. induction history as [|mv history IH];
    intros chess acc c Hacc Hrun.
  - cbn in Hrun. by injection Hrun as <- _.
  - cbn [analyzeGameFrom] in Hrun. unfold mbind, M_bind in Hrun.
    destruct (analyzePosition env (chess_fen chess) (Num 18) (Num 8000) c)
      as [[r|e] c1]; [|discriminate].
    destruct (chess_move chess (san mv)) as [chess'|]; [|discriminate].
    set (pa0 := {| fen := chess_fen chess; move := san mv; analysis := [r];
                   flags := classifyMove (evaluation r) (length acc) |}) in Hrun.
    replace (S (length acc)) with (length (acc ++ [pa0])) in Hrun
      by (rewrite length_app; cbn; lia).
    apply (IH chess' (acc ++ [pa0]) c1); [|exact Hrun].
    intros j pa Hj. apply lookup_app_Some in Hj as [Hj | [Hle Hj]]; [by apply Hacc|].
    apply list_lookup_singleton_Some in Hj as [Hj <-].
    replace j with (length acc) by lia. by exists r.
Qed.

(** The loop of [analyzeGame] on a ready client: one search per ply, all the
    lines go to the instance of the client, and its fields stay. *)
Lemma analyzeGameFrom_ready history (i : nat) chess acc c h ps :
  isReady (this c) = true -> engine (this c) = Some h ->
  positionsBefore chess history = Some ps ->
  exists out c' new,
    analyzeGameFrom env history i chess acc c = (Ok out, c') /\
    this c' = this c /\ inits (world c') = inits (world c) /\
    searches (world c') = (searches (world c) + length history)%nat /\
    posts c c' new /\
    Forall (fun e => e.1 = h /\
                     (e.2 = GoDepth (Num 18) \/ e.2 = Stop \/
                      exists pos, pos ∈ ps /\ e.2 = PositionFen (chess_fen pos)))
           new.
Proof.
  revert i chess acc c ps. induction history as [|mv history IH];
    intros i chess acc c ps Er Hh Hps.
  - exists acc, c, []. cbn.
    split_and!; [done | done | done | lia | apply posts_refl | constructor].
  - apply positionsBefore_cons in Hps as (chess' & ps' & Hmove & Hps' & ->).
    cbn [analyzeGameFrom]. unfold mbind, M_bind.
    destruct (analyzePosition_ready env (chess_fen chess) (Num 18) (Num 8000) c h Er Hh)
      as (r & c1 & new1 & -> & Hthis1 & Hi1 & Hs1 & Hp1 & Hnew1).
    rewrite Hmove.
    destruct (IH (S i) chess'
                (acc ++ [{| fen := chess_fen chess; move := san mv; analysis := [r];
                            flags := classifyMove (evaluation r) i |}])
                c1 ps')
      as (out & c' & new & -> & Hthis & Hinits & Hs & Hp & Hall);
      [by rewrite Hthis1 | by rewrite Hthis1 | done |].
    exists out, c',
      (([(h, PositionFen (chess_fen chess)); (h, GoDepth (Num 18))] ++ new1) ++ new).
    split_and!; try done.
    + by rewrite Hthis.
    + by rewrite Hinits.
    + rewrite Hs, Hs1. cbn. lia.
    + by eapply posts_trans.
    + apply Forall_app. split; [apply Forall_app; split|].
      * repeat apply List.Forall_cons; try apply List.Forall_nil; cbn; split; auto.
        right. right. exists chess. split; [apply list_elem_of_here | done].
      * eapply Forall_impl; [exact Hnew1|]. intros e ->. cbn. auto.
      * eapply Forall_impl; [exact Hall|]. intros e [He1 He2]. split; [done|].
        destruct He2 as [He2 | [He2 | (pos & Hpos & He2)]]; auto.
        right. right. exists pos. split; [by apply list_elem_of_further | done].
Qed.

End LoopFacts.



(** X4.  A search on a client without instance, when no constructor is
    found, is rejected with a [TypeError]: nothing is posted, no engine
    output is consumed and the fields of the client stay; only the attempt
    is counted.  The failure is not remembered: if the constructor is found
    at the next attempt, the next search initializes the client and
    returns. *)
Theorem search_without_constructor (env : Env) (fen : string) (d t : number)
    (c : Client) :
  engine (this c) = None -> isReady (this c) = false ->
  stockfishLoads env (inits (world c)) = false ->
  exists c',
    analyzePosition env fen d t c
    = (Throw (TypeError "Cannot set properties of undefined (setting 'onmessage')"), c') /\
    this c' = this c /\
    posted (world c') = posted (world c) /\
    searches (world c') = searches (world c) /\
    inits (world c') = S (inits (world c)) /\
    (stockfishLoads env (S (inits (world c))) = true ->
     forall (fen' : string) (d' t' : number),
       exists r c'',
         analyzePosition env fen' d' t' c' = (Ok r, c'') /\
         engine (this c'') = Some (S (inits (world c))) /\
         isReady (this c'') = true).
Proof.
  intros Hh Er El. unfold analyzePosition at 1, initialize. run. rewrite Er. run.
  rewrite El. run. rewrite Hh. run.
  eexists. split; [reflexivity|]. cbn [this world posted searches inits].
  split_and!; try done.
  { destruct (this c) as [e v rdy]. cbn in *. by subst. }
  intros El' fen' d' t'.
  set (c' := {| this := _; world := _ |}).
  destruct (analyzePosition_initializes env fen' d' t' c' eq_refl El')
    as (r & c'' & new & Hrun & Hthis & _).
  exists r, c''. split; [exact Hrun|]. by rewrite Hthis.
Qed.

Lemma search_without_constructor_witness :
  exists c',
    analyzePosition (Example.engineLate Example.quickSearch) PawnChess.startFen
      (Num 20) (Num 1000) Example.fresh
    = (Throw (TypeError "Cannot set properties of undefined (setting 'onmessage')"), c') /\
    exists r c'',
      analyzePosition (Example.engineLate Example.quickSearch) PawnChess.startFen
        (Num 20) (Num 1000) c' = (Ok r, c'') /\
      engine (this c'') = Some 1%nat.
Proof.
  destruct (search_without_constructor (Example.engineLate Example.quickSearch)
              PawnChess.startFen (Num 20) (Num 1000) Example.fresh)
    as (c' & Hrun & _ & _ & _ & _ & Hnext).
  - reflexivity.
  - reflexivity.
  - reflexivity.
  - exists c'. split; [exact Hrun|].
    destruct (Hnext eq_refl PawnChess.startFen (Num 20) (Num 1000))
      as (r & c'' & Hrun' & Hengine & _).
    exists r, c''. split; [exact Hrun' | exact Hengine].
Defined.

(** X5.  Under the interface that the source declares for Stockfish, in
    which the factory, whenever it is found, returns an engine object (what
    [initialize] of the model takes from the environment; a factory that
    returns no object, which the guard of [initialize] allows for, is outside
    it): an engine object is coherent when it is not marked ready without
    holding an instance.  The object built by the constructor is coherent, and
    every method leaves a coherent object coherent, whatever the engine
    answers and whether the call returns or throws; a search on a coherent
    client that is ready returns a result. *)
Theorem methods_keep_coherence (env : Env) {chessjs : ChessJs} (c : Client) :
  coherent (this c) ->
  coherent (this (initialize env c).2) /\
  (forall (fen : string) (d t : number),
     coherent (this (analyzePosition env fen d t c).2)) /\
  coherent (this (terminate c).2) /\
  (forall (fen : string) (n : nat), coherent (this (getTopMoves env fen n c).2)) /\
  (forall pgn : string, coherent (this (analyzeGame env pgn c).2)) /\
  (isReady (this c) = true ->
   forall (fen : string) (d t : number),
     exists r c', analyzePosition env fen d t c = (Ok r, c')) /\
  (forall ver : string, coherent (newStockfishEngine ver)).
Proof.
  intros Hc. split_and!.
  - apply initialize_coherent.
  - intros fen d t. by apply analyzePosition_coherent.
  - by apply terminate_coherent.
  - intros fen n. unfold getTopMoves. by apply getTopMovesFrom_coherent.
  - intros pgn. unfold analyzeGame. destruct (chess_loadPgn pgn) as [[history ?]|].
    + by apply analyzeGameFrom_coherent.
    + exact Hc.
  - intros Er fen d t. destruct (Hc Er) as [h Hh].
    destruct (analyzePosition_ready env fen d t c h Er Hh)
      as (r & c' & new & Hrun & _).
    by eexists _, _.
  - intros ver. unfold coherent. cbn. discriminate.
Qed.

Lemma methods_keep_coherence_witness :
  coherent (this (terminate (analyzePosition (Example.engineUp Example.quickSearch)
                               PawnChess.startFen (Num 20) (Num 1000)
                               Example.fresh).2).2).
Proof.
  apply (@methods_keep_coherence (Example.engineUp Example.quickSearch)
           PawnChess.chess).
  apply (@methods_keep_coherence (Example.engineUp Example.quickSearch)
           PawnChess.chess Example.fresh).
  unfold coherent. cbn. discriminate.
Defined.

(** X6.  When every search of the sweep stays unanswered (its timer fires
    before a "bestmove" line, or an "info" line reports depth 15 before the
    "bestmove" line, as an engine does that reports its last depth before
    its move), [getTopMoves] on a client that holds an instance returns the
    empty list after [numMoves] searches.  The FEN is not looked at: the call
    returns the empty list for a text that chess.js rejects too. *)
Theorem getTopMoves_unanswered (env : Env) {chessjs : ChessJs} (fen : string)
    (numMoves : nat) (c : Client) (h : nat) :
  engine (this c) = Some h ->
  (forall k, (searches (world c) <= k < searches (world c) + numMoves)%nat ->
     unanswered (Num 15) (engineOutput env k)) ->
  exists c',
    getTopMoves env fen numMoves c = (Ok [], c') /\
    searches (world c') = (searches (world c) + numMoves)%nat.
Proof.
  intros Hh Hun. unfold getTopMoves.
  exact (getTopMovesFrom_unanswered env fen numMoves [] c h Hh Hun).
Qed.

Lemma getTopMoves_unanswered_witness :
  chess_load (ChessJs := PawnChess.chess) "not a position" = None /\
  exists c',
    getTopMoves (chessjs := PawnChess.chess) (Example.engineUp Example.deepSearch)
      "not a position" 3 Example.ready = (Ok [], c') /\
    searches (world c') = 3%nat.
Proof.
  split; [reflexivity|].
  apply (@getTopMoves_unanswered (Example.engineUp Example.deepSearch)
           PawnChess.chess "not a position" 3 Example.ready 0).
  - reflexivity.
  - intros k _.
    exists ["info depth 14 score cp 20 nodes 900 pv d2d4"],
           ["info depth 15 score cp 31 nodes 1200 pv e2e4 e7e5";
            "bestmove e2e4 ponder e7e5"].
    split; [reflexivity|]. split; [repeat constructor|]. split.
    + intros [|j] line Hj Hinfo; vm_compute in Hj; [|discriminate].
      injection Hj as <-. reflexivity.
    + right. eexists _, _. split; [reflexivity|]. split; reflexivity.
Defined.

(** X7.  The sweep stops at the first move that chess.js rejects: when the
    first search of a ready client is answered by a "bestmove" line whose
    second token is not empty and is not a move of the position,
    [getTopMoves] returns that one result, whatever [numMoves] is, after one
    search; the log is that of the one search: the position, the depth, and
    a "stop" for each "info" line at the depth that followed the "bestmove"
    line; the position is not posted again. *)
Theorem getTopMoves_rejected_move (env : Env) {chessjs : ChessJs} (fen : string)
    (n : nat) (c : Client) (h : nat) (pre post : list string) (terminal s : string)
    (chess : position) :
  isReady (this c) = true -> engine (this c) = Some h ->
  engineOutput env (searches (world c)) = pre ++ terminal :: post ->
  silent pre -> shallow (Num 15) accum0 pre ->
  Js.startsWith terminal "bestmove" = true ->
  Js.split " " terminal !! 1%nat = Some s -> s <> EmptyString ->
  chess_load fen = Some chess -> chess_move chess s = None ->
  let a := onBestMove terminal (accumulate pre) in
  exists c',
    getTopMoves env fen (S n) c
    = (Ok [snapshot a (dateNow env (S (clockReads (world c)))
                       - dateNow env (clockReads (world c)))], c') /\
    searches (world c') = S (searches (world c)) /\
    posts c c' (searchLog h fen (Num 15) (lateStops (Num 15) a post)) /\
    this c' = this c.
Proof.
  intros Er Hh Hlines Hsilent Hdeep Hterm Hs Hne Hload Hmove a.
  destruct (analyzePosition_answered env fen (Num 15) (Num 5000) c h pre post terminal
              Er Hh Hlines Hsilent Hdeep Hterm)
    as (c' & Hrun & Hthis & _ & Hsearches & Hp).
  exists c'. split_and!; try done.
  unfold getTopMoves. cbn [getTopMovesFrom]. unfold mbind at 1, M_bind at 1.
  rewrite Hrun. cbn [snapshot onBestMove bestMove accBestMove]. rewrite Hs.
  replace (Js.truthyStr (Some s)) with true
    by (symmetry; apply truthyStr_nonempty; by exists s).
  rewrite Hload. cbn [default from_option]. unfold id. by rewrite Hmove.
Qed.

Lemma getTopMoves_rejected_move_witness :
  (getTopMoves (chessjs := PawnChess.chess) (Example.engineUp ["bestmove e5"])
     PawnChess.startFen 3 Example.ready).1
  = Ok [{| bestMove := Some "e5"; evaluation := Num 0; depth := Num 0;
           nodes := Num 0; time := 1000; pv := []; mate := None |}].
Proof.
  destruct (PawnChess.load PawnChess.startFen) as [chess|] eqn:Hload;
    [|vm_compute in Hload; discriminate].
  destruct (@getTopMoves_rejected_move (Example.engineUp ["bestmove e5"])
              PawnChess.chess PawnChess.startFen 2 Example.ready 0 [] []
              "bestmove e5" "e5" chess) as (c' & Hrun & _).
  - reflexivity.
  - reflexivity.
  - reflexivity.
  - constructor.
  - intros k line Hk. discriminate.
  - reflexivity.
  - reflexivity.
  - discriminate.
  - exact Hload.
  - vm_compute in Hload. injection Hload as <-. reflexivity.
  - rewrite Hrun. reflexivity.
Defined.

(** X8.  [getTopMoves] does not check the FEN before it searches: for a
    text that chess.js rejects, the text is posted to the engine as a
    position, and when that search is answered by a best move the call is
    rejected with the error of [new Chess(fen)], after that one search; the
    log is the position, the depth, and a "stop" for each "info" line at the
    depth that followed the "bestmove" line. *)
Theorem getTopMoves_invalid_fen (env : Env) {chessjs : ChessJs} (fen : string)
    (n : nat) (c : Client) (h : nat) (pre post : list string) (terminal s : string) :
  isReady (this c) = true -> engine (this c) = Some h ->
  engineOutput env (searches (world c)) = pre ++ terminal :: post ->
  silent pre -> shallow (Num 15) accum0 pre ->
  Js.startsWith terminal "bestmove" = true ->
  Js.split " " terminal !! 1%nat = Some s -> s <> EmptyString ->
  chess_load fen = None ->
  exists c',
    getTopMoves env fen (S n) c = (Throw (InvalidFen fen), c') /\
    searches (world c') = S (searches (world c)) /\
    posts c c'
      (searchLog h fen (Num 15)
         (lateStops (Num 15) (onBestMove terminal (accumulate pre)) post)).
Proof.
  intros Er Hh Hlines Hsilent Hdeep Hterm Hs Hne Hload.
  destruct (analyzePosition_answered env fen (Num 15) (Num 5000) c h pre post terminal
              Er Hh Hlines Hsilent Hdeep Hterm)
    as (c' & Hrun & _ & _ & Hsearches & Hp).
  exists c'. split_and!; try done.
  unfold getTopMoves. cbn [getTopMovesFrom]. unfold mbind at 1, M_bind at 1.
  rewrite Hrun. cbn [snapshot onBestMove bestMove accBestMove]. rewrite Hs.
  replace (Js.truthyStr (Some s)) with true
    by (symmetry; apply truthyStr_nonempty; by exists s).
  by rewrite Hload.
Qed.

Lemma getTopMoves_invalid_fen_witness :
  exists c',
    getTopMoves (chessjs := PawnChess.chess) (Example.engineUp Example.quickSearch)
      Example.pageFen 3 Example.ready = (Throw (InvalidFen Example.pageFen), c') /\
    posted (world c')
    = [(0%nat, PositionFen Example.pageFen); (0%nat, GoDepth (Num 15))].
Proof.
  destruct (@getTopMoves_invalid_fen (Example.engineUp Example.quickSearch)
              PawnChess.chess Example.pageFen 2 Example.ready 0
              ["info depth 10 score cp 35 nodes 1000 pv e2e4 e7e5"] []
              "bestmove e4 ponder e5" "e4") as (c' & Hrun & _ & Hp).
  - reflexivity.
  - reflexivity.
  - reflexivity.
  - repeat constructor.
  - intros [|k] line Hk Hinfo; vm_compute in Hk; [|discriminate].
    injection Hk as <-. reflexivity.
  - reflexivity.
  - reflexivity.
  - discriminate.
  - reflexivity.
  - exists c'. split; [exact Hrun|]. rewrite Hp. reflexivity.
Defined.

(** X9.  In the list that [analyzeGame] returns, the record of index [i]
    holds exactly one search result, and its flags are those that
    [classifyMove] gives the evaluation of that result at move index [i]. *)
Theorem analyzeGame_classifies (env : Env) {chessjs : ChessJs} (pgn : string)
    (c c' : Client) (out : list PositionAnalysis) :
  analyzeGame env pgn c = (Ok out, c') ->
  forall (i : nat) (pa : PositionAnalysis),
    out !! i = Some pa -> classifiedAt i pa.
Proof.
  unfold analyzeGame. intros Hrun.
  destruct (chess_loadPgn pgn) as [[history final]|].
  - apply (analyzeGameFrom_classified env history chess_initial [] c out c');
      [|exact Hrun].
    intros j pa Hj. by rewrite lookup_nil in Hj.
  - injection Hrun as <- _. intros i pa Hi. by rewrite lookup_nil in Hi.
Qed.

Lemma analyzeGame_classifies_witness :
  exists out pa,
    (analyzeGame (chessjs := PawnChess.chess) (Example.engineUp Example.quickSearch)
       "1. e4 e5" Example.ready).1 = Ok out /\
    out !! 1%nat = Some pa /\ classifiedAt 1 pa.
Proof.
  destruct (analyzeGame (chessjs := PawnChess.chess)
              (Example.engineUp Example.quickSearch) "1. e4 e5" Example.ready)
    as [[out|e] c'] eqn:Hrun; [|vm_compute in Hrun; discriminate].
  destruct (out !! 1%nat) as [pa|] eqn:Hpa.
  - exists out, pa. split; [reflexivity|]. split; [exact Hpa|].
    exact (@analyzeGame_classifies (Example.engineUp Example.quickSearch)
             PawnChess.chess "1. e4 e5" Example.ready c' out Hrun 1%nat pa Hpa).
  - vm_compute in Hrun. injection Hrun as <- _. vm_compute in Hpa. discriminate.
Defined.

(** X10.  [analyzeGame] on a ready client, for a record that parses and
    replays from the initial position: it returns after exactly one search
    per ply; every line it posts goes to the instance of the client and is
    the depth 18, a "stop" or a position of the game; the client is not
    initialized again and keeps its fields. *)
Theorem analyzeGame_searches (env : Env) {chessjs : ChessJs} (pgn : string)
    (c : Client) (h : nat) (history : list Move) (final : position)
    (ps : list position) :
  isReady (this c) = true -> engine (this c) = Some h ->
  chess_loadPgn pgn = Some (history, final) ->
  positionsBefore chess_initial history = Some ps ->
  exists out c' new,
    analyzeGame env pgn c = (Ok out, c') /\
    this c' = this c /\ inits (world c') = inits (world c) /\
    searches (world c') = (searches (world c) + length history)%nat /\
    posts c c' new /\
    Forall (fun e => e.1 = h /\
                     (e.2 = GoDepth (Num 18) \/ e.2 = Stop \/
                      exists pos, pos ∈ ps /\ e.2 = PositionFen (chess_fen pos)))
           new.
Proof.
  intros Er Hh Hpgn Hps. unfold analyzeGame. rewrite Hpgn.
  exact (analyzeGameFrom_ready env history 0 chess_initial [] c h ps Er Hh Hps).
Qed.

Lemma analyzeGame_searches_witness :
  exists out c',
    analyzeGame (chessjs := PawnChess.chess) (Example.engineUp Example.quickSearch)
      "1. e4 e5" Example.ready = (Ok out, c') /\
    this c' = this Example.ready /\
    searches (world c') = 2%nat.
Proof.
  destruct (PawnChess.loadPgn "1. e4 e5") as [[history final]|] eqn:Hpgn;
    [|vm_compute in Hpgn; discriminate].
  destruct (positionsBefore (chessjs := PawnChess.chess) PawnChess.initial history)
    as [ps|] eqn:Hps.
  2:{ vm_compute in Hpgn. injection Hpgn as <- _. vm_compute in Hps. discriminate. }
  destruct (@analyzeGame_searches (Example.engineUp Example.quickSearch)
              PawnChess.chess "1. e4 e5" Example.ready 0 history final ps
              eq_refl eq_refl Hpgn Hps)
    as (out & c' & new & Hrun & Hthis & _ & Hs & _).
  exists out, c'. split; [exact Hrun|]. split; [exact Hthis|].
  rewrite Hs. vm_compute in Hpgn. injection Hpgn as <- _. reflexivity.
Defined.

(* --------------------------------------------------------------------- *)
(** *** The tokens of a progress line after "pv" *)
(* --------------------------------------------------------------------- *)

Section PrincipalVariation.

Lemma scanInfo_pv_tail (pre rest : list string) (a : Accum) :
  "pv" ∉ pre ->
  scanInfo (pre ++ "pv" :: rest) a = withPv rest (scanInfo (pre ++ ["pv"]) a).
Proof.
  revert a. induction pre as [|tok pre IH]; intros a Hno; [reflexivity|].
  apply not_elem_of_cons in Hno as [Htok Hno].
  assert (H0 : (pre ++ "pv" :: rest) !! 0%nat = (pre ++ ["pv"]) !! 0%nat)
    by (by destruct pre).
  assert (H1 : forall kind : string,
            (pre ++ ["pv"]) !! 0%nat = Some kind -> kind <> "pv" ->
            (pre ++ "pv" :: rest) !! 1%nat = (pre ++ ["pv"]) !! 1%nat).
  { intros kind Hk Hne. destruct pre as [|p pre]; [cbn in Hk; congruence|].
    by destruct pre. }
  cbn [app scanInfo]. rewrite H0.
  destruct (tok =? "depth")%string; [by rewrite IH|].
  destruct (tok =? "nodes")%string; [by rewrite IH|].
  destruct (tok =? "score")%string.
  - case_bool_decide as Hm; [rewrite (H1 "mate" Hm) by done; by rewrite IH|].
    case_bool_decide as Hc; [rewrite (H1 "cp" Hc) by done; by rewrite IH|].
    by rewrite IH.
  - destruct (String.eqb_spec tok "pv"); [congruence|]. by rewrite IH.
Qed.

End PrincipalVariation.

(** X11.  In a progress line, every token after the first "pv" token
    becomes the principal variation and is read as nothing else: a keyword
    among them ("depth", "nodes", "score") updates no field, and the other
    fields are those of the line cut after "pv". *)
Theorem principal_variation (message : string) (pre rest : list string) (a : Accum) :
  Js.split " " message = pre ++ "pv" :: rest -> "pv" ∉ pre ->
  accPv (onInfo message a) = rest /\
  onInfo message a = withPv rest (scanInfo (pre ++ ["pv"]) a).
Proof.
  intros Hsplit Hno. unfold onInfo. rewrite Hsplit.
  rewrite (scanInfo_pv_tail pre rest a Hno). by split.
Qed.

Lemma principal_variation_witness :
  onInfo "info score cp 12 pv e2e4 depth 30 nodes 7" accum0
  = {| accBestMove := Some EmptyString; accEvaluation := Num (inject_Z 12 / 100);
       accDepthReached := Num 0; accNodes := Num 0;
       accPv := ["e2e4"; "depth"; "30"; "nodes"; "7"]; accMate := None |}.
Proof.
  rewrite (proj2 (principal_variation "info score cp 12 pv e2e4 depth 30 nodes 7"
                    ["info"; "score"; "cp"; "12"]
                    ["e2e4"; "depth"; "30"; "nodes"; "7"] accum0 eq_refl
                    ltac:(vm_compute; intros H; repeat (apply elem_of_cons in H as [H|H];
                            [discriminate|]); by apply elem_of_nil in H))).
  reflexivity.
Defined.

(* --------------------------------------------------------------------- *)
(** *** The registry *)
(* --------------------------------------------------------------------- *)

Section RegistryFacts.
Context (env : Env) {chessjs : ChessJs}.

Lemma initialize_searches (c : Client) :
  searches (world (initialize env c).2) = searches (world c).
Proof.
  unfold initialize. run.
  destruct (stockfishLoads env (inits (world c))); run; [done|].
  by destruct (engine (this c)).
Qed.

(** Where the constructor is always found, a search on a coherent client
    returns. *)
Lemma analyzePosition_loads fen d t (c : Client) :
  (forall k, stockfishLoads env k = true) -> coherent (this c) ->
  exists r c',
    analyzePosition env fen d t c = (Ok r, c') /\
    coherent (this c') /\
    searches (world c') = S (searches (world c)).
Proof.
  intros Hup Hc.
  pose proof (analyzePosition_coherent env fen d t c Hc) as Hc'.
  destruct (isReady (this c)) eqn:Er.
  - destruct (Hc Er) as [h Hh].
    destruct (analyzePosition_ready env fen d t c h Er Hh)
      as (r & c' & new & Hrun & _ & _ & Hs & _).
    rewrite Hrun in Hc' |- *. by eexists _, _.
  - destruct (analyzePosition_initializes env fen d t c Er (Hup _))
      as (r & c' & new & Hrun & _ & _ & Hs & _).
    rewrite Hrun in Hc' |- *. by eexists _, _.
Qed.

(** [getEngine] on a coherent registry. *)
Lemma getEngine_coherent (ver : string) (pool : Pool) :
  poolCoherent pool ->
  exists pool1 e,
    MultiVersionStockfish.getEngine env ver pool = (Ok tt, pool1) /\
    engines pool1 !! ver = Some e /\
    poolCoherent pool1 /\
    searches (poolWorld pool1) = searches (poolWorld pool) /\
    (forall v, is_Some (engines pool !! v) -> is_Some (engines pool1 !! v)).
Proof.
  intros Hpool. unfold MultiVersionStockfish.getEngine.
  destruct (engines pool !! ver) as [e|] eqn:E; [by exists pool, e|].
  set (c0 := {| this := newStockfishEngine ver; world := poolWorld pool |}).
  pose proof (initialize_coherent env c0) as Hc.
  pose proof (initialize_searches c0) as Hs.
  destruct (initialize_returns env c0) as [c' Hrun]. rewrite Hrun in Hc, Hs |- *.
  eexists _, (this c'). split; [reflexivity|]. cbn. split_and!.
  - apply lookup_insert_eq.
  - by apply map_Forall_insert_2.
  - exact Hs.
  - intros v Hv. destruct (decide (ver = v)) as [<-|Hne].
    + rewrite lookup_insert_eq. by eexists.
    + by rewrite lookup_insert_ne.
Qed.

Lemma compareVersionsFrom_all fen (versions : list string)
    (results : gmap string AnalysisResult) (pool : Pool) :
  (forall k, stockfishLoads env k = true) -> poolCoherent pool ->
  exists res pool',
    MultiVersionStockfish.compareVersionsFrom env fen versions results pool
    = (Ok res, pool') /\
    (forall v, is_Some (res !! v) <-> is_Some (results !! v) \/ v ∈ versions) /\
    searches (poolWorld pool') = (searches (poolWorld pool) + length versions)%nat /\
    (forall v, is_Some (engines pool !! v) \/ v ∈ versions ->
               is_Some (engines pool' !! v)) /\
    poolCoherent pool'.
Proof.
  intros Hup. revert results pool.
  induction versions as [|ver versions IH]; intros results pool Hpool.
  - exists results, pool. cbn. split_and!; [done | | lia | | done].
    + intros v. split; [by left | intros [H|H]; [done | by apply elem_of_nil in H]].
    + intros v [H|H]; [done | by apply elem_of_nil in H].
  - cbn [MultiVersionStockfish.compareVersionsFrom]. unfold mbind, M_bind.
    destruct (getEngine_coherent ver pool Hpool)
      as (pool1 & e & -> & He & Hpool1 & Hs1 & Hkeep1).
    unfold onEngine. rewrite He.
    destruct (analyzePosition_loads fen (Num 20) (Num 10000)
                {| this := e; world := poolWorld pool1 |} Hup)
      as (r & c2 & -> & Hc2 & Hs2); [exact (Hpool1 ver e He)|].
    set (pool2 := {| engines := <[ver := this c2]> (engines pool1);
                     poolWorld := world c2 |}).
    destruct (IH (<[ver := r]> results) pool2) as (res & pool' & -> & Hdom & Hs & Hkeep & Hpool').
    { by apply map_Forall_insert_2. }
    exists res, pool'. split_and!; try done.
    + intros v. rewrite Hdom, elem_of_cons.
      destruct (decide (ver = v)) as [<-|Hne].
      * rewrite lookup_insert_eq. split; [by right; left | by left; eexists].
      * rewrite lookup_insert_ne by done. split; intros [H|H]; auto.
        destruct H as [->|H]; [done | by right].
    + rewrite Hs. subst pool2. cbn in *. lia.
    + intros v Hv. apply Hkeep. subst pool2. cbn.
      destruct (decide (ver = v)) as [<-|Hne].
      * left. rewrite lookup_insert_eq. by eexists.
      * rewrite lookup_insert_ne by done.
        destruct Hv as [Hv|Hv]; [left; by apply Hkeep1|].
        apply elem_of_cons in Hv as [->|Hv]; [done | by right].
Qed.

(** The loop of [compareVersions] leaves the results of the versions that
    it does not visit. *)
Lemma compareVersionsFrom_keeps fen (versions : list string)
    (results res : gmap string AnalysisResult) (pool pool' : Pool) (v : string) :
  MultiVersionStockfish.compareVersionsFrom env fen versions results pool
  = (Ok res, pool') ->
  v ∉ versions -> res !! v = results !! v.
Proof.
  revert results pool. induction versions as [|ver versions IH];
    intros results pool Hrun Hv.
  - cbn in Hrun. by injection Hrun as <- _.
  - apply not_elem_of_cons in Hv as [Hne Hv].
    cbn [MultiVersionStockfish.compareVersionsFrom] in Hrun.
    unfold mbind, M_bind in Hrun.
    destruct (MultiVersionStockfish.getEngine env ver pool) as [[[]|e] pool1];
      [|discriminate].
    destruct (onEngine ver (analyzePosition env fen (Num 20) (Num 10000)) pool1)
      as [[r|e] pool2]; [|discriminate].
    rewrite (IH _ _ Hrun Hv). by rewrite lookup_insert_ne.
Qed.

(** The result that the loop keeps for a version is that of the search made
    at the last place of the version in the list. *)
Lemma compareVersionsFrom_last fen (front back : list string) (ver : string)
    (results res : gmap string AnalysisResult) (pool pool' : Pool) :
  MultiVersionStockfish.compareVersionsFrom env fen (front ++ ver :: back) results pool
  = (Ok res, pool') ->
  ver ∉ back ->
  exists r,
    res !! ver = Some r /\
    (onEngine ver (analyzePosition env fen (Num 20) (Num 10000))
       (MultiVersionStockfish.getEngine env ver
          (MultiVersionStockfish.compareVersionsFrom env fen front results pool).2).2).1
    = Ok r.
Proof.
  revert results pool. induction front as [|v front IH]; intros results pool Hrun Hv.
  - cbn [app MultiVersionStockfish.compareVersionsFrom] in Hrun |- *.
    unfold mbind, M_bind, mret, M_ret in Hrun |- *. cbn [snd].
    destruct (MultiVersionStockfish.getEngine env ver pool) as [[[]|e] pool1];
      [|discriminate].
    cbn [snd].
    destruct (onEngine ver (analyzePosition env fen (Num 20) (Num 10000)) pool1)
      as [[r|e] pool2]; [|discriminate].
    exists r. split; [|done].
    rewrite (compareVersionsFrom_keeps _ _ _ _ _ _ ver Hrun Hv).
    apply lookup_insert_eq.
  - cbn [app MultiVersionStockfish.compareVersionsFrom] in Hrun |- *.
    unfold mbind, M_bind in Hrun |- *.
    destruct (MultiVersionStockfish.getEngine env v pool) as [[[]|e] pool1];
      [|discriminate].
    destruct (onEngine v (analyzePosition env fen (Num 20) (Num 10000)) pool1)
      as [[r|e] pool2]; [|discriminate].
    exact (IH _ _ Hrun Hv).
Qed.

(** The world after the visit of [terminateAll]. *)
Lemma terminateAll_world (pool : Pool) (order : list string) (wd : World) :
  let wd' :=
    fold_left
      (fun wd ver =>
         match engines pool !! ver with
         | Some e => world (terminate {| this := e; world := wd |}).2
         | None => wd
         end)
      order wd in
  posted wd' = posted wd ++ quitLines pool order /\
  inits wd' = inits wd /\ searches wd' = searches wd /\
  clockReads wd' = clockReads wd /\ randomReads wd' = randomReads wd.
Proof.
  revert wd. induction order as [|ver order IH]; intros wd.
  - cbn. by rewrite app_nil_r.
  - cbn [fold_left]. unfold quitLines. cbn [omap list_omap].
    fold (quitLines pool order).
    destruct (engines pool !! ver) as [e|] eqn:E; cbn [mbind option_bind].
    + destruct (engine e) as [h|] eqn:Hh; cbn [mbind option_bind].
      * assert (Hstep : world (terminate {| this := e; world := wd |}).2
                        = {| posted := posted wd ++ [(h, Quit)]; inits := inits wd;
                             searches := searches wd; clockReads := clockReads wd;
                             randomReads := randomReads wd |})
          by (unfold terminate; run; by rewrite Hh).
        rewrite Hstep.
        destruct (IH {| posted := posted wd ++ [(h, Quit)]; inits := inits wd;
                        searches := searches wd; clockReads := clockReads wd;
                        randomReads := randomReads wd |})
          as (Hp & Hi & Hs & Hc & Hr).
        cbn [posted inits searches clockReads randomReads] in Hp, Hi, Hs, Hc, Hr.
        rewrite Hp, <- app_assoc. by split_and!.
      * assert (Hstep : world (terminate {| this := e; world := wd |}).2 = wd)
          by (unfold terminate; run; by rewrite Hh).
        rewrite Hstep. apply IH.
    + apply IH.
Qed.

End RegistryFacts.

(** X12.  Calls of [getEngine] made one after the other, each after the
    one before has returned (calls that overlap, each awaiting [initialize]
    between the test and the registration, are another matter): the call
    never throws and the version is registered afterwards; a later call for
    the same version finds the object registered, so it changes nothing and
    attempts no initialization whatever the environment is then; the other
    versions are untouched.  A failed initialization is registered too: the
    object without instance stays in the registry, and nothing has been
    posted. *)
Theorem getEngine_caches (env : Env) (ver : string) (pool : Pool) :
  let pool1 := (MultiVersionStockfish.getEngine env ver pool).2 in
  (MultiVersionStockfish.getEngine env ver pool).1 = Ok tt /\
  is_Some (engines pool1 !! ver) /\
  (forall env' : Env, MultiVersionStockfish.getEngine env' ver pool1 = (Ok tt, pool1)) /\
  (forall ver' : string, ver' <> ver -> engines pool1 !! ver' = engines pool !! ver') /\
  (engines pool !! ver = None ->
   stockfishLoads env (inits (poolWorld pool)) = false ->
   engines pool1 !! ver = Some (newStockfishEngine ver) /\
   posted (poolWorld pool1) = posted (poolWorld pool)).
Proof.
  unfold MultiVersionStockfish.getEngine.
  destruct (engines pool !! ver) as [e|] eqn:E.
  - cbn. rewrite E. by split_and!.
  - destruct (initialize_returns env
                {| this := newStockfishEngine ver; world := poolWorld pool |})
      as [c' Hrun].
    rewrite Hrun. cbn. rewrite lookup_insert_eq. split_and!; try done.
    + intros ver' Hne. by rewrite lookup_insert_ne.
    + intros _ Hdown. revert Hrun. unfold initialize. run. rewrite Hdown. run.
      cbn. by intros [= <-].
Qed.

Lemma getEngine_caches_witness :
  engines (MultiVersionStockfish.getEngine Example.engineDown "17" pool0).2 !! "17"
  = Some (newStockfishEngine "17").
Proof.
  apply (getEngine_caches Example.engineDown "17" pool0); reflexivity.
Defined.

(** X13.  Where the constructor is always found and every registered engine
    is coherent, [compareVersions] returns a map that has a result for
    exactly the versions asked for; it makes one search per element of the
    list, registers every version asked for, and leaves the registry
    coherent.  The result kept for a version is that of the search made at
    its last place in the list: a version listed twice is searched twice,
    and the result of its second search replaces that of the first. *)
Theorem compareVersions_all (env : Env) (fen : string) (versions : list string)
    (pool : Pool) :
  (forall k, stockfishLoads env k = true) -> poolCoherent pool ->
  exists results pool',
    MultiVersionStockfish.compareVersions env fen versions pool = (Ok results, pool') /\
    (forall v, is_Some (results !! v) <-> v ∈ versions) /\
    searches (poolWorld pool') = (searches (poolWorld pool) + length versions)%nat /\
    (forall v, v ∈ versions -> is_Some (engines pool' !! v)) /\
    poolCoherent pool' /\
    (forall (front back : list string) (ver : string),
       versions = front ++ ver :: back -> ver ∉ back ->
       exists r,
         results !! ver = Some r /\
         (onEngine ver (analyzePosition env fen (Num 20) (Num 10000))
            (MultiVersionStockfish.getEngine env ver
               (MultiVersionStockfish.compareVersions env fen front pool).2).2).1
         = Ok r).
Proof.
  intros Hup Hpool. unfold MultiVersionStockfish.compareVersions.
  destruct (compareVersionsFrom_all env fen versions ∅ pool Hup Hpool)
    as (res & pool' & Hrun & Hdom & Hs & Hkeep & Hpool').
  exists res, pool'. split_and!; try done.
  - intros v. rewrite Hdom, lookup_empty. split; [|by right].
    intros [[x Hx]|H]; [discriminate | done].
  - intros v Hv. apply Hkeep. by right.
  - intros front back ver -> Hver.
    exact (compareVersionsFrom_last env fen front back ver ∅ res pool pool' Hrun Hver).
Qed.

Lemma compareVersions_all_witness :
  exists results pool',
    MultiVersionStockfish.compareVersions Example.engineVarying
      PawnChess.startFen ["17"; "16"; "17"] Example.twoEngines = (Ok results, pool') /\
    searches (poolWorld pool') = 3%nat /\
    bestMove <$> results !! "17" = Some (Some "c4") /\
    bestMove <$> results !! "16" = Some (Some "d4").
Proof.
  destruct (compareVersions_all Example.engineVarying
              PawnChess.startFen ["17"; "16"; "17"] Example.twoEngines)
    as (results & pool' & Hrun & _ & Hs & _ & _ & Hlast).
  - reflexivity.
  - unfold poolCoherent, Example.twoEngines. cbn [engines].
    apply map_Forall_insert_2; [intros _; by eexists|].
    apply map_Forall_insert_2; [discriminate|]. apply map_Forall_empty.
  - exists results, pool'. split; [exact Hrun|]. split; [exact Hs|].
    destruct (Hlast ["17"; "16"] [] "17" eq_refl) as (r17 & -> & H17);
      [apply not_elem_of_nil|].
    destruct (Hlast ["17"] ["17"] "16" eq_refl) as (r16 & -> & H16).
    { intros H. apply list_elem_of_singleton in H. discriminate. }
    vm_compute in H17. injection H17 as <-.
    vm_compute in H16. injection H16 as <-.
    split; reflexivity.
Defined.

(** X14.  [terminateAll] (and [GeminiChessAI.terminate], which calls it)
    never throws and empties the registry; in the order of the visit it posts
    one "quit" to each registered engine that holds an instance, and nothing
    else; when the visit names every key, every held instance gets its
    "quit".  A second call posts nothing, and the next [getEngine] builds a
    new engine object and initializes it. *)
Theorem terminateAll_quits (env : Env) (order : list string) (pool : Pool) :
  exists pool',
    MultiVersionStockfish.terminateAll order pool = (Ok tt, pool') /\
    GeminiChessAI.terminate order pool = (Ok tt, pool') /\
    engines pool' = ∅ /\
    posted (poolWorld pool') = posted (poolWorld pool) ++ quitLines pool order /\
    inits (poolWorld pool') = inits (poolWorld pool) /\
    searches (poolWorld pool') = searches (poolWorld pool) /\
    (enumerates order pool ->
     forall ver e h, engines pool !! ver = Some e -> engine e = Some h ->
                     (h, Quit) ∈ quitLines pool order) /\
    (forall order' : list string,
       MultiVersionStockfish.terminateAll order' pool' = (Ok tt, pool')) /\
    (forall ver : string,
       inits (poolWorld (MultiVersionStockfish.getEngine env ver pool').2)
       = S (inits (poolWorld pool))).
Proof.
  unfold GeminiChessAI.terminate, MultiVersionStockfish.terminateAll.
  destruct (terminateAll_world pool order (poolWorld pool))
    as (Hp & Hi & Hs & Hc & Hr).
  eexists. split; [reflexivity|]. cbn [engines poolWorld].
  split_and!; try done.
  - intros [_ Hall] ver e h He Hh. unfold quitLines.
    apply list_elem_of_omap. exists ver. split.
    + apply Hall. by eexists.
    + by rewrite He; cbn; rewrite Hh.
  - intros order'. f_equal. f_equal.
    induction order' as [|ver order' IH]; [done|].
    cbn [fold_left]. by rewrite lookup_empty.
  - intros ver. unfold MultiVersionStockfish.getEngine. cbn [engines poolWorld].
    rewrite lookup_empty.
    set (c0 := {| this := _; world := _ |}).
    assert (Hinit : inits (world (initialize env c0).2) = S (inits (world c0))).
    { unfold initialize. run.
      destruct (stockfishLoads env (inits (world c0))); run; [done|].
      by destruct (engine (this c0)). }
    destruct (initialize env c0) as [[[]|e] c']; cbn in *; by rewrite Hinit, <- Hi.
Qed.

Lemma terminateAll_quits_witness :
  exists pool',
    MultiVersionStockfish.terminateAll ["17"; "16"] Example.twoEngines = (Ok tt, pool') /\
    engines pool' = ∅ /\
    posted (poolWorld pool') = [(0%nat, Quit)].
Proof.
  destruct (terminateAll_quits Example.engineDown ["17"; "16"] Example.twoEngines)
    as (pool' & Hrun & _ & Hempty & Hposted & _).
  exists pool'. split; [exact Hrun|]. split; [exact Hempty|].
  rewrite Hposted. reflexivity.
Defined.

(* --------------------------------------------------------------------- *)
(** *** The suggestion for a position *)
(* --------------------------------------------------------------------- *)

Section SuggestionFacts.
Context (env : Env) {chessjs : ChessJs}.

Lemma getEngine_searches (ver : string) (pool : Pool) :
  searches (poolWorld (MultiVersionStockfish.getEngine env ver pool).2)
  = searches (poolWorld pool).
Proof.
  unfold MultiVersionStockfish.getEngine.
  destruct (engines pool !! ver); [done|].
  pose proof (initialize_searches env
                {| this := newStockfishEngine ver; world := poolWorld pool |}) as Hs.
  by destruct (initialize env _) as [[[]|e] c'].
Qed.

(** The fallback returns exactly when chess.js accepts the FEN, and makes no
    search. *)
Lemma generateFallbackAnalysis_outcome (fen : string) (pool : Pool) :
  exists out pool',
    GeminiChessAI.generateFallbackAnalysis env fen pool = (out, pool') /\
    searches (poolWorld pool') = searches (poolWorld pool) /\
    match chess_load fen with
    | Some _ => exists r, out = Ok r
    | None => out = Throw (InvalidFen fen)
    end.
Proof.
  unfold GeminiChessAI.generateFallbackAnalysis.
  destruct (chess_load fen) as [chess|].
  - unfold mbind, M_bind, mret, M_ret, GeminiChessAI.Math_random.
    eexists _, _. split; [reflexivity|]. split; [done | by eexists].
  - by eexists _, _.
Qed.

(** The index that the fallback draws is one of the first five legal
    moves. *)
Lemma random_index (rnd : Q) (len : nat) :
  (0 <= rnd < 1)%Q -> (0 < len)%nat ->
  let i := Qfloor (rnd * inject_Z (Z.min (Z.of_nat len) 5)) in
  0 <= i /\ i < Z.of_nat len /\ i < 5.
Proof.
  intros [Hlo Hhi] Hlen. cbv zeta.
  set (m := Z.min (Z.of_nat len) 5).
  assert (Hm : 0 < m) by (subst m; lia).
  assert (HmQ : (inject_Z 0 < inject_Z m)%Q) by (rewrite <- Zlt_Qlt; exact Hm).
  change (inject_Z 0) with 0%Q in HmQ.
  assert (H0 : 0 <= Qfloor (rnd * inject_Z m)).
  { assert (Hle : (inject_Z 0 <= rnd * inject_Z m)%Q)
      by (change (inject_Z 0) with 0%Q; nra).
    apply Qfloor_resp_le in Hle. by rewrite Qfloor_Z in Hle. }
  assert (H1 : Qfloor (rnd * inject_Z m) < m).
  { rewrite Zlt_Qlt. eapply Qle_lt_trans; [apply Qfloor_le|]. nra. }
  subst m. lia.
Qed.

End SuggestionFacts.

(** X15.  [GeminiChessAI.analyzePosition] returns a suggestion exactly when
    chess.js accepts the FEN, whatever the engine does: any failure of the
    engine part is caught and replaced by the fallback.  For a text that
    chess.js rejects the call is rejected with the error of [new Chess(fen)].
    In both cases it makes at most four searches. *)
Theorem suggestion_iff_valid_fen (env : Env) {chessjs : ChessJs} (fen : string)
    (d : number) (ver : string) (pool : Pool) :
  exists out pool',
    GeminiChessAI.analyzePosition env fen d ver pool = (out, pool') /\
    (searches (poolWorld pool') <= searches (poolWorld pool) + 4)%nat /\
    match chess_load fen with
    | Some _ => exists r, out = Ok r
    | None => out = Throw (InvalidFen fen)
    end.
Proof.
  unfold GeminiChessAI.analyzePosition, try_catch, mbind, M_bind.
  pose proof (getEngine_searches env ver pool) as Hs1.
  destruct (getEngine_registers env ver pool) as (pool1 & e & Hget & He).
  rewrite Hget in Hs1 |- *. cbn [snd] in Hs1.
  unfold onEngine. rewrite He.
  destruct (analyzePosition env fen d (Num 10000)
              {| this := e; world := poolWorld pool1 |}) as [[r|err] c1] eqn:Hsearch;
    destruct (analyzePosition_effects env _ _ _ _ _ _ Hsearch) as (Hs2 & _ & _);
    cbn [world] in Hs2.
  2:{ destruct (generateFallbackAnalysis_outcome env fen
                  {| engines := <[ver := this c1]> (engines pool1);
                     poolWorld := world c1 |})
        as (out & pool' & Hrun & Hs & Hout).
      exists out, pool'. split; [exact Hrun|]. split; [cbn in Hs; lia | exact Hout]. }
  cbn [engines poolWorld]. rewrite lookup_insert_eq.
  destruct (getTopMoves env fen 3 {| this := this c1; world := world c1 |})
    as [[top|err] c2] eqn:Htop;
    destruct (getTopMovesFrom_bounded env _ _ _ _ _ _ Htop) as (Hs3 & _ & _);
    cbn [world] in Hs3.
  2:{ destruct (generateFallbackAnalysis_outcome env fen
                  {| engines := <[ver := this c2]> (<[ver := this c1]> (engines pool1));
                     poolWorld := world c2 |})
        as (out & pool' & Hrun & Hs & Hout).
      exists out, pool'. split; [exact Hrun|]. split; [cbn in Hs; lia | exact Hout]. }
  destruct (chess_load fen) as [chess|] eqn:Hload.
  - eexists _, _. split; [reflexivity|]. split; [cbn; lia | by eexists].
  - unfold throw.
    destruct (generateFallbackAnalysis_outcome env fen
                {| engines := <[ver := this c2]> (<[ver := this c1]> (engines pool1));
                   poolWorld := world c2 |})
      as (out & pool' & Hrun & Hs & Hout).
    rewrite Hload in Hout.
    exists out, pool'. split; [exact Hrun|]. split; [cbn in Hs; lia | exact Hout].
Qed.



(** X17.  The fallback suggestion for a valid FEN, [Math.random()] giving a
    number of [0, 1): it reads the random source once and changes nothing
    else; the move is one of the first five legal moves, or "e2e4" when the
    position has no legal move; the alternatives are the second to fourth
    legal moves, at most three, each with evaluation 0; no pattern is
    reported. *)
Theorem fallback_suggestion (env : Env) {chessjs : ChessJs} (fen : string)
    (chess : position) (pool : Pool) :
  chess_load fen = Some chess ->
  (0 <= mathRandom env (randomReads (poolWorld pool)) < 1)%Q ->
  exists r,
    GeminiChessAI.generateFallbackAnalysis env fen pool
    = (Ok r, {| engines := engines pool; poolWorld := tickRandom (poolWorld pool) |}) /\
    (chess_moves chess = [] -> AIMoveSuggestion.move r = Some "e2e4") /\
    (chess_moves chess <> [] ->
     exists (i : nat) (mv : Move),
       (i < 5)%nat /\ chess_moves chess !! i = Some mv /\
       AIMoveSuggestion.move r = Some (san mv)) /\
    map AIMoveSuggestion.alt_move (AIMoveSuggestion.alternatives r)
    = map (fun mv => Some (san mv)) (take 3 (drop 1 (chess_moves chess))) /\
    Forall (fun alt => AIMoveSuggestion.alt_evaluation alt = Num 0)
           (AIMoveSuggestion.alternatives r) /\
    (length (AIMoveSuggestion.alternatives r) <= 3)%nat /\
    AIMoveSuggestion.patterns r = [].
Proof.
  intros Hload Hrnd. unfold GeminiChessAI.generateFallbackAnalysis. rewrite Hload.
  unfold mbind, M_bind, mret, M_ret, GeminiChessAI.Math_random.
  eexists. split; [reflexivity|].
  cbn [AIMoveSuggestion.move AIMoveSuggestion.alternatives AIMoveSuggestion.patterns].
  split_and!.
  - intros ->. cbn [length].
    assert (Hi : Qfloor (mathRandom env (randomReads (poolWorld pool))
                         * inject_Z (Z.min (Z.of_nat 0) 5)) = 0).
    { rewrite <- (Qfloor_Z 0). apply Qfloor_comp.
      change (Z.min (Z.of_nat 0) 5) with 0. change (inject_Z 0) with 0%Q. ring. }
    by rewrite Hi.
  - intros Hne.
    destruct (random_index (mathRandom env (randomReads (poolWorld pool)))
                (length (chess_moves chess)) Hrnd) as (H0 & H1 & H2).
    { destruct (chess_moves chess); [done | cbn; lia]. }
    set (i := Qfloor _) in *.
    destruct (lookup_lt_is_Some_2 (chess_moves chess) (Z.to_nat i)) as [mv Hmv]; [lia|].
    exists (Z.to_nat i), mv. split; [lia|]. split; [exact Hmv|].
    unfold GeminiChessAI.at_index. destruct (Z.ltb_spec i 0); [lia|].
    by rewrite Hmv.
  - by rewrite map_map.
  - apply Forall_map. by apply Forall_true.
  - rewrite length_map, length_take. lia.
  - reflexivity.
Qed.

Lemma fallback_suggestion_witness :
  exists r pool',
    GeminiChessAI.generateFallbackAnalysis (chessjs := PawnChess.chess)
      Example.engineDown PawnChess.startFen pool0 = (Ok r, pool') /\
    (length (AIMoveSuggestion.alternatives r) <= 3)%nat.
Proof.
  destruct (PawnChess.load PawnChess.startFen) as [chess|] eqn:Hload;
    [|vm_compute in Hload; discriminate].
  destruct (@fallback_suggestion Example.engineDown PawnChess.chess
              PawnChess.startFen chess pool0 Hload)
    as (r & Hrun & _ & _ & _ & _ & Hlen & _).
  - split; vm_compute; [discriminate | reflexivity].
  - eexists r, _. split; [exact Hrun | exact Hlen].
Defined.


(* --------------------------------------------------------------------- *)
(** *** From the score of the engine to the flags of a record *)
(* --------------------------------------------------------------------- *)

Section FlagFacts.
Local Open Scope Q_scope.

Lemma classifyMove_blunder (v : Q) (i : nat) :
  3 <= Qabs v -> flagsSet (classifyMove (Num v) i) = [Blunder].
Proof.
  intros Hv. unfold classifyMove; cbn [Js.abs].
  destruct (Js.gtb (Js.ofNat i) (Num 10)); thresholds; cbn; try reflexivity; lra.
Qed.

Lemma classifyMove_not_blunder (v : Q) (i : nat) :
  Qabs v < 3 -> Blunder ∉ flagsSet (classifyMove (Num v) i).
Proof.
  intros Hv. unfold classifyMove; cbn [Js.abs].
  destruct (Js.gtb (Js.ofNat i) (Num 10)); thresholds; cbn; try lra;
    intros Hin; repeat (apply elem_of_cons in Hin as [Hin|Hin]; [discriminate|]);
    by apply elem_of_nil in Hin.
Qed.

(** The absolute value of a score in centipawns, in pawns. *)
Lemma Qabs_centipawns (n : Z) :
  Qabs (inject_Z n / 100) == inject_Z (Z.abs n) / 100.
Proof.
  unfold Qdiv. rewrite Qabs_Qmult. reflexivity.
Qed.

End FlagFacts.



(** X20.  From the score of a progress line to the flag of the record made
    of its evaluation: a line that announces a mate in [n] moves, for either
    side and [|n| <= 9997], gives an evaluation that [classifyMove] flags as
    a blunder; a score of [n] centipawns is flagged as a blunder exactly when
    [|n| >= 300]. *)
Theorem score_classification (message : string) (a : Accum) (i : nat) (n : Z) :
  (hasScoreField message "mate" n -> (-9997 <= n <= 9997)%Z ->
   flagsSet (classifyMove (accEvaluation (onInfo message a)) i) = [Blunder]) /\
  (hasScoreField message "cp" n ->
   ((300 <= Z.abs n)%Z ->
    flagsSet (classifyMove (accEvaluation (onInfo message a)) i) = [Blunder]) /\
   ((Z.abs n < 300)%Z ->
    Blunder ∉ flagsSet (classifyMove (accEvaluation (onInfo message a)) i))).
Proof.
  split.
  - intros (pre & t & post & Hsplit & Hpv & Hscore & Hparse) Hn.
    unfold onInfo. rewrite Hsplit.
    destruct (scanInfo_score pre "mate" t post a n Hpv Hscore Hparse) as [_ Hmate].
    destruct (Hmate eq_refl) as [-> _].
    apply classifyMove_blunder.
    destruct (mate_evaluation n _ eq_refl) as (Habs & _); [lia|].
    rewrite Habs.
    assert (Hle : (Z.abs n <= 9997)%Z) by lia.
    rewrite Zle_Qle in Hle. change (inject_Z 9997) with 9997%Q in Hle. lra.
  - intros (pre & t & post & Hsplit & Hpv & Hscore & Hparse).
    unfold onInfo. rewrite Hsplit.
    destruct (scanInfo_score pre "cp" t post a n Hpv Hscore Hparse) as [Hcp _].
    rewrite (Hcp eq_refl). split; intros Hn.
    + apply classifyMove_blunder. rewrite Qabs_centipawns.
      rewrite Zle_Qle in Hn. change (inject_Z 300) with 300%Q in Hn.
      apply Qle_shift_div_l; lra.
    + apply classifyMove_not_blunder. rewrite Qabs_centipawns.
      rewrite Zlt_Qlt in Hn. change (inject_Z 300) with 300%Q in Hn.
      apply Qlt_shift_div_r; lra.
Qed.

Lemma score_classification_witness :
  flagsSet (classifyMove
              (accEvaluation (onInfo "info depth 12 score mate 3 nodes 50 pv e2e4" accum0))
              0)
  = [Blunder].
Proof.
  apply (proj1 (score_classification "info depth 12 score mate 3 nodes 50 pv e2e4"
                  accum0 0 3)); [|lia].
  exists ["info"; "depth"; "12"], "3", ["nodes"; "50"; "pv"; "e2e4"].
  split; [reflexivity|].
  split_and!; [| |reflexivity];
    intros H; repeat (apply elem_of_cons in H as [H|H]; [discriminate|]);
    by apply elem_of_nil in H.
Defined.

(* --------------------------------------------------------------------- *)
(** *** Reports of games, statistics and the opening book *)
(* --------------------------------------------------------------------- *)

Section ReportFacts.
Context (env : Env) {chessjs : ChessJs}.

Implicit Types (c : Client) (history : list Move) (chess : position).

(** The records that the loop of the fallback report adds are
    placeholders. *)
Lemma fallbackMovesFrom_placeholders history chess acc out :
  Forall placeholder acc ->
  GeminiChessAI.fallbackMovesFrom history chess acc = Ok out ->
  Forall placeholder out.
Proof.
  revert chess acc. induction history as [|mv history IH]; intros chess acc Hacc Hrun.
  - cbn in Hrun. by injection Hrun as <-.
  - cbn [GeminiChessAI.fallbackMovesFrom] in Hrun.
    destruct (chess_move chess (san mv)) as [chess'|]; [|discriminate].
    eapply IH; [|exact Hrun].
    apply Forall_app. split; [done|]. by repeat constructor.
Qed.

End ReportFacts.

Section StatisticsFacts.
Local Open Scope Q_scope.


Lemma openingBook_range (k source : string) (q : Q) :
  GeminiChessAI.openingBook !! k = Some (source, q) -> 0.72 <= q <= 0.95.
Proof.
  intros Hk. apply elem_of_list_to_map_2 in Hk.
  repeat (apply elem_of_cons in Hk as [Hk|Hk];
          [injection Hk as _ _ ->; split; unfold Qle; cbn; lia|]).
  by apply elem_of_nil in Hk.
Qed.

End StatisticsFacts.



(** X22.  [getBookMoves] is rejected for a text that chess.js rejects.  For
    a valid FEN it returns at most three entries; each is a legal move of the
    position, written as its two squares, that the opening book lists, with
    the source and the confidence of the book, a number between 0.72 and
    0.95. *)
Theorem getBookMoves_legal {chessjs : ChessJs} (fen : string) :
  match chess_load fen with
  | None => GeminiChessAI.getBookMoves fen = Throw (InvalidFen fen)
  | Some chess =>
      exists bms,
        GeminiChessAI.getBookMoves fen = Ok bms /\
        (length bms <= 3)%nat /\
        Forall
          (fun bm =>
             (exists mv, mv ∈ chess_moves chess /\
                         BookMove.move bm = from mv +:+ to mv) /\
             exists q : Q,
               GeminiChessAI.openingBook !! BookMove.move bm
               = Some (BookMove.source bm, q) /\
               BookMove.confidence bm = Num q /\ (0.72 <= q <= 0.95)%Q)
          bms
  end.
Proof.
  unfold GeminiChessAI.getBookMoves.
  destruct (chess_load fen) as [chess|]; [|done].
  eexists. split; [reflexivity|]. split; [rewrite length_take; lia|].
  apply Forall_take, Forall_forall. intros bm Hbm.
  apply list_elem_of_omap in Hbm as (mv & Hmv & Hbook).
  destruct (GeminiChessAI.openingBook !! (from mv +:+ to mv))
    as [[source q]|] eqn:Hk; [|discriminate].
  injection Hbook as <-. cbn. split; [by exists mv|].
  exists q. split; [done|]. split; [done|]. by eapply openingBook_range.
Qed.

(** X23.  What the fallback report of a game says, whenever it is produced:
    both accuracies are 50 and no critical moment is counted, whatever the
    moves are; every record is without flag and holds one result that names
    the move played as best move and as principal variation, with
    evaluation 0; the registry and the world are left as they were. *)
Theorem fallback_report {chessjs : ChessJs} (pgn : string) (pool pool' : Pool)
    (r : GameAnalysis.t) :
  GeminiChessAI.generateFallbackGameAnalysis pgn pool = (Ok r, pool') ->
  pool' = pool /\
  GameAnalysis.whiteAccuracy (GameAnalysis.summary r) = Num 50 /\
  GameAnalysis.blackAccuracy (GameAnalysis.summary r) = Num 50 /\
  GameAnalysis.criticalMoments (GameAnalysis.summary r) = 0%nat /\
  Forall placeholder (GameAnalysis.moves r) /\
  Forall (fun pa => accurate pa = true) (GameAnalysis.moves r).
Proof.
  unfold GeminiChessAI.generateFallbackGameAnalysis.
  destruct (chess_loadPgn pgn) as [[history final]|].
  - destruct (GeminiChessAI.fallbackMovesFrom history chess_initial []) as [out|e] eqn:Hrun;
      [|discriminate].
    intros [= <- <-]. cbn. split_and!; try done.
    + by eapply fallbackMovesFrom_placeholders.
    + eapply Forall_impl; [by eapply fallbackMovesFrom_placeholders|].
      intros pa [Hflags _]. unfold accurate. by rewrite Hflags.
  - intros [= <- <-]. cbn. by split_and!.
Qed.

Lemma fallback_report_witness :
  exists r,
    GeminiChessAI.generateFallbackGameAnalysis (chessjs := PawnChess.chess)
      "1. e4 e5" pool0 = (Ok r, pool0) /\
    GameAnalysis.whiteAccuracy (GameAnalysis.summary r) = Num 50 /\
    Forall placeholder (GameAnalysis.moves r).
Proof.
  destruct (GeminiChessAI.generateFallbackGameAnalysis (chessjs := PawnChess.chess)
              "1. e4 e5" pool0) as [[r|e] pool'] eqn:Hrun;
    [|vm_compute in Hrun; discriminate].
  destruct (@fallback_report PawnChess.chess "1. e4 e5" pool0 pool' r Hrun)
    as (-> & Hwhite & _ & _ & Hmoves & _).
  exists r. split; [reflexivity|]. split; [exact Hwhite | exact Hmoves].
Defined.

(** X24.  A game record that parses but does not replay from the initial
    position (chess.js accepts records that start from a set-up position;
    the program replays every record from [new Chess()]) makes
    [StockfishEngine.analyzeGame] throw; [GeminiChessAI.analyzeGame] catches
    that, and its fallback throws in turn: the call is rejected with the
    error of [chess.move] for a move of the record. *)
Theorem analyzeGame_unreplayable (env : Env) {chessjs : ChessJs} (pgn : string)
    (ver : string) (pool : Pool) (history : list Move) (final : position) :
  chess_loadPgn pgn = Some (history, final) ->
  positionsBefore chess_initial history = None ->
  (forall c : Client, exists e c', analyzeGame env pgn c = (Throw e, c')) /\
  exists mv pool',
    mv ∈ history /\
    GeminiChessAI.analyzeGame env pgn ver pool = (Throw (InvalidMove (san mv)), pool').
Proof.
  intros Hpgn Hps. split.
  - intros c. unfold analyzeGame. rewrite Hpgn.
    by apply analyzeGameFrom_unreplayable.
  - unfold GeminiChessAI.analyzeGame, try_catch, mbind, M_bind.
    destruct (getEngine_registers env ver pool) as (pool1 & e & -> & He).
    unfold onEngine. rewrite He. unfold analyzeGame. rewrite Hpgn.
    destruct (analyzeGameFrom_unreplayable env history 0 chess_initial []
                {| this := e; world := poolWorld pool1 |} Hps) as (err & c' & ->).
    unfold GeminiChessAI.generateFallbackGameAnalysis. rewrite Hpgn.
    destruct (fallbackMovesFrom_unreplayable history chess_initial [] Hps)
      as (mv & Hin & ->).
    by eexists mv, _.
Qed.

Lemma analyzeGame_unreplayable_witness :
  exists pool',
    GeminiChessAI.analyzeGame (chessjs := SetUpChess.chess)
      (Example.engineUp Example.quickSearch) "e5" "17" pool0
    = (Throw (InvalidMove "e5"), pool').
Proof.
  destruct (SetUpChess.loadPgn "e5") as [[history final]|] eqn:Hpgn;
    [|vm_compute in Hpgn; discriminate].
  destruct (@analyzeGame_unreplayable (Example.engineUp Example.quickSearch)
              SetUpChess.chess "e5" "17" pool0 history final Hpgn)
    as (_ & mv & pool' & Hin & Hrun).
  - vm_compute in Hpgn. injection Hpgn as <- _. reflexivity.
  - exists pool'. rewrite Hrun. vm_compute in Hpgn. injection Hpgn as <- _.
    apply list_elem_of_singleton in Hin as ->. reflexivity.
Defined.

Lemma getBookMoves_legal_witness :
  exists bms,
    GeminiChessAI.getBookMoves (chessjs := PawnChess.chess) PawnChess.startFen = Ok bms /\
    (length bms <= 3)%nat.
Proof.
  pose proof (@getBookMoves_legal PawnChess.chess PawnChess.startFen) as Hbook.
  change (chess_load PawnChess.startFen) with (PawnChess.load PawnChess.startFen)
    in Hbook.
  destruct (PawnChess.load PawnChess.startFen) as [chess|] eqn:Hload;
    [|vm_compute in Hload; discriminate].
  destruct Hbook as (bms & Hrun & Hlen & _). by exists bms.
Defined.

(** X25.  Where no Stockfish constructor can be found and the registry
    holds no instance for the version, the report of a game that has at least
    one move and replays from the initial position is the fallback report:
    accuracies 50, no critical moment, placeholder records; no search is
    made. *)
Theorem analyzeGame_without_engine (env : Env) {chessjs : ChessJs} (pgn : string)
    (ver : string) (pool : Pool) (mv : Move) (history : list Move)
    (final : position) (ps : list position) :
  (forall k, stockfishLoads env k = false) ->
  (forall e, engines pool !! ver = Some e -> engine e = None) ->
  chess_loadPgn pgn = Some (mv :: history, final) ->
  positionsBefore chess_initial (mv :: history) = Some ps ->
  exists r pool',
    GeminiChessAI.analyzeGame env pgn ver pool = (Ok r, pool') /\
    GameAnalysis.whiteAccuracy (GameAnalysis.summary r) = Num 50 /\
    GameAnalysis.blackAccuracy (GameAnalysis.summary r) = Num 50 /\
    GameAnalysis.criticalMoments (GameAnalysis.summary r) = 0%nat /\
    length (GameAnalysis.moves r) = S (length history) /\
    Forall placeholder (GameAnalysis.moves r) /\
    searches (poolWorld pool') = searches (poolWorld pool) /\
    posted (poolWorld pool') = posted (poolWorld pool).
Proof.
  intros Hdown Hnone Hpgn Hps.
  unfold GeminiChessAI.analyzeGame, try_catch, mbind, M_bind.
  assert (Hget : exists pool1 e,
             MultiVersionStockfish.getEngine env ver pool = (Ok tt, pool1) /\
             engines pool1 !! ver = Some e /\ engine e = None /\
             searches (poolWorld pool1) = searches (poolWorld pool) /\
             posted (poolWorld pool1) = posted (poolWorld pool)).
  { unfold MultiVersionStockfish.getEngine.
    destruct (engines pool !! ver) as [e|] eqn:E.
    - exists pool, e. split_and!; try done. by apply Hnone.
    - unfold initialize. run. rewrite Hdown. run. cbn.
      eexists _, _. split; [reflexivity|]. cbn. rewrite lookup_insert_eq.
      by split_and!. }
  destruct Hget as (pool1 & e & -> & He & Hengine & Hs1 & Hp1).
  unfold onEngine. rewrite He. unfold analyzeGame. rewrite Hpgn.
  cbn [analyzeGameFrom]. unfold mbind at 1, M_bind at 1.
  destruct (analyzePosition_rejects env (chess_fen chess_initial) (Num 18) (Num 8000)
              {| this := e; world := poolWorld pool1 |} Hengine (fun _ => Hdown _))
    as (err & c' & -> & _ & Hs2 & Hp2).
  unfold GeminiChessAI.generateFallbackGameAnalysis. rewrite Hpgn.
  destruct (fallbackMovesFrom_records (mv :: history) chess_initial [] ps Hps)
    as (out & Hrun & Hplies).
  rewrite Hrun. eexists _, _. split; [reflexivity|].
  cbn [GameAnalysis.summary GameAnalysis.moves GameAnalysis.whiteAccuracy
       GameAnalysis.blackAccuracy GameAnalysis.criticalMoments poolWorld].
  split_and!; try done.
  - apply (f_equal length) in Hplies. unfold pliesOf in Hplies.
    rewrite length_map in Hplies. rewrite Hplies. cbn [map app].
    rewrite pliesOfGame_length; [done|]. by eapply positionsBefore_length.
  - by eapply fallbackMovesFrom_placeholders.
  - cbn in Hs2. by rewrite Hs2.
  - unfold posts in Hp2. cbn in Hp2. by rewrite Hp2, app_nil_r.
Qed.

Lemma analyzeGame_without_engine_witness :
  exists r pool',
    GeminiChessAI.analyzeGame (chessjs := PawnChess.chess) Example.engineDown
      "1. e4 e5" "17" pool0 = (Ok r, pool') /\
    GameAnalysis.whiteAccuracy (GameAnalysis.summary r) = Num 50 /\
    length (GameAnalysis.moves r) = 2%nat.
Proof.
  destruct (@analyzeGame_without_engine Example.engineDown PawnChess.chess
              "1. e4 e5" "17" pool0
              {| san := "e4"; from := "e2"; to := "e4"; piece := Pawn |}
              [{| san := "e5"; from := "e7"; to := "e5"; piece := Pawn |}]
              (default PawnChess.initial
                 (snd <$> PawnChess.loadPgn "1. e4 e5"))
              (default []
                 (positionsBefore (chessjs := PawnChess.chess) PawnChess.initial
                    [{| san := "e4"; from := "e2"; to := "e4"; piece := Pawn |};
                     {| san := "e5"; from := "e7"; to := "e5"; piece := Pawn |}])))
    as (r & pool' & Hrun & Hwhite & _ & _ & Hlen & _).
  - reflexivity.
  - intros e He. vm_compute in He. discriminate.
  - vm_compute. reflexivity.
  - vm_compute. reflexivity.
  - exists r, pool'. split; [exact Hrun|]. split; [exact Hwhite | exact Hlen].
Defined.

(** X26.  For a record that parses and has no move, no search is needed and
    the report never comes from the fallback, with or without an engine: it
    has no record, both accuracies are 0 and no critical moment, and the
    result is written from the side to move of the position the record
    leads to. *)
Theorem analyzeGame_no_moves (env : Env) {chessjs : ChessJs} (pgn : string)
    (ver : string) (pool : Pool) (final : position) :
  chess_loadPgn pgn = Some ([], final) ->
  exists pool',
    GeminiChessAI.analyzeGame env pgn ver pool
    = (Ok {| GameAnalysis.summary := GeminiChessAI.generateGameSummary [] final;
             GameAnalysis.moves := [] |}, pool') /\
    GameAnalysis.whiteAccuracy (GeminiChessAI.generateGameSummary [] final) = Num 0 /\
    GameAnalysis.blackAccuracy (GeminiChessAI.generateGameSummary [] final) = Num 0 /\
    GameAnalysis.criticalMoments (GeminiChessAI.generateGameSummary [] final) = 0%nat /\
    GameAnalysis.gameResult (GeminiChessAI.generateGameSummary [] final)
    = match chess_turn final with White => "0-1" | Black => "1-0" end /\
    searches (poolWorld pool') = searches (poolWorld pool).
Proof.
  intros Hpgn.
  unfold GeminiChessAI.analyzeGame, try_catch, mbind, M_bind.
  pose proof (getEngine_searches env ver pool) as Hs.
  destruct (getEngine_registers env ver pool) as (pool1 & e & Hget & He).
  rewrite Hget in Hs |- *. cbn [snd] in Hs.
  unfold onEngine. rewrite He. unfold analyzeGame. rewrite Hpgn.
  cbn [analyzeGameFrom]. unfold mret, M_ret.
  eexists. split; [reflexivity|]. by split_and!.
Qed.

Lemma analyzeGame_no_moves_witness :
  exists r pool',
    GeminiChessAI.analyzeGame (chessjs := PawnChess.chess) Example.engineDown
      EmptyString "17" pool0 = (Ok r, pool') /\
    GameAnalysis.whiteAccuracy (GameAnalysis.summary r) = Num 0 /\
    GameAnalysis.moves r = [].
Proof.
  destruct (@analyzeGame_no_moves Example.engineDown PawnChess.chess EmptyString
              "17" pool0 PawnChess.initial eq_refl)
    as (pool' & Hrun & Hwhite & _).
  eexists _, pool'. split; [exact Hrun|]. split; [exact Hwhite | reflexivity].
Defined.

Section InsightFacts.

Lemma filter_nonempty {A} (p : A -> bool) (l : list A) :
  (0 < length (List.filter p l))%nat <-> Exists (fun a => p a = true) l.
Proof.
  induction l as [|a l IH]; cbn [List.filter].
  - split; [cbn; lia | intros H; by apply Exists_nil in H].
  - rewrite Exists_cons. destruct (p a) eqn:Ea.
    + split; [by left | cbn; lia].
    + rewrite IH. split; [by right | intros [H|H]; [congruence | done]].
Qed.

Lemma filter_unflagged (p : Classification -> bool) (l : list PositionAnalysis) :
  p noFlag = false -> Forall (fun a => flags a = noFlag) l ->
  List.filter (fun a => p (flags a)) l = [].
Proof.
  intros Hp Hall. induction Hall as [|a l Ha _ IH]; [done|].
  cbn [List.filter]. by rewrite Ha, Hp.
Qed.

End InsightFacts.

(** X27.  The insights of a game follow the flags of its records:
    improvements are listed exactly when some record is flagged a blunder,
    strengths exactly when some record is flagged brilliant, weaknesses
    exactly when at least three records are flagged a blunder; so weaknesses
    never come without improvements, and records without flag give none of
    the three. *)
Theorem generateInsights_flags (analyses : list PositionAnalysis) :
  let ins := GeminiChessAI.generateInsights analyses in
  let blunders :=
    length (List.filter (fun a => Js.truthy (blunder (flags a))) analyses) in
  (Insights.improvements ins <> [] <->
   Exists (fun a => Js.truthy (blunder (flags a)) = true) analyses) /\
  (Insights.strengths ins <> [] <->
   Exists (fun a => Js.truthy (brilliant (flags a)) = true) analyses) /\
  (Insights.weaknesses ins <> [] <-> (3 <= blunders)%nat) /\
  (Insights.weaknesses ins <> [] -> Insights.improvements ins <> []) /\
  (Forall (fun a => flags a = noFlag) analyses ->
   Insights.improvements ins = [] /\ Insights.strengths ins = [] /\
   Insights.weaknesses ins = []).
Proof.
  cbv zeta. unfold GeminiChessAI.generateInsights.
  cbn [Insights.improvements Insights.strengths Insights.weaknesses].
  rewrite <- !filter_nonempty.
  set (blunders := length (List.filter (fun a => Js.truthy (blunder (flags a))) analyses)).
  set (brilliants := length (List.filter (fun a => Js.truthy (brilliant (flags a))) analyses)).
  split_and!.
  - destruct (Nat.ltb_spec 0 blunders); split; try done; lia.
  - destruct (Nat.ltb_spec 0 brilliants); split; try done; lia.
  - destruct (Nat.ltb_spec 2 blunders); split; try done; lia.
  - destruct (Nat.ltb_spec 2 blunders); [|done].
    destruct (Nat.ltb_spec 0 blunders); [done | lia].
  - intros Hall. subst blunders brilliants.
    rewrite (filter_unflagged (fun c => Js.truthy (blunder c)) analyses eq_refl Hall).
    by rewrite (filter_unflagged (fun c => Js.truthy (brilliant c)) analyses eq_refl Hall).
Qed.

Lemma generateInsights_flags_witness :
  Insights.improvements (GeminiChessAI.generateInsights Example.threePlies) <> [] /\
  Insights.weaknesses (GeminiChessAI.generateInsights Example.threePlies) = [].
Proof.
  split.
  - apply (proj2 (proj1 (generateInsights_flags Example.threePlies))).
    constructor 1. reflexivity.
  - destruct (Insights.weaknesses (GeminiChessAI.generateInsights Example.threePlies))
      eqn:E; [reflexivity|].
    exfalso.
    assert (H : (3 <= length (List.filter (fun a => Js.truthy (blunder (flags a)))
                                 Example.threePlies))%nat).
    { apply (proj1 (proj1 (proj2 (proj2 (generateInsights_flags Example.threePlies))))).
      rewrite E. discriminate. }
    vm_compute in H. lia.
Defined.

(* --------------------------------------------------------------------- *)
(** *** The sweep of alternative moves *)
(* --------------------------------------------------------------------- *)

Section SweepFacts.
Context (env : Env) {chessjs : ChessJs}.

Implicit Types (c : Client) (moves : list AnalysisResult).

Lemma stops_are_no_search (h : nat) (new : list (nat * command)) :
  Forall (fun e => e = (h, Stop)) new -> goLines new = [] /\ positionLines new = [].
Proof.
  intros Hnew. induction Hnew as [|e new -> _ [IHg IHp]]; [done|].
  unfold goLines, positionLines in *. cbn. by rewrite IHg, IHp.
Qed.

Lemma lines_of_search (h : nat) (fen : string) (d : number)
    (pre new : list (nat * command)) :
  goLines pre = [] -> positionLines pre = [] ->
  Forall (fun e => e = (h, Stop)) new ->
  length (goLines (pre ++ [(h, PositionFen fen); (h, GoDepth d)] ++ new)) = 1%nat /\
  length (positionLines (pre ++ [(h, PositionFen fen); (h, GoDepth d)] ++ new)) = 1%nat.
Proof.
  intros Hg Hp Hnew. destruct (stops_are_no_search h new Hnew) as [Hg' Hp'].
  unfold goLines, positionLines in *. rewrite !List.filter_app, Hg, Hp. cbn.
  by rewrite Hg', Hp'.
Qed.

(** What one search does to the counters and to the log, whatever its
    outcome: a search that returns is counted once and has posted one
    "position" line and one "go" line; a search that throws is not counted
    and has posted none. *)
Lemma analyzePosition_counts fen d t c out c' :
  analyzePosition env fen d t c = (out, c') ->
  exists (k : nat) (new : list (nat * command)),
    searches (world c') = (searches (world c) + k)%nat /\
    posts c c' new /\
    Forall (fun e => e.2 ∈ searchCommands fen d) new /\
    length (goLines new) = k /\ length (positionLines new) = k /\
    (forall r, out = Ok r -> k = 1%nat /\ exists h', engine (this c') = Some h') /\
    (forall e, out = Throw e -> k = 0%nat).
Proof.
  assert (Hthrow : forall e c0, posted (world c0) = posted (world c) ->
            searches (world c0) = searches (world c) ->
            exists (k : nat) (new : list (nat * command)),
              searches (world c0) = (searches (world c) + k)%nat /\
              posts c c0 new /\
              Forall (fun e => e.2 ∈ searchCommands fen d) new /\
              length (goLines new) = k /\ length (positionLines new) = k /\
              (forall r, @Throw AnalysisResult e = Ok r ->
                 k = 1%nat /\ exists h', engine (this c0) = Some h') /\
              (forall e', @Throw AnalysisResult e = Throw e' -> k = 0%nat)).
  { intros e c0 Hp Hs. exists 0%nat, []. unfold posts. rewrite Hp, Hs, app_nil_r.
    split_and!; first [done | lia | constructor]. }
  assert (Hok : forall h (pre new : list (nat * command)) r c0 c1,
            goLines pre = [] -> positionLines pre = [] ->
            Forall (fun e => e.2 ∈ searchCommands fen d) pre ->
            posts c c1 (pre ++ [(h, PositionFen fen); (h, GoDepth d)]) ->
            searches (world c1) = S (searches (world c)) ->
            engine (this c1) = Some h ->
            this c0 = this c1 -> searches (world c0) = searches (world c1) ->
            posts c1 c0 new -> Forall (fun e => e = (h, Stop)) new ->
            exists (k : nat) (new : list (nat * command)),
              searches (world c0) = (searches (world c) + k)%nat /\
              posts c c0 new /\
              Forall (fun e => e.2 ∈ searchCommands fen d) new /\
              length (goLines new) = k /\ length (positionLines new) = k /\
              (forall r', Ok r = Ok r' ->
                 k = 1%nat /\ exists h', engine (this c0) = Some h') /\
              (forall e', @Ok AnalysisResult r = Throw e' -> k = 0%nat)).
  { intros h pre new r c0 c1 Hg Hpl Hpre Hp1 Hs1 Hh Hthis Hs0 Hp0 Hnew.
    destruct (lines_of_search h fen d pre new Hg Hpl Hnew) as [Hgo Hpos].
    exists 1%nat, (pre ++ [(h, PositionFen fen); (h, GoDepth d)] ++ new).
    split_and!; try done.
    - rewrite Hs0, Hs1. lia.
    - rewrite app_assoc. by eapply posts_trans.
    - apply Forall_app. split; [done|]. apply Forall_app. split; [search_commands|].
      by eapply stops_are_search_commands.
    - intros _ _. split; [done|]. exists h. by rewrite Hthis. }
  unfold analyzePosition. run. destruct (isReady (this c)) eqn:Er; run.
  - destruct (engine (this c)) as [h|] eqn:Hh; run.
    + match goal with
      | |- context [listen env h d ?t0 ?l accum0 ?c1] =>
          destruct (listen_resolves env h d t0 l accum0 c1)
            as (r & c0 & new & -> & Hthis & Hs & _ & Hp & Hnew);
          intros [= <- <-];
          apply (Hok h [] new r c0 c1); try done; try constructor
      end.
      unfold posts. cbn. by rewrite <- !app_assoc.
    + intros [= <- <-]. by apply Hthrow.
  - unfold initialize. run.
    destruct (stockfishLoads env (inits (world c))) eqn:El; run.
    + match goal with
      | |- context [listen env ?k d ?t0 ?l accum0 ?c1] =>
          destruct (listen_resolves env k d t0 l accum0 c1)
            as (r & c0 & new & -> & Hthis & Hs & _ & Hp & Hnew);
          intros [= <- <-];
          apply (Hok k (handshake k) new r c0 c1); try done
      end.
      * search_commands.
      * unfold posts, handshake. cbn. by rewrite <- !app_assoc.
    + destruct (engine (this c)) as [h|] eqn:Hh; run.
      * match goal with
        | |- context [listen env h d ?t0 ?l accum0 ?c1] =>
            destruct (listen_resolves env h d t0 l accum0 c1)
              as (r & c0 & new & -> & Hthis & Hs & _ & Hp & Hnew);
            intros [= <- <-];
            apply (Hok h [] new r c0 c1); try done; try constructor
        end.
        unfold posts. cbn. by rewrite <- !app_assoc.
      * intros [= <- <-]. by apply Hthrow.
Qed.

(** The loop of [getTopMoves], whatever its outcome: each iteration that it
    runs makes one search, which is counted and posts one "go" line and one
    "position" line, each for [fen] and depth 15; what it returns extends the
    list by at most one result per search, each with a best move. *)
Lemma getTopMovesFrom_counts fen (remaining : nat) moves c out c' :
  getTopMovesFrom env fen remaining moves c = (out, c') ->
  exists (k : nat) (new : list (nat * command)),
    searches (world c') = (searches (world c) + k)%nat /\
    (k <= remaining)%nat /\
    posts c c' new /\
    Forall (fun e => e.2 ∈ searchCommands fen (Num 15)) new /\
    length (goLines new) = k /\ (k <= length (positionLines new))%nat /\
    (forall result, out = Ok result ->
       exists more,
         result = moves ++ more /\ (length more <= k)%nat /\
         Forall (fun m => Js.truthyStr (bestMove m) = true) more).
Proof.
  assert (Happ : forall new1 new2 : list (nat * command),
            length (goLines (new1 ++ new2))
            = (length (goLines new1) + length (goLines new2))%nat /\
            length (positionLines (new1 ++ new2))
            = (length (positionLines new1) + length (positionLines new2))%nat).
  { intros new1 new2. unfold goLines, positionLines.
    by rewrite !List.filter_app, !length_app. }
  revert moves c. induction remaining as [|remaining IH]; intros moves c Hrun.
  - cbn in Hrun. injection Hrun as <- <-. exists 0%nat, [].
    split_and!; try (first [done | lia | apply posts_refl | by constructor]).
    intros result [= <-]. exists []. by rewrite app_nil_r.
  - cbn [getTopMovesFrom] in Hrun. unfold mbind, M_bind in Hrun.
    destruct (analyzePosition env fen (Num 15) (Num 5000) c) as [[r|e] c1] eqn:Hsearch;
      destruct (analyzePosition_counts _ _ _ _ _ _ Hsearch)
        as (k1 & new1 & Hs1 & Hp1 & Hall1 & Hgo1 & Hpos1 & Hok1 & Hthrow1).
    2:{ injection Hrun as <- <-. rewrite (Hthrow1 e eq_refl) in *.
        exists 0%nat, new1. split_and!; try done; lia. }
    destruct (Hok1 r eq_refl) as [-> [h1 Hh1]].
    destruct (Js.truthyStr (bestMove r)) eqn:Etruthy.
    2:{ destruct (IH _ _ Hrun)
          as (k & new & Hs & Hk & Hp & Hall & Hgo & Hpos & Hres).
        destruct (Happ new1 new) as [Hg Hq].
        exists (S k), (new1 ++ new). split_and!.
        - lia.
        - lia.
        - by eapply posts_trans.
        - by apply Forall_app.
        - rewrite Hg. lia.
        - rewrite Hq. lia.
        - intros result Hout. destruct (Hres result Hout) as (more & -> & Hlen & Hall').
          exists more. split_and!; [done | lia | done]. }
    destruct (chess_load fen) as [chess|].
    2:{ injection Hrun as <- <-. exists 1%nat, new1.
        split_and!; try done; lia. }
    destruct (chess_move chess (default EmptyString (bestMove r))).
    2:{ injection Hrun as <- <-. exists 1%nat, new1.
        split_and!; try done; try lia.
        intros result [= <-]. exists [r]. split_and!; [done | cbn; lia |].
        by repeat constructor. }
    revert Hrun. run. rewrite Hh1. run.
    set (c2 := {| this := _; world := _ |}). intros Hrun.
    destruct (IH _ _ Hrun) as (k & new & Hs & Hk & Hp & Hall & Hgo & Hpos & Hres).
    assert (Hp12 : posts c1 c2 [(h1, PositionFen fen)]) by done.
    destruct (Happ new1 ([(h1, PositionFen fen)] ++ new)) as [Hg Hq].
    destruct (Happ [(h1, PositionFen fen)] new) as [Hg' Hq'].
    exists (S k), (new1 ++ [(h1, PositionFen fen)] ++ new). split_and!.
    + subst c2. cbn in Hs. lia.
    + lia.
    + eapply posts_trans; [exact Hp1|]. by eapply posts_trans.
    + apply Forall_app. split; [done|]. apply Forall_app. split; [|done].
      search_commands.
    + rewrite Hg, Hg'. cbn. lia.
    + rewrite Hq, Hq'. cbn. lia.
    + intros result Hout. destruct (Hres result Hout) as (more & -> & Hlen & Hall').
      exists (r :: more). split_and!.
      * by rewrite <- app_assoc.
      * cbn. lia.
      * by constructor.
Qed.

(** With an engine instance and a FEN that chess.js accepts, the loop
    returns, after one search for each iteration left unless chess.js
    rejected the best move of the last result. *)
Lemma getTopMovesFrom_exact fen (remaining : nat) moves c h chess :
  engine (this c) = Some h ->
  chess_load fen = Some chess ->
  exists more c',
    getTopMovesFrom env fen remaining moves c = (Ok (moves ++ more), c') /\
    (searches (world c') = (searches (world c) + remaining)%nat \/
     exists r, last more = Some r /\
               chess_move chess (default EmptyString (bestMove r)) = None).
Proof.
  intros Hh Hload. revert moves c h Hh.
  induction remaining as [|remaining IH]; intros moves c h Hh.
  - exists [], c. rewrite app_nil_r. split; [done|]. left. lia.
  - cbn [getTopMovesFrom]. unfold mbind, M_bind.
    destruct (analyzePosition_returns env fen (Num 15) (Num 5000) c h Hh)
      as (r & c1 & h1 & new & -> & Hh1 & Hs1 & _).
    destruct (Js.truthyStr (bestMove r)).
    2:{ destruct (IH moves c1 h1 Hh1) as (more & c' & -> & Hend).
        exists more, c'. split; [done|].
        destruct Hend as [Hs|Hbreak]; [left; lia | by right]. }
    rewrite Hload.
    destruct (chess_move chess (default EmptyString (bestMove r))) eqn:Hmove.
    2:{ exists [r], c1. split; [done|]. right. by exists r. }
    run. rewrite Hh1. run.
    set (c2 := {| this := _; world := _ |}).
    destruct (IH (moves ++ [r]) c2 h1 Hh1) as (more & c' & -> & Hend).
    exists (r :: more), c'. rewrite <- app_assoc. split; [done|].
    destruct Hend as [Hs|(r' & Hlast & Hbreak)].
    + left. subst c2. cbn in Hs. lia.
    + right. exists r'. split; [|done]. rewrite last_cons, Hlast. done.
Qed.

End SweepFacts.

(** C10, as the code has it.  Whatever the client and the text,
    [getTopMoves(fen, n)] makes at most [n] searches; each search that it
    makes is counted and posts one "go depth 15" and at least one
    "position fen" line, and every line posted is a line of a search of [fen]
    to depth 15 (the position, the depth, "stop" and the start-up lines: no
    move is excluded); a list that it returns has at most one result per
    search, each with a best move that is not empty.  On a client that holds
    an engine instance, for a FEN that chess.js accepts, it does return a
    list, after exactly [n] searches unless chess.js rejected the best move
    of the last result, which ends the loop.  The results need not be
    distinct: an engine that answers every search alike yields the same
    result three times. *)
Theorem getTopMoves_sweep (env : Env) {chessjs : ChessJs} (fen : string)
    (numMoves : nat) (c : Client) :
  (forall out c', getTopMoves env fen numMoves c = (out, c') ->
     exists (k : nat) (new : list (nat * command)),
       searches (world c') = (searches (world c) + k)%nat /\
       (k <= numMoves)%nat /\
       posts c c' new /\
       Forall (fun e => e.2 ∈ searchCommands fen (Num 15)) new /\
       length (goLines new) = k /\ (k <= length (positionLines new))%nat /\
       (forall moves, out = Ok moves ->
          (length moves <= k)%nat /\
          Forall (fun m => exists s, bestMove m = Some s /\ s <> EmptyString) moves)) /\
  (forall h chess, engine (this c) = Some h -> chess_load fen = Some chess ->
     exists moves c',
       getTopMoves env fen numMoves c = (Ok moves, c') /\
       (searches (world c') = (searches (world c) + numMoves)%nat \/
        exists r, last moves = Some r /\
                  chess_move chess (default EmptyString (bestMove r)) = None)) /\
  (getTopMoves (chessjs := PawnChess.chess) (Example.engineUp Example.quickSearch)
     PawnChess.startFen 3 Example.ready).1
  = Ok (replicate 3
          {| bestMove := Some "e4"; evaluation := Num 0.35; depth := Num 10;
             nodes := Num 1000; time := 1000; pv := ["e2e4"; "e7e5"];
             mate := None |}).
Proof.
  split_and!.
  - intros out c' Hrun. unfold getTopMoves in Hrun.
    destruct (getTopMovesFrom_counts env fen numMoves [] c out c' Hrun)
      as (k & new & Hs & Hk & Hp & Hall & Hgo & Hpos & Hres).
    exists k, new. split_and!; try done.
    intros moves Hout. destruct (Hres moves Hout) as (more & -> & Hlen & Hall').
    split; [done|]. cbn [app].
    eapply Forall_impl; [exact Hall'|]. intros m Hm. by apply truthyStr_nonempty.
  - intros h chess Hh Hload. unfold getTopMoves.
    exact (getTopMovesFrom_exact env fen numMoves [] c h chess Hh Hload).
  - exact getTopMoves_repeats.
Qed.

Lemma getTopMoves_sweep_witness :
  exists moves c',
    getTopMoves (chessjs := PawnChess.chess) (Example.engineUp Example.quickSearch)
      PawnChess.startFen 3 Example.ready
    = (Ok moves, c') /\
    length moves = 3%nat /\
    searches (world c') = 3%nat /\
    length (goLines (posted (world c'))) = 3%nat.
Proof.
  destruct (PawnChess.load PawnChess.startFen) as [chess|] eqn:Hload;
    [|vm_compute in Hload; discriminate].
  destruct (getTopMoves_sweep (chessjs := PawnChess.chess)
              (Example.engineUp Example.quickSearch) PawnChess.startFen 3 Example.ready)
    as (_ & Hreturns & _).
  destruct (Hreturns 0%nat chess eq_refl Hload) as (moves & c' & Hrun & _).
  exists moves, c'. split; [exact Hrun|].
  vm_compute in Hrun. injection Hrun as <- <-. by split_and!.
Defined.

(** C10, as the claim states it, fails: the sweep does not return a list
    for every client and every text.  On a client for which no engine can be
    had it throws the [TypeError] of its first search; and for the position
    with which the page of the board starts, a text of seven ranks that
    chess.js rejects, it throws the error of [new Chess(fen)] once a search
    has returned a best move. *)
Lemma getTopMoves_may_throw :
  (getTopMoves (chessjs := PawnChess.chess) Example.engineDown PawnChess.startFen 3
     Example.fresh).1
  = Throw (TypeError "Cannot set properties of undefined (setting 'onmessage')") /\
  chess_load (ChessJs := PawnChess.chess) Example.pageFen = None /\
  (getTopMoves (chessjs := PawnChess.chess) (Example.engineUp Example.quickSearch)
     Example.pageFen 3 Example.ready).1
  = Throw (InvalidFen Example.pageFen).
Proof. split_and!; vm_compute; reflexivity. Qed.
